(** * Frame-overlay export pipeline: compositor geometry, encoder adapter,
      real-time capture and fallback selection.

    Shallow embedding of the video pipeline of the wedding-frame tool:
    [video-processor-ffmpeg-umd.js] (FFmpegVideoProcessor,
    FallbackVideoProcessor, VideoProcessor), the canvas-based
    VideoFrameProcessor and the React component VideoEditor.

    Numbers.  JavaScript numbers are IEEE doubles; here they are the exact
    rationals [Q].  The inputs at which the code is shown to depart from a
    statement (1920x960 sources against the 9/16 target aspect, playback
    positions 0, 2.5 and 5 of a five-second video) are computed without
    rounding by doubles as well, so those evaluations agree with the
    browser.  Source dimensions are the integers the DOM reports
    ([videoWidth], [videoHeight]); division by zero is outside every
    statement. *)

From Stdlib Require Import QArith ZArith List String Ascii Bool Lia Lqa DecimalString Sorted.
From Stdlib Require Import Qround.
Import ListNotations.

Local Open Scope Q_scope.

(** ** JavaScript comparison and defaulting on numbers *)

(** [a > b] on numbers. *)
Definition Qgtb (a b : Q) : bool := negb (Qle_bool a b).

(** [Math.min(a, b)]. *)
Definition Math_min (a b : Q) : Q := if Qle_bool a b then a else b.

(** [n || d] on an integer: zero is falsy. *)
Definition or_default (n d : Z) : Z := if (n =? 0)%Z then d else n.

(** ** Canvas Compositor geometry *)

Module Compositor.

(** The rectangle handed to [ctx.drawImage(video, x, y, w, h)]. *)
Record DrawRect : Type := mkRect {
  offsetX : Q;
  offsetY : Q;
  drawWidth : Q;
  drawHeight : Q
}.

Definition targetWidth : Q := 1080.
Definition targetHeight : Q := 1920.

(** FallbackVideoProcessor.processVideo, inner [processFrames]
    (video-processor-ffmpeg-umd.js, "Calculate proper scaling"). *)
Definition fallback_rect (video_videoWidth video_videoHeight : Z) : DrawRect :=
  let videoWidth := or_default video_videoWidth 1280 in
  let videoHeight := or_default video_videoHeight 720 in
  let videoAspect := inject_Z videoWidth / inject_Z videoHeight in
  let targetAspect := 1080 / 1920 in
  if Qgtb videoAspect targetAspect then
    let drawHeight := 1920 in
    let drawWidth := 1920 * videoAspect in
    let offsetX := (1080 - drawWidth) / 2 in
    let offsetY := 0 in
    mkRect offsetX offsetY drawWidth drawHeight
  else
    let drawWidth := 1080 in
    let drawHeight := 1080 / videoAspect in
    let offsetX := 0 in
    let offsetY := (1920 - drawHeight) / 2 in
    mkRect offsetX offsetY drawWidth drawHeight.

(** VideoFrameProcessor.processFrame (and EnhancedVideoProcessor.processFrame,
    which has the same body). *)
Definition processFrame_rect (video_videoWidth video_videoHeight : Z) : DrawRect :=
  let videoWidth := inject_Z video_videoWidth in
  let videoHeight := inject_Z video_videoHeight in
  let videoAspect := videoWidth / videoHeight in
  let targetAspect := targetWidth / targetHeight in
  if Qgtb videoAspect targetAspect then
    let drawHeight := targetHeight in
    let drawWidth := targetHeight * videoAspect in
    let offsetX := (targetWidth - drawWidth) / 2 in
    let offsetY := 0 in
    mkRect offsetX offsetY drawWidth drawHeight
  else
    let drawWidth := targetWidth in
    let drawHeight := targetWidth / videoAspect in
    let offsetX := 0 in
    let offsetY := (targetHeight - drawHeight) / 2 in
    mkRect offsetX offsetY drawWidth drawHeight.

(** VideoEditor.drawFrame (React component): the wider-than-canvas branch
    fits the width, the other branch fits the height. *)
Definition drawFrame_rect (video_videoWidth video_videoHeight : Z) : DrawRect :=
  let canvasAspect := 1080 / 1920 in
  let videoAspect := inject_Z video_videoWidth / inject_Z video_videoHeight in
  if Qgtb videoAspect canvasAspect then
    let drawWidth := 1080 in
    let drawHeight := 1080 / videoAspect in
    let drawX := 0 in
    let drawY := (1920 - drawHeight) / 2 in
    mkRect drawX drawY drawWidth drawHeight
  else
    let drawHeight := 1920 in
    let drawWidth := 1920 * videoAspect in
    let drawX := (1080 - drawWidth) / 2 in
    let drawY := 0 in
    mkRect drawX drawY drawWidth drawHeight.

(** *** The transform as the specification words it (section 4.1) *)

(** "scale so drawn height = H, drawn width = H x sourceAspect; horizontal
    offset = (W - drawnWidth)/2; vertical offset = 0". *)
Definition spec_fit_height (W H sourceAspect : Q) : DrawRect :=
  mkRect ((W - H * sourceAspect) / 2) 0 (H * sourceAspect) H.

(** "scale so drawn width = W, drawn height = W / sourceAspect; vertical
    offset = (H - drawnHeight)/2; horizontal offset = 0". *)
Definition spec_fit_width (W H sourceAspect : Q) : DrawRect :=
  mkRect 0 ((H - W / sourceAspect) / 2) W (W / sourceAspect).

Definition spec_crop_to_fill (sourceWidth sourceHeight : Z) : DrawRect :=
  let W := 1080 in
  let H := 1920 in
  let targetAspect := W / H in
  let sourceAspect := inject_Z sourceWidth / inject_Z sourceHeight in
  if Qgtb sourceAspect targetAspect
  then spec_fit_height W H sourceAspect
  else spec_fit_width W H sourceAspect.

(** The same two formula sets with the branches exchanged: the source is
    fitted inside the canvas. *)
Definition spec_fit_inside (sourceWidth sourceHeight : Z) : DrawRect :=
  let W := 1080 in
  let H := 1920 in
  let targetAspect := W / H in
  let sourceAspect := inject_Z sourceWidth / inject_Z sourceHeight in
  if Qgtb sourceAspect targetAspect
  then spec_fit_width W H sourceAspect
  else spec_fit_height W H sourceAspect.

(** Componentwise equality of rectangles as rationals. *)
Definition rect_eq (r s : DrawRect) : Prop :=
  offsetX r == offsetX s /\ offsetY r == offsetY s /\
  drawWidth r == drawWidth s /\ drawHeight r == drawHeight s.

(** The drawn rectangle leaves no pixel of the 1080x1920 target uncovered. *)
Definition covers_target (r : DrawRect) : Prop :=
  offsetX r <= 0 /\ offsetY r <= 0 /\
  1080 <= offsetX r + drawWidth r /\ 1920 <= offsetY r + drawHeight r.

(** The drawn rectangle lies inside the target. *)
Definition inside_target (r : DrawRect) : Prop :=
  0 <= offsetX r /\ 0 <= offsetY r /\
  offsetX r + drawWidth r <= 1080 /\ offsetY r + drawHeight r <= 1920.

Definition keeps_aspect (r : DrawRect) (w h : Z) : Prop :=
  drawWidth r / drawHeight r == inject_Z w / inject_Z h.

End Compositor.

(** ** Values shared by the processors *)

(** The outcome of a call that may throw (or of a promise that may reject). *)
Inductive Result (A : Type) : Type :=
| Ok (value : A)
| Throw (message : string).
Arguments Ok {A} value.
Arguments Throw {A} message.

(** A recorded chunk or a file read back from the encoder, by its size in
    bytes; [new Blob(parts, { type })]. *)
Definition Chunk : Type := N.

Record Blob : Type := mkBlob {
  blob_type : string;
  blob_parts : list Chunk
}.

(** A progress callback, identified by the function object passed in. *)
Definition Callback : Type := nat.

(** One invocation [cb(value)] of a progress callback. *)
Definition Report : Type := (Callback * Q)%type.

(** [if (onProgress) onProgress(v)]. *)
Definition call_if_set (onProgress : option Callback) (v : Q) : list Report :=
  match onProgress with
  | Some cb => [(cb, v)]
  | None => []
  end.

(** Truthiness of a reference that is either [null] or an object. *)
Definition truthy {A : Type} (o : option A) : bool :=
  match o with Some _ => true | None => false end.

(** ** String helpers for template literals and [String.prototype.includes] *)

Module Str.
Local Open Scope string_scope.

(** [`${n}`] for an integer. *)
Definition of_Z (n : Z) : string := NilZero.string_of_int (Z.to_int n).

(** [Array.prototype.join]. *)
Definition join (sep : string) (parts : list string) : string :=
  String.concat sep parts.

Fixpoint startsWith (prefix s : string) : bool :=
  match prefix, s with
  | EmptyString, _ => true
  | String a p, String b t => Ascii.eqb a b && startsWith p t
  | String _ _, EmptyString => false
  end.

(** [s.includes(sub)]. *)
Fixpoint includes (s sub : string) : bool :=
  startsWith sub s ||
  match s with
  | EmptyString => false
  | String _ t => includes t sub
  end.

End Str.

(** ** External encoder command lines *)

Module Command.
Import Compositor.
Local Open Scope string_scope.

(** FFmpegVideoProcessor._buildFFmpegCommand (video-processor-ffmpeg-umd.js).
    [hasFrame] is the truthiness of [this.frameImage]. *)
Definition filterComplex : string :=
  let targetWidth := 1080%Z in
  let targetHeight := 1920%Z in
  Str.join ","
    [ "[0:v]scale=" ++ Str.of_Z targetWidth ++ ":" ++ Str.of_Z targetHeight
        ++ ":force_original_aspect_ratio=increase";
      "crop=" ++ Str.of_Z targetWidth ++ ":" ++ Str.of_Z targetHeight ++ "[scaled]";
      "[1:v]scale=" ++ Str.of_Z targetWidth ++ ":" ++ Str.of_Z targetHeight ++ "[frame]";
      "[scaled][frame]overlay=0:0:format=auto[final]" ].

Definition videoFilter : string :=
  let targetWidth := 1080%Z in
  let targetHeight := 1920%Z in
  "scale=" ++ Str.of_Z targetWidth ++ ":" ++ Str.of_Z targetHeight
    ++ ":force_original_aspect_ratio=increase,crop="
    ++ Str.of_Z targetWidth ++ ":" ++ Str.of_Z targetHeight.

Definition _buildFFmpegCommand (hasFrame : bool)
    (inputVideo frameImage outputVideo format : string) : list string :=
  let args := ["-i"; inputVideo] in
  let args :=
    if hasFrame then
      (args ++ ["-i"; frameImage]
            ++ ["-filter_complex"; filterComplex]
            ++ ["-map"; "[final]"]
            ++ ["-map"; "0:a?"])%list
    else
      (args ++ ["-vf"; videoFilter])%list in
  let args :=
    if String.eqb format "mp4" then
      (args ++ ["-c:v"; "libx264"; "-preset"; "fast"; "-crf"; "20";
                "-maxrate"; "8M"; "-bufsize"; "16M";
                "-c:a"; "aac"; "-b:a"; "256k";
                "-movflags"; "+faststart"; "-threads"; "0"])%list
    else
      (args ++ ["-c:v"; "libvpx-vp9"; "-crf"; "32"; "-b:v"; "0";
                "-cpu-used"; "4"; "-row-mt"; "1";
                "-c:a"; "libopus"; "-b:a"; "256k"; "-threads"; "0"])%list in
  (args ++ ["-avoid_negative_ts"; "make_zero"; "-fflags"; "+genpts";
            "-f"; (if String.eqb format "mp4" then "mp4" else "webm");
            "-y"; outputVideo])%list.

(** VideoEditor.processVideoWithFFmpeg: the literal [ffmpegCommand]. *)
Definition editor_filter : string :=
  "[0:v]scale=1080:1920:force_original_aspect_ratio=decrease,pad=1080:1920:(ow-iw)/2:(oh-ih)/2:white[scaled];[scaled][1:v]overlay=0:0[output]".

Definition ffmpegCommand : list string :=
  [ "-i"; "input.mp4";
    "-i"; "frame.png";
    "-filter_complex"; editor_filter;
    "-map"; "[output]";
    "-map"; "0:a?";
    "-c:v"; "libx264";
    "-preset"; "medium";
    "-crf"; "18";
    "-c:a"; "aac";
    "-b:a"; "128k";
    "-movflags"; "+faststart";
    "output.mp4" ].

(** [args] holds the option [flag] immediately followed by [value]. *)
Fixpoint has_option (flag value : string) (args : list string) : bool :=
  match args with
  | a :: ((b :: _) as rest) =>
      (String.eqb a flag && String.eqb b value) || has_option flag value rest
  | _ => false
  end.

(** The value following the first occurrence of [flag]. *)
Fixpoint option_value (flag : string) (args : list string) : option string :=
  match args with
  | a :: ((b :: _) as rest) =>
      if String.eqb a flag then Some b else option_value flag rest
  | _ => None
  end.

(** *** Filter graphs as the encoder reads them

    The encoder is an external program.  The syntax tree below, its printer
    and its geometry follow the encoder's filter documentation ([scale] with
    [force_original_aspect_ratio], [crop] and [pad] with their default or
    written centring, [overlay]); output sizes are kept exact, where the
    encoder rounds them to whole pixels.  The printer ties the tree to the
    very strings the code builds. *)

Inductive AspectMode : Type := increase | decrease.

Inductive Position : Type :=
| centred                (* (ow-iw)/2 and (oh-ih)/2 *)
| at_pixel (n : Z).

Inductive Filter : Type :=
| scale (w h : Z) (force_original_aspect_ratio : option AspectMode)
| crop (w h : Z)
| pad (w h : Z) (x y : Position) (color : string)
| overlay (x y : Z) (format : option string).

Record Chain : Type := mkChain {
  chain_inputs : list string;
  chain_filters : list Filter;
  chain_output : option string
}.

Definition label (l : string) : string := "[" ++ l ++ "]".

Definition print_mode (m : AspectMode) : string :=
  match m with increase => "increase" | decrease => "decrease" end.

Definition print_position (horizontal : bool) (p : Position) : string :=
  match p with
  | centred => if horizontal then "(ow-iw)/2" else "(oh-ih)/2"
  | at_pixel n => Str.of_Z n
  end.

Definition print_filter (f : Filter) : string :=
  match f with
  | scale w h m =>
      "scale=" ++ Str.of_Z w ++ ":" ++ Str.of_Z h ++
      match m with
      | Some m => ":force_original_aspect_ratio=" ++ print_mode m
      | None => ""
      end
  | crop w h => "crop=" ++ Str.of_Z w ++ ":" ++ Str.of_Z h
  | pad w h x y color =>
      "pad=" ++ Str.of_Z w ++ ":" ++ Str.of_Z h ++ ":" ++
      print_position true x ++ ":" ++ print_position false y ++ ":" ++ color
  | overlay x y fmt =>
      "overlay=" ++ Str.of_Z x ++ ":" ++ Str.of_Z y ++
      match fmt with Some f => ":format=" ++ f | None => "" end
  end.

Definition print_chain (c : Chain) : string :=
  String.concat "" (map label (chain_inputs c)) ++
  String.concat "," (map print_filter (chain_filters c)) ++
  match chain_output c with Some l => label l | None => "" end.

Definition print_graph (sep : string) (g : list Chain) : string :=
  String.concat sep (map print_chain g).

(** The graph of [_buildFFmpegCommand] with a frame image. *)
Definition adapter_source_chain : Chain :=
  mkChain ["0:v"] [scale 1080 1920 (Some increase); crop 1080 1920] (Some "scaled").
Definition adapter_frame_chain : Chain :=
  mkChain ["1:v"] [scale 1080 1920 None] (Some "frame").
Definition adapter_overlay_chain : Chain :=
  mkChain ["scaled"; "frame"] [overlay 0 0 (Some "auto")] (Some "final").
Definition adapter_graph : list Chain :=
  [adapter_source_chain; adapter_frame_chain; adapter_overlay_chain].

(** The chain of [_buildFFmpegCommand] without a frame image ([-vf]). *)
Definition adapter_plain_chain : Chain :=
  mkChain [] [scale 1080 1920 (Some increase); crop 1080 1920] None.

(** The graph of the VideoEditor command. *)
Definition editor_source_chain : Chain :=
  mkChain ["0:v"]
    [scale 1080 1920 (Some decrease); pad 1080 1920 centred centred "white"]
    (Some "scaled").
Definition editor_overlay_chain : Chain :=
  mkChain ["scaled"; "1:v"] [overlay 0 0 None] (Some "output").
Definition editor_graph : list Chain :=
  [editor_source_chain; editor_overlay_chain].

Definition is_pad (f : Filter) : bool :=
  match f with pad _ _ _ _ _ => true | _ => false end.
Definition is_crop (f : Filter) : bool :=
  match f with crop _ _ => true | _ => false end.

Definition uses_pad (g : list Chain) : bool :=
  existsb (fun c => existsb is_pad (chain_filters c)) g.

(** Where the picture that entered a chain sits in the frame that leaves
    it: the frame size and the rectangle of the source picture in frame
    coordinates. *)
Record Placement : Type := mkPlacement {
  frame_w : Q;
  frame_h : Q;
  picture : DrawRect
}.

Local Open Scope Q_scope.

Definition source_placement (w h : Z) : Placement :=
  mkPlacement (inject_Z w) (inject_Z h) (mkRect 0 0 (inject_Z w) (inject_Z h)).

Definition Qmax (a b : Q) : Q := if Qle_bool a b then b else a.

Definition zoom (kx ky : Q) (p : Placement) : Placement :=
  mkPlacement (kx * frame_w p) (ky * frame_h p)
    (mkRect (kx * offsetX (picture p)) (ky * offsetY (picture p))
            (kx * drawWidth (picture p)) (ky * drawHeight (picture p))).

Definition shift (dx dy : Q) (W H : Q) (p : Placement) : Placement :=
  mkPlacement W H
    (mkRect (offsetX (picture p) + dx) (offsetY (picture p) + dy)
            (drawWidth (picture p)) (drawHeight (picture p))).

Definition position_offset (p : Position) (outer inner : Q) : Q :=
  match p with
  | centred => (outer - inner) / 2
  | at_pixel n => inject_Z n
  end.

Definition apply_filter (f : Filter) (p : Placement) : Placement :=
  match f with
  | scale w h None =>
      zoom (inject_Z w / frame_w p) (inject_Z h / frame_h p) p
  | scale w h (Some increase) =>
      let k := Qmax (inject_Z w / frame_w p) (inject_Z h / frame_h p) in
      zoom k k p
  | scale w h (Some decrease) =>
      let k := Math_min (inject_Z w / frame_w p) (inject_Z h / frame_h p) in
      zoom k k p
  | crop w h =>
      (* default crop position: the centre *)
      shift (- ((frame_w p - inject_Z w) / 2)) (- ((frame_h p - inject_Z h) / 2))
            (inject_Z w) (inject_Z h) p
  | pad w h x y _ =>
      shift (position_offset x (inject_Z w) (frame_w p))
            (position_offset y (inject_Z h) (frame_h p))
            (inject_Z w) (inject_Z h) p
  | overlay _ _ _ => p
  end.

Definition chain_placement (c : Chain) (w h : Z) : Placement :=
  fold_left (fun p f => apply_filter f p) (chain_filters c) (source_placement w h).

End Command.

(** ** A writer-and-exception monad for [async] bodies

    A computation yields the progress reports it made and either a value or
    the thrown error; a throw keeps the reports made before it. *)

Module Async.

Definition M (A : Type) : Type := (list Report * Result A)%type.

Definition ret {A} (a : A) : M A := ([], Ok a).

Definition bind {A B} (m : M A) (f : A -> M B) : M B :=
  match m with
  | (w, Ok a) => let '(w', r) := f a in ((w ++ w')%list, r)
  | (w, Throw e) => (w, Throw e)
  end.

(** [await] of a promise whose outcome the environment supplies. *)
Definition await {A} (r : Result A) : M A := ([], r).

Definition tell (w : list Report) : M unit := (w, Ok tt).

End Async.

Notation "x <- m ;; k" := (Async.bind m (fun x => k))
  (at level 61, m at next level, right associativity).
Notation "m ;;; k" := (Async.bind m (fun _ => k))
  (at level 61, right associativity).

(** ** External Encoder Adapter: FFmpegVideoProcessor *)

Module Encoder.
Import Async.
Local Open Scope string_scope.

(** [this.loadingPromise] once assigned: still loading, or settled with the
    boolean [_loadFFmpeg] returned (it catches every error and returns
    [false], so the promise never rejects). *)
Inductive Promise : Type :=
| Pending
| Settled (value : bool).

Record FFmpegVideoProcessor : Type := mkProcessor {
  isLoaded : bool;
  isProcessing : bool;
  frameImage : option Blob;
  loadingPromise : option Promise;
  currentProgressCallback : option Callback;
  (* ghost: how many times [_loadFFmpeg] has been entered *)
  loads : nat
}.

(** [constructor()]. *)
Definition new : FFmpegVideoProcessor :=
  mkProcessor false false None None None 0.

Definition set_isLoaded (b : bool) (p : FFmpegVideoProcessor) :=
  mkProcessor b (isProcessing p) (frameImage p) (loadingPromise p)
              (currentProgressCallback p) (loads p).
Definition set_job (busy : bool) (cb : option Callback) (p : FFmpegVideoProcessor) :=
  mkProcessor (isLoaded p) busy (frameImage p) (loadingPromise p) cb (loads p).
Definition set_frameImage (f : option Blob) (p : FFmpegVideoProcessor) :=
  mkProcessor (isLoaded p) (isProcessing p) f (loadingPromise p)
              (currentProgressCallback p) (loads p).

(** [this.loadingPromise = this._loadFFmpeg()]: the load is entered and its
    promise stored. *)
Definition start_load (p : FFmpegVideoProcessor) : FFmpegVideoProcessor :=
  mkProcessor (isLoaded p) (isProcessing p) (frameImage p) (Some Pending)
              (currentProgressCallback p) (S (loads p)).

(** [_loadFFmpeg] runs to its end: [isLoaded] is set to the outcome and the
    promise settles with it. *)
Definition load_settles (ok : bool) (p : FFmpegVideoProcessor) : FFmpegVideoProcessor :=
  mkProcessor ok (isProcessing p) (frameImage p) (Some (Settled ok))
              (currentProgressCallback p) (loads p).

(** What a call of [initialize] hands back: [true] at once, or the value of
    the loading promise it awaits. *)
Inductive Awaited : Type :=
| Now (value : bool)
| AwaitLoading.

Definition initialize (p : FFmpegVideoProcessor) : Awaited * FFmpegVideoProcessor :=
  if isLoaded p then (Now true, p)
  else match loadingPromise p with
       | Some _ => (AwaitLoading, p)
       | None => (AwaitLoading, start_load p)
       end.

(** The boolean an awaited [initialize] yields, once available. *)
Definition awaited_value (a : Awaited) (p : FFmpegVideoProcessor) : option bool :=
  match a with
  | Now b => Some b
  | AwaitLoading =>
      match loadingPromise p with
      | Some (Settled b) => Some b
      | _ => None
      end
  end.

(** [loadFrame(frameUrl)]: the fetched blob, or the error rethrown. *)
Definition loadFrame (fetched : Result Blob) (p : FFmpegVideoProcessor)
  : Result unit * FFmpegVideoProcessor :=
  match fetched with
  | Ok b => (Ok tt, set_frameImage (Some b) p)
  | Throw e => (Throw e, p)
  end.

(** [terminate()]. *)
Definition terminate (p : FFmpegVideoProcessor) : FFmpegVideoProcessor :=
  if isLoaded p then set_isLoaded false p else p.

(** The encoder engine and the browser as one job sees them: the outcome of
    each awaited call, and for [exec] the progress events the engine emits
    before it returns. *)
Record Engine : Type := mkEngine {
  extractVideoBlob : Result Blob;
  writeInput : Result unit;
  writeFrame : Result unit;
  exec : list string -> list Q * Result unit;
  readFile : Result Chunk
}.

(** The [progress] listener installed by [_loadFFmpeg]. *)
Definition on_progress (p : FFmpegVideoProcessor) (progress : Q) : list Report :=
  match currentProgressCallback p with
  | Some cb => [(cb, progress)]
  | None => []
  end.

Definition run_exec (p : FFmpegVideoProcessor) (r : list Q * Result unit) : M unit :=
  (flat_map (on_progress p) (fst r), snd r).

Definition busy_message : string := "Another video is currently being processed".
Definition init_message : string := "FFmpeg initialization failed".

(** [processVideo] up to the [try]: initialisation, busy check, flags. *)
Inductive Entry : Type :=
| AwaitingLoad
| Refused (message : string)
| Entered.

Definition processVideo_enter (p : FFmpegVideoProcessor) (onProgress : option Callback)
  : Entry * FFmpegVideoProcessor :=
  let '(a, p) := initialize p in
  match awaited_value a p with
  | None => (AwaitingLoad, p)
  | Some false => (Refused init_message, p)
  | Some true =>
      if isProcessing p then (Refused busy_message, p)
      else (Entered, set_job true onProgress p)
  end.

(** The [try] block. *)
Definition processVideo_try (p : FFmpegVideoProcessor) (onProgress : option Callback)
    (outputFormat : string) (env : Engine) : M Blob :=
  videoBlob <- await (extractVideoBlob env) ;;
  let inputVideo := "input.mp4" in
  let frameImageName := "frame.png" in
  let outputVideo := "output." ++ outputFormat in
  await (writeInput env) ;;;
  (if truthy (frameImage p) then await (writeFrame env) else ret tt) ;;;
  let ffmpegArgs :=
    Command._buildFFmpegCommand (truthy (frameImage p))
      inputVideo frameImageName outputVideo outputFormat in
  run_exec p (exec env ffmpegArgs) ;;;
  outputData <- await (readFile env) ;;
  let mimeType := if String.eqb outputFormat "mp4" then "video/mp4" else "video/webm" in
  let processedBlob := mkBlob mimeType [outputData] in
  tell (call_if_set onProgress 1) ;;;
  ret processedBlob.

(** The [finally] block. *)
Definition processVideo_finally (p : FFmpegVideoProcessor) : FFmpegVideoProcessor :=
  set_job false None p.

Inductive Outcome : Type :=
| Suspended
| Rejected (message : string)
| Fulfilled (blob : Blob).

Definition processVideo (p : FFmpegVideoProcessor) (onProgress : option Callback)
    (outputFormat : string) (env : Engine)
  : Outcome * FFmpegVideoProcessor * list Report :=
  match processVideo_enter p onProgress with
  | (AwaitingLoad, p) => (Suspended, p, [])
  | (Refused m, p) => (Rejected m, p, [])
  | (Entered, p) =>
      let '(reports, r) := processVideo_try p onProgress outputFormat env in
      (match r with Ok b => Fulfilled b | Throw m => Rejected m end,
       processVideo_finally p, reports)
  end.

(** The states a processor can be in: built by the constructor and changed
    only by its methods and by the load running to its end. *)
Inductive reachable : FFmpegVideoProcessor -> Prop :=
| reach_new : reachable new
| reach_initialize p : reachable p -> reachable (snd (initialize p))
| reach_load_settles ok p :
    reachable p -> loadingPromise p = Some Pending -> reachable (load_settles ok p)
| reach_loadFrame fetched p : reachable p -> reachable (snd (loadFrame fetched p))
| reach_terminate p : reachable p -> reachable (terminate p)
| reach_enter cb p : reachable p -> reachable (snd (processVideo_enter p cb))
| reach_finally p :
    reachable p -> isProcessing p = true -> reachable (processVideo_finally p).

(** The reports a whole job makes, as the bare sequence of values. *)
Definition values (reports : list Report) : list Q := map snd reports.

(** What holds of every reachable processor: a set [isLoaded] or
    [isProcessing] flag means the loading promise has settled with [true],
    and [_loadFFmpeg] has been entered exactly when the promise exists. *)
Definition invariant (p : FFmpegVideoProcessor) : Prop :=
  (isLoaded p = true -> loadingPromise p = Some (Settled true)) /\
  (isProcessing p = true -> loadingPromise p = Some (Settled true)) /\
  loads p = match loadingPromise p with None => O | Some _ => 1%nat end.

End Encoder.

(** ** Canvas draw calls *)

Module Canvas.
Import Compositor.

(** An [Image] element once its load has settled: decoded, or broken. *)
Record Image : Type := mkImage {
  image_src : string;
  image_decoded : bool
}.

(** The calls a frame issues on the 2D context, in order. *)
Inductive DrawCall : Type :=
| fillRect (fillStyle : string) (x y w h : Q)
| drawVideo (r : DrawRect)
| drawOverlay (img : Image) (x y w h : Q).

Definition is_fill (c : DrawCall) : bool :=
  match c with fillRect _ _ _ _ _ => true | _ => false end.
Definition is_video (c : DrawCall) : bool :=
  match c with drawVideo _ => true | _ => false end.
Definition is_overlay (c : DrawCall) : bool :=
  match c with drawOverlay _ _ _ _ _ => true | _ => false end.

(** [if (this.frameImage) ctx.drawImage(this.frameImage, 0, 0, 1080, 1920)]. *)
Definition overlay_step (frameImage : option Image) : list DrawCall :=
  match frameImage with
  | Some img => [drawOverlay img 0 0 1080 1920]
  | None => []
  end.

(** VideoEditor.drawFrame: the refs may be empty; the guard returns before
    anything is drawn. *)
Definition drawFrame (video : option (Z * Z)) (canvas : bool)
    (frameImg : option Image) : list DrawCall :=
  match video, canvas, frameImg with
  | Some (videoWidth, videoHeight), true, Some img =>
      [ fillRect "#ffffff" 0 0 1080 1920;
        drawVideo (drawFrame_rect videoWidth videoHeight);
        drawOverlay img 0 0 1080 1920 ]
  | _, _, _ => []
  end.

End Canvas.

(** ** MediaRecorder fallback: FallbackVideoProcessor *)

Module Fallback.
Import Compositor Canvas.
Local Open Scope string_scope.

Record FallbackVideoProcessor : Type := mkProcessor {
  frameImage : option Image;
  isProcessing : bool
}.

Definition new : FallbackVideoProcessor := mkProcessor None false.

(** [loadFrame(frameUrl)]: [this.frameImage] is assigned in [onload] only. *)
Definition loadFrame (frameUrl : string) (loads : bool) (p : FallbackVideoProcessor)
  : Result unit * FallbackVideoProcessor :=
  if loads then (Ok tt, mkProcessor (Some (mkImage frameUrl true)) (isProcessing p))
  else (Throw "error", p).

(** The hidden [processingVideo] element as a handler finds it. *)
Record Video : Type := mkVideo {
  currentTime : Q;
  ended : bool;
  videoWidth : Z;
  videoHeight : Z
}.

Inductive RecorderState : Type := recording | inactive.

(** Codec selection: "Priority order: VP9 > VP8 > H264 (all in WebM
    container)". *)
Definition select_mimeType (isTypeSupported : string -> bool) : string :=
  if isTypeSupported "video/webm;codecs=vp9,opus" then "video/webm;codecs=vp9,opus"
  else if isTypeSupported "video/webm;codecs=vp8,opus" then "video/webm;codecs=vp8,opus"
  else if isTypeSupported "video/webm;codecs=h264,opus" then "video/webm;codecs=h264,opus"
  else "video/webm".

(** [s || d] on strings: the empty string is falsy. *)
Definition or_string (s d : string) : string :=
  match s with EmptyString => d | _ => s end.

(** The closure state of the promise executor in [processVideo]. *)
Record Job : Type := mkJob {
  duration : Q;
  onProgress : option Callback;
  mimeType : string;
  frameCount : nat;
  frameRequested : bool;            (* a [requestAnimationFrame] is pending *)
  stopTimers : nat;                 (* pending [setTimeout(recorder.stop, 500)] *)
  recorder : RecorderState;
  chunks : list Chunk;
  settled : option (Result Blob);   (* the returned promise *)
  reported : list Report;           (* calls of [onProgress], oldest first *)
  canvas : list DrawCall            (* the calls of the latest frame *)
}.

Definition start (duration : Q) (onProgress : option Callback) (mimeType : string) : Job :=
  mkJob duration onProgress mimeType 0 false 0 recording [] None [] [].

Definition report (v : Q) (j : Job) : Job :=
  mkJob (duration j) (onProgress j) (mimeType j) (frameCount j) (frameRequested j)
        (stopTimers j) (recorder j) (chunks j) (settled j)
        (reported j ++ call_if_set (onProgress j) v) (canvas j).

(** [setTimeout(() => recorder.stop(), 500)]. *)
Definition schedule_stop (j : Job) : Job :=
  mkJob (duration j) (onProgress j) (mimeType j) (frameCount j) (frameRequested j)
        (S (stopTimers j)) (recorder j) (chunks j) (settled j) (reported j) (canvas j).

Definition set_frameRequested (b : bool) (j : Job) : Job :=
  mkJob (duration j) (onProgress j) (mimeType j) (frameCount j) b
        (stopTimers j) (recorder j) (chunks j) (settled j) (reported j) (canvas j).

(** [resolve] and [reject]: only the first call settles the promise. *)
Definition settle (r : Result Blob) (j : Job) : Job :=
  match settled j with
  | Some _ => j
  | None =>
      mkJob (duration j) (onProgress j) (mimeType j) (frameCount j) (frameRequested j)
            (stopTimers j) (recorder j) (chunks j) (Some r) (reported j) (canvas j)
  end.

(** [recorder.stop()] with its [onstop] handler; on a recorder that is
    already inactive nothing is recorded or settled any more. *)
Definition recorder_stop (j : Job) : Job :=
  match recorder j with
  | recording =>
      settle (Ok (mkBlob (or_string (mimeType j) "video/webm") (chunks j)))
        (mkJob (duration j) (onProgress j) (mimeType j) (frameCount j)
               (frameRequested j) (stopTimers j) inactive (chunks j) (settled j)
               (reported j) (canvas j))
  | inactive => j
  end.

(** [recorder.ondataavailable]. *)
Definition ondataavailable (size : Chunk) (j : Job) : Job :=
  if (0 <? size)%N then
    mkJob (duration j) (onProgress j) (mimeType j) (frameCount j) (frameRequested j)
          (stopTimers j) (recorder j) (chunks j ++ [size]) (settled j)
          (reported j) (canvas j)
  else j.

(** The draw calls of one frame of [processFrames]. *)
Definition frame_calls (p : FallbackVideoProcessor) (v : Video) : list DrawCall :=
  [ fillRect "#000000" 0 0 1080 1920;
    drawVideo (fallback_rect (videoWidth v) (videoHeight v)) ]
  ++ overlay_step (frameImage p).

(** [processFrames]. *)
Definition processFrames (p : FallbackVideoProcessor) (v : Video) (j : Job) : Job :=
  if ended v || Qle_bool (duration j) (currentTime v) then
    schedule_stop (report 1 (set_frameRequested false j))
  else
    let progress :=
      if truthy (onProgress j) && (frameCount j mod 10 =? 0)%nat
      then call_if_set (onProgress j) (Math_min (currentTime v / duration j) 0.99)
      else [] in
    mkJob (duration j) (onProgress j) (mimeType j) (S (frameCount j)) true
          (stopTimers j) (recorder j) (chunks j) (settled j)
          (reported j ++ progress) (frame_calls p v).

(** What the browser delivers to the job. *)
Inductive Event : Type :=
| PlayFulfilled (v : Video)       (* [play().then(...)] *)
| PlayRejected (e : string)       (* [play().catch(...)] *)
| AnimationFrame (v : Video)      (* the requested frame callback *)
| VideoEnded                      (* the [ended] listener *)
| TimerFires                      (* one pending stop timer *)
| DataAvailable (size : Chunk)
| RecorderError (e : string).

Definition handle (p : FallbackVideoProcessor) (e : Event) (j : Job) : Job :=
  match e with
  | PlayFulfilled v => processFrames p v (report 0 j)
  | PlayRejected e => settle (Throw e) j
  | AnimationFrame v =>
      if frameRequested j then processFrames p v (set_frameRequested false j) else j
  | VideoEnded => schedule_stop (report 1 j)
  | TimerFires =>
      match stopTimers j with
      | O => j
      | S n =>
          recorder_stop
            (mkJob (duration j) (onProgress j) (mimeType j) (frameCount j)
                   (frameRequested j) n (recorder j) (chunks j) (settled j)
                   (reported j) (canvas j))
      end
  | DataAvailable size =>
      match recorder j with
      | recording => ondataavailable size j
      | inactive => j
      end
  | RecorderError e => settle (Throw e) j
  end.

Definition run (p : FallbackVideoProcessor) (events : list Event) (j : Job) : Job :=
  fold_left (fun j e => handle p e j) events j.

Definition busy_message : string := "Another video is being processed".

(** The playing video as successive handlers find it: the last playback
    position shown, whether [ended] has fired, whether [play()] has been
    fulfilled. *)
Record Playhead : Type := mkPlayhead {
  last_time : Q;
  saw_ended : bool;
  started : bool
}.

(** Uninterrupted playback of the hidden video, which nothing seeks after
    the initial [currentTime = 0]: [play()] is fulfilled once and before the
    video ends, the position never moves back, and once [ended] has fired
    every handler finds [video.ended] set. *)
Fixpoint plays (h : Playhead) (events : list Event) : Prop :=
  match events with
  | [] => True
  | PlayFulfilled v :: rest =>
      started h = false /\ saw_ended h = false /\
      (last_time h <= currentTime v)%Q /\
      plays (mkPlayhead (currentTime v) false true) rest
  | AnimationFrame v :: rest =>
      (last_time h <= currentTime v)%Q /\
      (saw_ended h = true -> ended v = true) /\
      plays (mkPlayhead (currentTime v) (saw_ended h) (started h)) rest
  | VideoEnded :: rest =>
      plays (mkPlayhead (last_time h) true (started h)) rest
  | _ :: rest => plays h rest
  end.

(** The progress values of the job so far. *)
Definition progress (j : Job) : list Q := map snd (reported j).

(** What holds of the progress values during uninterrupted playback of a
    video of duration [d]. *)
Definition monotone (d : Q) (h : Playhead) (j : Job) : Prop :=
  duration j = d /\ (0 <= last_time h)%Q /\
  StronglySorted Qle (progress j) /\
  Forall (fun x => 0 <= x /\ x <= 1)%Q (progress j) /\
  (started h = false ->
     frameRequested j = false /\ (saw_ended h = false -> progress j = [])) /\
  (frameRequested j = true -> saw_ended h = false ->
     Forall (fun x => x <= Math_min (last_time h / d) 0.99)%Q (progress j)).

(** The playhead after an event. *)
Definition advance (h : Playhead) (e : Event) : Playhead :=
  match e with
  | PlayFulfilled v => mkPlayhead (currentTime v) false true
  | AnimationFrame v => mkPlayhead (currentTime v) (saw_ended h) (started h)
  | VideoEnded => mkPlayhead (last_time h) true (started h)
  | _ => h
  end.

(** The fields the blob's type depends on. *)
Definition type_view (j : Job) := (mimeType j, settled j).

(** What holds throughout a job recorded as [mime]: a blob the promise has
    resolved with carries the recorder's MIME type. *)
Definition typed (mime : string) (j : Job) : Prop :=
  mimeType j = mime /\
  forall b, settled j = Some (Ok b) -> blob_type b = or_string mime "video/webm".

(** What one call of [processVideo] meets: the hidden video loading or
    failing to, the codecs the browser records, the source duration and the
    events delivered while the returned promise is pending. *)
Record Browser : Type := mkBrowser {
  loadeddata : Result unit;
  isTypeSupported : string -> bool;
  video_duration : Q;
  events : list Event
}.

Inductive Outcome : Type :=
| StillPending
| Rejected (message : string)
| Fulfilled (blob : Blob).

Definition outcome_of (j : Job) : Outcome :=
  match settled j with
  | None => StillPending
  | Some (Ok b) => Fulfilled b
  | Some (Throw e) => Rejected e
  end.

(** [processVideo] up to the [try]: the busy check and the flag. *)
Definition processVideo_enter (p : FallbackVideoProcessor)
  : Result unit * FallbackVideoProcessor :=
  if isProcessing p then (Throw busy_message, p)
  else (Ok tt, mkProcessor (frameImage p) true).

(** The body from the point where the awaited load of the hidden video
    settles: the rest of the [try] block and its [finally], entered with the
    flag set.  The [finally] runs when the recording promise is returned
    (or the load throws), not when that promise settles.  Between
    [processVideo_enter] and this continuation the caller already holds the
    call's promise and the flag is set; [FallbackCalls] lets other calls
    arrive in that window. *)
Definition processVideo_run (p : FallbackVideoProcessor) (onProgress : option Callback)
    (outputFormat : string) (env : Browser)
  : Outcome * FallbackVideoProcessor * list Report :=
  let idle := mkProcessor (frameImage p) false in
  match loadeddata env with
  | Throw e => (Rejected e, idle, [])
  | Ok _ =>
      let j := start (video_duration env) onProgress
                     (select_mimeType (isTypeSupported env)) in
      let j := run idle (events env) j in
      (outcome_of j, idle, reported j)
  end.

(** One call from its entry to the events delivered to its recording, when
    no other call arrives while the load is awaited. *)
Definition processVideo (p : FallbackVideoProcessor) (onProgress : option Callback)
    (outputFormat : string) (env : Browser)
  : Outcome * FallbackVideoProcessor * list Report :=
  match processVideo_enter p with
  | (Throw m, p) => (Rejected m, p, [])
  | (Ok _, p) => processVideo_run p onProgress outputFormat env
  end.

End Fallback.

(** ** Canvas capture with a timeout guard: VideoFrameProcessor *)

Module FrameProcessor.
Import Compositor Canvas.
Local Open Scope string_scope.

Record VideoFrameProcessor : Type := mkProcessor {
  frameImage : option Image;
  isProcessing : bool
}.

Definition new : VideoFrameProcessor := mkProcessor None false.

(** [loadFrame(framePath)]: [this.frameImage = new Image()] is assigned
    before the load settles, so it stays assigned when the load fails. *)
Definition loadFrame (framePath : string) (loads : bool) (p : VideoFrameProcessor)
  : Result unit * VideoFrameProcessor :=
  (if loads then Ok tt else Throw "Gagal load bingkai",
   mkProcessor (Some (mkImage framePath loads)) (isProcessing p)).

(** [processFrame(video, width, height)]: the calls on [this.ctx]. *)
Definition processFrame (p : VideoFrameProcessor) (videoWidth videoHeight : Z)
  : list DrawCall :=
  [ fillRect "#000000" 0 0 targetWidth targetHeight;
    drawVideo (processFrame_rect videoWidth videoHeight) ]
  ++ match frameImage p with
     | Some img => [drawOverlay img 0 0 targetWidth targetHeight]
     | None => []
     end.

Inductive RecorderState : Type := recording | inactive.

Definition select_mimeType (format : string) (isTypeSupported : string -> bool) : string :=
  if String.eqb format "mp4" then
    if isTypeSupported "video/webm;codecs=vp9,opus" then "video/webm;codecs=vp9,opus"
    else if isTypeSupported "video/webm;codecs=h264,opus" then "video/webm;codecs=h264,opus"
    else "video/webm;codecs=vp8,opus"
  else
    if isTypeSupported "video/webm;codecs=vp9,opus" then "video/webm;codecs=vp9,opus"
    else if isTypeSupported "video/webm;codecs=h264,opus" then "video/webm;codecs=h264,opus"
    else "video/webm".

(** The processor together with the closure state of the promise executor
    in [processVideo]. *)
Record Job : Type := mkJob {
  this : VideoFrameProcessor;
  duration : Q;
  onProgress : option Callback;
  mimeType : string;
  loadedListener : bool;            (* the once-only [loadeddata] listener *)
  animationId : bool;               (* assigned, hence truthy *)
  framePending : bool;              (* the requested frame is still due *)
  processingTimeout : option Q;     (* delay in ms of the pending guard timer *)
  startTime : Q;
  lastFrameTime : Q;
  frameCount : nat;
  recorder : RecorderState;
  chunks : list Chunk;
  settled : option (Result Blob);
  reported : list Report;
  canvas : list DrawCall
}.

Definition fps : Q := 30.

(** [const maxProcessingTime = (duration + 10) * 1000]. *)
Definition maxProcessingTime (duration : Q) : Q := (duration + 10) * 1000.

(** The job as the promise executor of [processVideo] leaves it:
    [this.isProcessing] was set before the [try], the recorder has been
    started and the guard timer armed. *)
Definition start (p : VideoFrameProcessor) (duration : Q)
    (onProgress : option Callback) (mimeType : string) : Job :=
  mkJob (mkProcessor (frameImage p) true) duration onProgress mimeType
        true false false
        (Some (maxProcessingTime duration)) 0 0 0 recording [] None [] [].

Definition set_busy (b : bool) (j : Job) : Job :=
  mkJob (mkProcessor (frameImage (this j)) b) (duration j) (onProgress j) (mimeType j)
        (loadedListener j) (animationId j) (framePending j) (processingTimeout j)
        (startTime j) (lastFrameTime j) (frameCount j) (recorder j) (chunks j)
        (settled j) (reported j) (canvas j).

(** [if (animationId) cancelAnimationFrame(animationId)]. *)
Definition cancel_frame (j : Job) : Job :=
  mkJob (this j) (duration j) (onProgress j) (mimeType j)
        (loadedListener j) (animationId j)
        (if animationId j then false else framePending j) (processingTimeout j)
        (startTime j) (lastFrameTime j) (frameCount j) (recorder j) (chunks j)
        (settled j) (reported j) (canvas j).

(** [animationId = requestAnimationFrame(processFrame)]. *)
Definition request_frame (j : Job) : Job :=
  mkJob (this j) (duration j) (onProgress j) (mimeType j)
        (loadedListener j) true true (processingTimeout j)
        (startTime j) (lastFrameTime j) (frameCount j) (recorder j) (chunks j)
        (settled j) (reported j) (canvas j).

Definition frame_taken (j : Job) : Job :=
  mkJob (this j) (duration j) (onProgress j) (mimeType j)
        (loadedListener j) (animationId j) false (processingTimeout j)
        (startTime j) (lastFrameTime j) (frameCount j) (recorder j) (chunks j)
        (settled j) (reported j) (canvas j).

(** [clearTimeout(processingTimeout)], and the timer being consumed when it
    fires. *)
Definition clear_timeout (j : Job) : Job :=
  mkJob (this j) (duration j) (onProgress j) (mimeType j)
        (loadedListener j) (animationId j) (framePending j) None
        (startTime j) (lastFrameTime j) (frameCount j) (recorder j) (chunks j)
        (settled j) (reported j) (canvas j).

Definition settle (r : Result Blob) (j : Job) : Job :=
  match settled j with
  | Some _ => j
  | None =>
      mkJob (this j) (duration j) (onProgress j) (mimeType j)
            (loadedListener j) (animationId j) (framePending j) (processingTimeout j)
            (startTime j) (lastFrameTime j) (frameCount j) (recorder j) (chunks j)
            (Some r) (reported j) (canvas j)
  end.

(** [mediaRecorder.stop()] with its [onstop] handler. *)
Definition recorder_stop (j : Job) : Job :=
  match recorder j with
  | recording =>
      settle (Ok (mkBlob (mimeType j) (chunks j)))
        (set_busy false
          (mkJob (this j) (duration j) (onProgress j) (mimeType j)
                 (loadedListener j) (animationId j) (framePending j)
                 (processingTimeout j) (startTime j) (lastFrameTime j)
                 (frameCount j) inactive (chunks j) (settled j) (reported j)
                 (canvas j)))
  | inactive => j
  end.

Definition ondataavailable (size : Chunk) (j : Job) : Job :=
  if (0 <? size)%N then
    mkJob (this j) (duration j) (onProgress j) (mimeType j)
          (loadedListener j) (animationId j) (framePending j) (processingTimeout j)
          (startTime j) (lastFrameTime j) (frameCount j) (recorder j)
          (chunks j ++ [size]) (settled j) (reported j) (canvas j)
  else j.

(** The throttled seek-and-draw step of the frame loop. *)
Definition draw_step (currentTime : Q) (videoWidth videoHeight : Z) (j : Job) : Job :=
  if Qle_bool (1 / fps) (currentTime - lastFrameTime j) then
    mkJob (this j) (duration j) (onProgress j) (mimeType j)
          (loadedListener j) (animationId j) (framePending j) (processingTimeout j)
          (startTime j) currentTime (S (frameCount j)) (recorder j) (chunks j)
          (settled j) (reported j) (processFrame (this j) videoWidth videoHeight)
  else j.

Definition report (v : Q) (j : Job) : Job :=
  mkJob (this j) (duration j) (onProgress j) (mimeType j)
        (loadedListener j) (animationId j) (framePending j) (processingTimeout j)
        (startTime j) (lastFrameTime j) (frameCount j) (recorder j) (chunks j)
        (settled j) (reported j ++ call_if_set (onProgress j) v) (canvas j).

(** The inner [processFrame] closure, run at wall-clock time [now] (ms). *)
Definition frame_loop (now : Q) (videoWidth videoHeight : Z) (j : Job) : Job :=
  if negb (isProcessing (this j)) then
    recorder_stop (clear_timeout (cancel_frame j))
  else
    let elapsed := (now - startTime j) / 1000 in
    let currentTime := Math_min elapsed (duration j) in
    let j := draw_step currentTime videoWidth videoHeight j in
    let progress := Math_min (currentTime / duration j) 1 in
    let j := report progress j in
    if Qle_bool (duration j) currentTime then
      recorder_stop (clear_timeout (cancel_frame j))
    else request_frame j.

(** The guard timer's callback. *)
Definition on_timeout (j : Job) : Job :=
  recorder_stop (set_busy false (cancel_frame j)).

Inductive Event : Type :=
| LoadedData (now : Q)
| AnimationFrame (now : Q) (videoWidth videoHeight : Z)
| TimeoutFires
| DataAvailable (size : Chunk)
| RecorderError (e : string)
| StopProcessing.

Definition handle (e : Event) (j : Job) : Job :=
  match e with
  | LoadedData now =>
      if loadedListener j then
        request_frame
          (mkJob (this j) (duration j) (onProgress j) (mimeType j)
                 false (animationId j) (framePending j) (processingTimeout j)
                 now (lastFrameTime j) (frameCount j) (recorder j) (chunks j)
                 (settled j) (reported j) (canvas j))
      else j
  | AnimationFrame now w h =>
      if framePending j then frame_loop now w h (frame_taken j) else j
  | TimeoutFires =>
      match processingTimeout j with
      | Some _ => on_timeout (clear_timeout j)
      | None => j
      end
  | DataAvailable size =>
      match recorder j with
      | recording => ondataavailable size j
      | inactive => j
      end
  | RecorderError e =>
      settle (Throw e) (set_busy false (clear_timeout (cancel_frame j)))
  | StopProcessing => set_busy false j
  end.

Definition run (events : list Event) (j : Job) : Job :=
  fold_left (fun j e => handle e j) events j.




End FrameProcessor.

(** ** Fallback Selector: VideoProcessor *)

Module Selector.
Local Open Scope string_scope.

Record VideoProcessor : Type := mkSelector {
  ffmpegProcessor : Encoder.FFmpegVideoProcessor;
  fallbackProcessor : Fallback.FallbackVideoProcessor;
  useFFmpeg : bool;
  preferMP4 : bool
}.

Definition new : VideoProcessor :=
  mkSelector Encoder.new Fallback.new true true.

(** Lines written to the console. *)
Inductive Console : Type :=
| log (parts : list string)
| warn (parts : list string).

(** [initialize()]: awaits the encoder's [initialize]; [load_ok] is how the
    module load ends if this call is the one that has to wait for it. *)
Definition initialize (load_ok : bool) (vp : VideoProcessor) : bool * VideoProcessor :=
  let '(a, fp) := Encoder.initialize (ffmpegProcessor vp) in
  let fp :=
    match Encoder.loadingPromise fp with
    | Some Encoder.Pending => Encoder.load_settles load_ok fp
    | _ => fp
    end in
  let ffmpegReady :=
    match Encoder.awaited_value a fp with
    | Some b => b
    | None => false
    end in
  (true,
   mkSelector fp (fallbackProcessor vp)
              (if ffmpegReady then useFFmpeg vp else false) (preferMP4 vp)).

(** [this.useFFmpeg && this.ffmpegProcessor.isReady()]. *)
Definition encoder_ready (vp : VideoProcessor) : bool :=
  useFFmpeg vp && Encoder.isLoaded (ffmpegProcessor vp).

(** What one call of [processVideo] meets: the engine at the first and at
    the second encoder attempt, and the browser at the fallback. *)
Record World : Type := mkWorld {
  first_attempt : Encoder.Engine;
  second_attempt : Encoder.Engine;
  browser : Fallback.Browser
}.

Definition with_encoder (fp : Encoder.FFmpegVideoProcessor) (vp : VideoProcessor) :=
  mkSelector fp (fallbackProcessor vp) (useFFmpeg vp) (preferMP4 vp).
Definition with_fallback (fb : Fallback.FallbackVideoProcessor) (vp : VideoProcessor) :=
  mkSelector (ffmpegProcessor vp) fb (useFFmpeg vp) (preferMP4 vp).

(** One [try { return await this.ffmpegProcessor.processVideo(...) }
    catch (error) { console.warn(...) }]: [Some] is the returned outcome,
    [None] a caught error. *)
Definition attempt (note : string) (vp : VideoProcessor) (onProgress : option Callback)
    (format : string) (engine : Encoder.Engine)
  : option Fallback.Outcome * VideoProcessor * list Report * list Console :=
  match Encoder.processVideo (ffmpegProcessor vp) onProgress format engine with
  | (Encoder.Fulfilled b, fp, reports) =>
      (Some (Fallback.Fulfilled b), with_encoder fp vp, reports, [])
  | (Encoder.Suspended, fp, reports) =>
      (Some Fallback.StillPending, with_encoder fp vp, reports, [])
  | (Encoder.Rejected m, fp, reports) =>
      (None, with_encoder fp vp, reports, [warn [note; m]])
  end.

Definition mismatch_note (result : Blob) : Console :=
  warn [ "MP4 requested but fallback provided:"; blob_type result;
         "- File will still be saved as .mp4" ].

(** The tail of [processVideo]: "Fallback to MediaRecorder with format
    preference". *)
Definition use_fallback (vp : VideoProcessor) (onProgress : option Callback)
    (outputFormat : string) (env : World)
  : Fallback.Outcome * VideoProcessor * list Report * list Console :=
  match Fallback.processVideo (fallbackProcessor vp) onProgress outputFormat (browser env) with
  | (Fallback.Fulfilled result, fb, reports) =>
      (Fallback.Fulfilled result, with_fallback fb vp, reports,
       log ["Fallback processor result type:"; blob_type result] ::
       (if String.eqb outputFormat "mp4" && negb (Str.includes (blob_type result) "mp4")
        then [mismatch_note result] else []))
  | (other, fb, reports) => (other, with_fallback fb vp, reports, [])
  end.

Definition processVideo (vp : VideoProcessor) (onProgress : option Callback)
    (outputFormat : string) (env : World)
  : Fallback.Outcome * VideoProcessor * list Report * list Console :=
  let first :=
    if String.eqb outputFormat "mp4" && encoder_ready vp then
      attempt "FFmpeg MP4 processing failed, falling back to MediaRecorder WebM:"
              vp onProgress "mp4" (first_attempt env)
    else (None, vp, [], []) in
  match first with
  | (Some out, vp, reports, console) => (out, vp, reports, console)
  | (None, vp, reports1, console1) =>
      let second :=
        if encoder_ready vp then
          attempt "FFmpeg processing failed, falling back to MediaRecorder:"
                  vp onProgress outputFormat (second_attempt env)
        else (None, vp, [], []) in
      match second with
      | (Some out, vp, reports2, console2) =>
          (out, vp, (reports1 ++ reports2)%list, (console1 ++ console2)%list)
      | (None, vp, reports2, console2) =>
          let '(out, vp, reports3, console3) :=
            use_fallback vp onProgress outputFormat env in
          (out, vp, (reports1 ++ reports2 ++ reports3)%list,
           (console1 ++ console2 ++ console3)%list)
      end
  end.

(** The transcode throws: at either attempt of this call the [try] block of
    the encoder ends in a throw, whatever it reported before. *)
Definition transcode_throws (vp : VideoProcessor) (onProgress : option Callback)
    (outputFormat : string) (env : World) : Prop :=
  forall engine fp format,
    engine = first_attempt env \/ engine = second_attempt env ->
    Encoder.frameImage fp = Encoder.frameImage (ffmpegProcessor vp) ->
    format = "mp4" \/ format = outputFormat ->
    exists reports m,
      Encoder.processVideo_try fp onProgress format engine = (reports, Throw m).

End Selector.

(** ** Concrete processors, engines and browser traces

    The inputs at which the statements below are instantiated. *)

Module Samples.
Import Encoder.
Local Open Scope string_scope.

(** A loaded processor with a job under way, as the constructor, one
    [initialize], the load and one accepted [processVideo] leave it. *)
Definition busy_processor : FFmpegVideoProcessor :=
  snd (processVideo_enter (load_settles true (snd (initialize new))) (Some 7%nat)).

Definition failing_engine : Engine :=
  mkEngine (Ok (mkBlob "video/mp4" [1000%N])) (Ok tt) (Ok tt)
           (fun _ => ([1 # 4; 1 # 2], Throw "Conversion failed")) (Ok 0%N).

Definition stalled_browser : Fallback.Browser :=
  Fallback.mkBrowser (Ok tt) (fun _ => true) 5 [].

(** How often the value [v] was reported. *)
Definition times_reported (v : Q) (reports : list Report) : nat :=
  List.length (filter (fun r => Qeq_bool (snd r) v) reports).

(** A five-second 1920x1080 video at the given playback position. *)
Definition playing (t : Q) : Fallback.Video := Fallback.mkVideo t false 1920 1080.
Definition finished : Fallback.Video := Fallback.mkVideo 5 true 1920 1080.

(** The browser during a normal run to the end of the video at 60 frames
    per second: [play()] is fulfilled, frames 1 to 299 are drawn at k/60 s,
    the video fires [ended], and the frame requested before then runs. *)
Definition normal_run : list Fallback.Event :=
  Fallback.PlayFulfilled (playing 0) ::
  map (fun k => Fallback.AnimationFrame (playing (inject_Z (Z.of_nat k) / 60)))
      (seq 1 299)
  ++ [ Fallback.VideoEnded; Fallback.AnimationFrame finished ].

(** The same run with a single frame drawn on the way, at 2.5 s (a
    throttled tab). *)
Definition short_run : list Fallback.Event :=
  [ Fallback.PlayFulfilled (playing 0);
    Fallback.AnimationFrame (playing (5 # 2));
    Fallback.VideoEnded;
    Fallback.AnimationFrame finished ].


Definition decoded_frame : Canvas.Image := Canvas.mkImage "bingkai.png" true.



(** A world in which the encoder throws during [exec] and the fallback
    records the short run, two chunks included, until its stop timer
    fires. *)
Definition encoder_throws_world : Selector.World :=
  Selector.mkWorld failing_engine failing_engine
    (Fallback.mkBrowser (Ok tt) (fun _ => true) 5
       (Fallback.DataAvailable 4096%N :: short_run ++
        [Fallback.DataAvailable 2048%N; Fallback.TimerFires])).

Definition with_encoder_loaded : Selector.VideoProcessor :=
  snd (Selector.initialize true Selector.new).

(** A capture whose frame loop starts and then stalls: the video loads at
    0 ms, two frames run at 16 and 33 ms, two chunks are recorded, and
    nothing else happens until the guard timer is due. *)
Definition stalled_capture : list FrameProcessor.Event :=
  [ FrameProcessor.LoadedData 0;
    FrameProcessor.AnimationFrame 16 1920 1080;
    FrameProcessor.DataAvailable 4096%N;
    FrameProcessor.AnimationFrame 33 1920 1080;
    FrameProcessor.DataAvailable 2048%N ].

End Samples.

(** ** PhotoEditor: placement, zoom and drag of the user image *)

Module Photo.
Import Compositor.
Local Open Scope Q_scope.

Definition CANVAS_WIDTH : Q := 1080.
Definition CANVAS_HEIGHT : Q := 1920.

(** [Math.max(a, b)]. *)
Definition Math_max (a b : Q) : Q := if Qle_bool a b then b else a.

(** The [imagePosition] state. *)
Record ImagePosition : Type := mkPosition {
  pos_x : Q;
  pos_y : Q;
  pos_scale : Q
}.

(** "Calculate initial scale and position to fit image in canvas", the
    computation shared by [loadImages] and [resetImage]. *)
Definition fit_position (userImg_width userImg_height : Z) : ImagePosition :=
  let canvasAspect := CANVAS_WIDTH / CANVAS_HEIGHT in
  let imgAspect := inject_Z userImg_width / inject_Z userImg_height in
  let scale :=
    if Qgtb imgAspect canvasAspect
    then CANVAS_WIDTH / inject_Z userImg_width
    else CANVAS_HEIGHT / inject_Z userImg_height in
  mkPosition (CANVAS_WIDTH / 2) (CANVAS_HEIGHT / 2) scale.

(** [resetImage]: nothing happens without a loaded user image. *)
Definition resetImage (userImg : option (Z * Z)) (prev : ImagePosition) : ImagePosition :=
  match userImg with
  | None => prev
  | Some (w, h) => fit_position w h
  end.

Definition zoomIn (prev : ImagePosition) : ImagePosition :=
  mkPosition (pos_x prev) (pos_y prev) (Math_min (pos_scale prev * 1.1) 3).

Definition zoomOut (prev : ImagePosition) : ImagePosition :=
  mkPosition (pos_x prev) (pos_y prev) (Math_max (pos_scale prev * 0.9) 0.1).

(** The rectangle [drawCanvas] hands to [ctx.drawImage(userImg, ...)]. *)
Definition drawCanvas_rect (userImg_width userImg_height : Z) (p : ImagePosition)
  : DrawRect :=
  let scaledWidth := inject_Z userImg_width * pos_scale p in
  let scaledHeight := inject_Z userImg_height * pos_scale p in
  mkRect (pos_x p - scaledWidth / 2) (pos_y p - scaledHeight / 2)
         scaledWidth scaledHeight.

(** The buttons of the control panel. *)
Inductive Control : Type := ZoomIn | ZoomOut.

Definition press (p : ImagePosition) (c : Control) : ImagePosition :=
  match c with
  | ZoomIn => zoomIn p
  | ZoomOut => zoomOut p
  end.

(** [canvas.getBoundingClientRect()] and a mouse event. *)
Record ClientRect : Type := mkClientRect {
  rect_left : Q;
  rect_top : Q;
  rect_width : Q;
  rect_height : Q
}.

Record MouseEvent : Type := mkMouse {
  clientX : Q;
  clientY : Q
}.

(** The component state the mouse handlers read and write. *)
Record Editor : Type := mkEditor {
  imagePosition : ImagePosition;
  isDragging : bool;
  dragStart : Q * Q
}.

(** The pointer in canvas coordinates. *)
Definition canvas_point (rect : ClientRect) (e : MouseEvent) : Q * Q :=
  let scaleX := CANVAS_WIDTH / rect_width rect in
  let scaleY := CANVAS_HEIGHT / rect_height rect in
  ((clientX e - rect_left rect) * scaleX, (clientY e - rect_top rect) * scaleY).

(** The handlers; [canvas] is [canvasRef.current], absent before mount. *)
Definition handleMouseDown (canvas : option ClientRect) (e : MouseEvent) (s : Editor)
  : Editor :=
  match canvas with
  | None => s
  | Some rect =>
      let '(px, py) := canvas_point rect e in
      mkEditor (imagePosition s) true
               (px - pos_x (imagePosition s), py - pos_y (imagePosition s))
  end.

Definition handleMouseMove (canvas : option ClientRect) (e : MouseEvent) (s : Editor)
  : Editor :=
  if negb (isDragging s) then s
  else
    match canvas with
    | None => s
    | Some rect =>
        let '(px, py) := canvas_point rect e in
        mkEditor (mkPosition (px - fst (dragStart s)) (py - snd (dragStart s))
                             (pos_scale (imagePosition s)))
                 (isDragging s) (dragStart s)
    end.

Definition handleMouseUp (s : Editor) : Editor :=
  mkEditor (imagePosition s) false (dragStart s).

End Photo.

(** ** VideoEditor: time display, seeking, module sources, export *)

Module Editor.
Local Open Scope string_scope.

(** [Math.floor] and the remainder [a % b] of JavaScript, which truncates
    the quotient towards zero. *)
Definition Math_floor (q : Q) : Z := Qfloor q.

Definition truncate (q : Q) : Z := if Qle_bool 0 q then Qfloor q else Qceiling q.

Definition js_rem (a b : Q) : Q := (a - b * inject_Z (truncate (a / b)))%Q.

(** [s.padStart(n, c)] with a one-character pad. *)
Fixpoint pad (n : nat) (c : ascii) (s : string) : string :=
  match n with
  | O => s
  | S n => String c (pad n c s)
  end.

Definition padStart (n : nat) (c : ascii) (s : string) : string :=
  pad (n - String.length s) c s.

Definition formatTime_minutes (time : Q) : Z := Math_floor (time / 60).
Definition formatTime_seconds (time : Q) : Z := Math_floor (js_rem time 60).

(** [formatTime(time)]. *)
Definition formatTime (time : Q) : string :=
  let minutes := formatTime_minutes time in
  let seconds := formatTime_seconds time in
  Str.of_Z minutes ++ ":" ++ padStart 2 "0" (Str.of_Z seconds).





(** The encoder module sources of [loadFFmpeg], in the order tried. *)
Record Source : Type := mkSource {
  source_name : string;
  coreURL : string;
  wasmURL : string
}.

Definition sources : list Source :=
  [ mkSource "Local files" "/ffmpeg/ffmpeg-core.js" "/ffmpeg/ffmpeg-core.wasm";
    mkSource "unpkg ESM"
      "https://unpkg.com/@ffmpeg/core@0.12.6/dist/esm/ffmpeg-core.js"
      "https://unpkg.com/@ffmpeg/core@0.12.6/dist/esm/ffmpeg-core.wasm";
    mkSource "jsDelivr ESM"
      "https://cdn.jsdelivr.net/npm/@ffmpeg/core@0.12.6/dist/esm/ffmpeg-core.js"
      "https://cdn.jsdelivr.net/npm/@ffmpeg/core@0.12.6/dist/esm/ffmpeg-core.wasm" ].

(** The [for (const source of sources)] loop: [loads] tells whether
    [ffmpeg.load] succeeds from a source; the result is the [loaded] flag
    and the sources tried, in order. *)
Fixpoint try_sources (loads : Source -> bool) (todo : list Source)
  : bool * list Source :=
  match todo with
  | [] => (false, [])
  | source :: rest =>
      if loads source then (true, [source])
      else let '(loaded, tried) := try_sources loads rest in
           (loaded, source :: tried)
  end.

(** [loadFFmpeg]: the final [ffmpegLoaded] state and the sources tried. *)
Definition loadFFmpeg (loads : Source -> bool) : bool * list Source :=
  try_sources loads sources.

(** *** Export through the encoder: [processVideoWithFFmpeg] *)

(** What the component shows and holds. *)
Record Export : Type := mkExport {
  isProcessing : bool;
  processingProgress : Z
}.

(** The calls on the encoder's file system and on the page that have
    completed, in order. *)
Inductive Effect : Type :=
| writeFile (name : string)
| exec (args : list string)
| readFile (name : string)
| deleteFile (name : string)
| download (filename : string) (blob : Blob)
| alert (message : string).

(** The outcome of every awaited call of one export. *)
Record Stages : Type := mkStages {
  fetch_video : Result unit;
  write_input : Result unit;
  frameOverlay : option (Result unit);   (* [null], or fetched and written *)
  run_exec : Result unit;
  read_output : Result Chunk;
  delete_input : Result unit;
  delete_frame : Result unit;
  delete_output : Result unit;
  now : Z                                (* [Date.now()] at the download *)
}.

(** The [try] block: the effects made, and the error thrown if any. *)
Definition export_try (env : Stages) : list Effect * option string :=
  match fetch_video env with
  | Throw e => ([], Some e)
  | Ok _ =>
  match write_input env with
  | Throw e => ([], Some e)
  | Ok _ =>
  let after_input := [writeFile "input.mp4"] in
  let overlay :=
    match frameOverlay env with
    | None => (after_input, None)
    | Some (Ok _) => (after_input ++ [writeFile "frame.png"], None)%list
    | Some (Throw e) => (after_input, Some e)
    end in
  match overlay with
  | (effects, Some e) => (effects, Some e)
  | (effects, None) =>
  match run_exec env with
  | Throw e => (effects, Some e)
  | Ok _ =>
  let effects := (effects ++ [exec Command.ffmpegCommand])%list in
  match read_output env with
  | Throw e => (effects, Some e)
  | Ok outputData =>
  let blob := mkBlob "video/mp4" [outputData] in
  let effects :=
    (effects ++ [ readFile "output.mp4";
                  download ("hanum-riduwan-wedding-video-" ++ Str.of_Z (now env) ++ ".mp4")
                           blob ])%list in
  match delete_input env with
  | Throw e => (effects, Some e)
  | Ok _ =>
  let effects := (effects ++ [deleteFile "input.mp4"])%list in
  match delete_frame env with
  | Throw e => (effects, Some e)
  | Ok _ =>
  let effects := (effects ++ [deleteFile "frame.png"])%list in
  match delete_output env with
  | Throw e => (effects, Some e)
  | Ok _ => ((effects ++ [deleteFile "output.mp4"])%list, None)
  end end end end end end end end.

(** [processVideoWithFFmpeg]: the guard, the [try], the [catch] that turns
    an error into an alert, and the [finally].  The call itself never
    throws; it returns the effects and the state it leaves. *)
Definition processVideoWithFFmpeg (ffmpegLoaded : bool) (videoSrc : string)
    (env : Stages) (s : Export) : list Effect * Export :=
  if negb ffmpegLoaded || (videoSrc =? "") then
    ([alert "FFmpeg belum siap atau video tidak tersedia"], s)
  else
    let '(effects, thrown) := export_try env in
    let effects :=
      match thrown with
      | Some message =>
          (effects ++ [alert ("Terjadi kesalahan saat memproses video: " ++ message)])%list
      | None => effects
      end in
    (effects, mkExport false 0).

Definition is_download (e : Effect) : bool :=
  match e with download _ _ => true | _ => false end.
Definition is_delete (e : Effect) : bool :=
  match e with deleteFile _ => true | _ => false end.
Definition is_alert (e : Effect) : bool :=
  match e with alert _ => true | _ => false end.

End Editor.

(** ** VideoProcessor: capability queries and frame loading *)

Module SelectorMore.
Import Selector.
Local Open Scope string_scope.

(** [FFmpegVideoProcessor.isReady()] and [isCurrentlyProcessing()]. *)
Definition isReady (p : Encoder.FFmpegVideoProcessor) : bool := Encoder.isLoaded p.
Definition isCurrentlyProcessing (p : Encoder.FFmpegVideoProcessor) : bool :=
  Encoder.isProcessing p.

(** [supportsMP4()], [getRecommendedFormat()] and [isProcessing()]. *)
Definition supportsMP4 (vp : VideoProcessor) : bool :=
  useFFmpeg vp && isReady (ffmpegProcessor vp).

Definition getRecommendedFormat (vp : VideoProcessor) : string :=
  if supportsMP4 vp then "mp4" else "webm".

Definition isProcessing (vp : VideoProcessor) : bool :=
  isCurrentlyProcessing (ffmpegProcessor vp) || Fallback.isProcessing (fallbackProcessor vp).

(** [loadFrame(frameUrl)]: [Promise.all] over the two processors' loads.
    Both loads run to their end whatever the other does; the call rejects
    when either does (with the error of the one that rejects first, here
    the encoder's if both do). *)
Definition loadFrame (frameUrl : string) (fetched : Result Blob) (image_loads : bool)
    (vp : VideoProcessor) : Result unit * VideoProcessor :=
  let '(r1, fp) := Encoder.loadFrame fetched (ffmpegProcessor vp) in
  let '(r2, fb) := Fallback.loadFrame frameUrl image_loads (fallbackProcessor vp) in
  (match r1, r2 with
   | Ok _, Ok _ => Ok tt
   | Throw e, _ => Throw e
   | Ok _, Throw e => Throw e
   end,
   mkSelector fp fb (useFFmpeg vp) (preferMP4 vp)).

End SelectorMore.

(** ** EnhancedVideoProcessor: progress filter and bitrate settings *)

Module Enhanced.
Local Open Scope Q_scope.

(** The [progress] listener of [processVideoWithFFmpeg]: the closure
    variable [progressReported] and the calls made so far. *)
Definition on_progress (onProgress : option Callback) (st : Q * list Report)
    (progress : Q) : Q * list Report :=
  let '(progressReported, reports) := st in
  let currentProgress := Math_min progress 0.95 in
  if Qgtb currentProgress (progressReported + 0.05) then
    (currentProgress, (reports ++ call_if_set onProgress currentProgress)%list)
  else st.

(** The calls of [onProgress] over one job that runs to its end: the
    engine's events through the listener, then the final update. *)
Definition job_reports (onProgress : option Callback) (engine : list Q) : list Report :=
  (snd (fold_left (on_progress onProgress) engine (0, []))
   ++ call_if_set onProgress 1.0)%list.

(** [EnhancedVideoUtils.calculateOptimalSettings(duration, targetSize)]. *)
Record Settings : Type := mkSettings {
  videoBitrate : Q;
  audioBitrate : Q;
  settings_fps : Z
}.

Definition calculateOptimalSettings (duration targetSize : Q) : Settings :=
  let targetSizeBytes := targetSize * 1024 * 1024 in
  let targetBitrate := (targetSizeBytes * 8) / duration in
  let videoBitrate := targetBitrate * 0.8 in
  let audioBitrate := Math_min (targetBitrate * 0.2) 320000 in
  mkSettings (Photo.Math_max videoBitrate 1000000)
             (Photo.Math_max audioBitrate 128000)
             (if Qgtb videoBitrate 8000000 then 30 else 25).

End Enhanced.

(** ** VideoFrameProcessor.processVideoSimple *)

Module Simple.
Import Compositor Canvas.
Local Open Scope string_scope.

(** The hidden video as a handler finds it. *)
Record Video : Type := mkVideo {
  currentTime : Q;
  ended : bool;
  videoWidth : Z;
  videoHeight : Z
}.

(** "Use the most compatible codec". *)
Definition select_mimeType (isTypeSupported : string -> bool) : string :=
  if isTypeSupported "video/webm;codecs=vp8,opus" then "video/webm;codecs=vp8,opus"
  else if isTypeSupported "video/webm;codecs=h264,opus" then "video/webm;codecs=h264,opus"
  else "video/webm".

(** The processor together with the closure state of the promise executor. *)
Record Job : Type := mkJob {
  this : FrameProcessor.VideoFrameProcessor;
  duration : Q;
  onProgress : option Callback;
  mimeType : string;
  playPending : bool;               (* [hiddenVideo.play()] has not settled *)
  animationId : bool;               (* assigned, hence truthy *)
  framePending : bool;              (* the requested frame is still due *)
  lastProgressUpdate : Q;
  stopTimers : nat;                 (* pending [setTimeout(mediaRecorder.stop)] *)
  recorder : FrameProcessor.RecorderState;
  chunks : list Chunk;
  settled : option (Result Blob);
  reported : list Report;
  canvas : list DrawCall
}.

(** The job as the promise executor leaves it: the flag set before the
    [try], the recorder started, [play()] called. *)
Definition start (p : FrameProcessor.VideoFrameProcessor) (duration : Q)
    (onProgress : option Callback) (mimeType : string) : Job :=
  mkJob (FrameProcessor.mkProcessor (FrameProcessor.frameImage p) true)
        duration onProgress mimeType true false false 0 0
        FrameProcessor.recording [] None [] [].

Definition set_busy (b : bool) (j : Job) : Job :=
  mkJob (FrameProcessor.mkProcessor (FrameProcessor.frameImage (this j)) b)
        (duration j) (onProgress j) (mimeType j) (playPending j) (animationId j)
        (framePending j) (lastProgressUpdate j) (stopTimers j) (recorder j)
        (chunks j) (settled j) (reported j) (canvas j).

Definition play_settled (j : Job) : Job :=
  mkJob (this j) (duration j) (onProgress j) (mimeType j) false (animationId j)
        (framePending j) (lastProgressUpdate j) (stopTimers j) (recorder j)
        (chunks j) (settled j) (reported j) (canvas j).

(** [if (animationId) cancelAnimationFrame(animationId)]. *)
Definition cancel_frame (j : Job) : Job :=
  mkJob (this j) (duration j) (onProgress j) (mimeType j) (playPending j)
        (animationId j) (if animationId j then false else framePending j)
        (lastProgressUpdate j) (stopTimers j) (recorder j)
        (chunks j) (settled j) (reported j) (canvas j).

Definition frame_taken (j : Job) : Job :=
  mkJob (this j) (duration j) (onProgress j) (mimeType j) (playPending j)
        (animationId j) false (lastProgressUpdate j) (stopTimers j) (recorder j)
        (chunks j) (settled j) (reported j) (canvas j).

Definition schedule_stop (j : Job) : Job :=
  mkJob (this j) (duration j) (onProgress j) (mimeType j) (playPending j)
        (animationId j) (framePending j) (lastProgressUpdate j)
        (S (stopTimers j)) (recorder j)
        (chunks j) (settled j) (reported j) (canvas j).

Definition report (v : Q) (j : Job) : Job :=
  mkJob (this j) (duration j) (onProgress j) (mimeType j) (playPending j)
        (animationId j) (framePending j) (lastProgressUpdate j) (stopTimers j)
        (recorder j) (chunks j) (settled j)
        (reported j ++ call_if_set (onProgress j) v) (canvas j).

Definition settle (r : Result Blob) (j : Job) : Job :=
  match settled j with
  | Some _ => j
  | None =>
      mkJob (this j) (duration j) (onProgress j) (mimeType j) (playPending j)
            (animationId j) (framePending j) (lastProgressUpdate j) (stopTimers j)
            (recorder j) (chunks j) (Some r) (reported j) (canvas j)
  end.

(** [mediaRecorder.stop()] with its [onstop] handler. *)
Definition recorder_stop (j : Job) : Job :=
  match recorder j with
  | FrameProcessor.recording =>
      settle (Ok (mkBlob (mimeType j) (chunks j)))
        (set_busy false
          (mkJob (this j) (duration j) (onProgress j) (mimeType j) (playPending j)
                 (animationId j) (framePending j) (lastProgressUpdate j)
                 (stopTimers j) FrameProcessor.inactive (chunks j) (settled j)
                 (reported j) (canvas j)))
  | FrameProcessor.inactive => j
  end.

Definition ondataavailable (size : Chunk) (j : Job) : Job :=
  if (0 <? size)%N then
    mkJob (this j) (duration j) (onProgress j) (mimeType j) (playPending j)
          (animationId j) (framePending j) (lastProgressUpdate j) (stopTimers j)
          (recorder j) (chunks j ++ [size]) (settled j) (reported j) (canvas j)
  else j.

(** The drawing turn of [updateFrame], at wall-clock time [now] (ms). *)
Definition draw_turn (now : Q) (v : Video) (j : Job) : Job :=
  let calls := FrameProcessor.processFrame (this j) (videoWidth v) (videoHeight v) in
  let due :=
    truthy (onProgress j) && Qle_bool 100 (now - lastProgressUpdate j) in
  let progress := Math_min (currentTime v / duration j) 1 in
  mkJob (this j) (duration j) (onProgress j) (mimeType j) (playPending j)
        true true
        (if due then now else lastProgressUpdate j)
        (stopTimers j) (recorder j) (chunks j) (settled j)
        (if due then reported j ++ call_if_set (onProgress j) progress
         else reported j)
        calls.

(** [updateFrame]. *)
Definition updateFrame (now : Q) (v : Video) (j : Job) : Job :=
  if negb (FrameProcessor.isProcessing (this j)) || ended v
     || Qle_bool (duration j) (currentTime v)
  then schedule_stop (report 1 (cancel_frame j))
  else draw_turn now v j.

Inductive Event : Type :=
| PlayFulfilled (now : Q) (v : Video)
| PlayRejected (e : string)
| AnimationFrame (now : Q) (v : Video)
| VideoEnded
| TimerFires
| DataAvailable (size : Chunk)
| RecorderError (e : string)
| StopProcessing.

Definition handle (e : Event) (j : Job) : Job :=
  match e with
  | PlayFulfilled now v =>
      if playPending j then updateFrame now v (report 0 (play_settled j)) else j
  | PlayRejected e =>
      if playPending j then settle (Throw e) (set_busy false (play_settled j)) else j
  | AnimationFrame now v =>
      if framePending j then updateFrame now v (frame_taken j) else j
  | VideoEnded => schedule_stop (cancel_frame j)
  | TimerFires =>
      match stopTimers j with
      | O => j
      | S n =>
          recorder_stop
            (mkJob (this j) (duration j) (onProgress j) (mimeType j) (playPending j)
                   (animationId j) (framePending j) (lastProgressUpdate j) n
                   (recorder j) (chunks j) (settled j) (reported j) (canvas j))
      end
  | DataAvailable size =>
      match recorder j with
      | FrameProcessor.recording => ondataavailable size j
      | FrameProcessor.inactive => j
      end
  | RecorderError e => settle (Throw e) (set_busy false j)
  | StopProcessing => set_busy false j
  end.

Definition run (events : list Event) (j : Job) : Job :=
  fold_left (fun j e => handle e j) events j.

End Simple.

(** ** Sequences of method calls and further invariants *)

Module Calls.
Import Encoder.

(** A method call on an FFmpegVideoProcessor, with what it meets. *)
Inductive Call : Type :=
| CallInitialize
| CallTerminate
| CallLoadFrame (fetched : Result Blob)
| CallProcessVideo (onProgress : option Callback) (outputFormat : string)
                   (engine : Engine).

(** The processor a call leaves behind. *)
Definition apply_call (p : FFmpegVideoProcessor) (c : Call) : FFmpegVideoProcessor :=
  match c with
  | CallInitialize => snd (initialize p)
  | CallTerminate => terminate p
  | CallLoadFrame fetched => snd (loadFrame fetched p)
  | CallProcessVideo cb format engine => snd (fst (processVideo p cb format engine))
  end.

Definition apply_calls (calls : list Call) (p : FFmpegVideoProcessor)
  : FFmpegVideoProcessor :=
  fold_left apply_call calls p.

(** A processor whose one module load has failed. *)
Definition load_failed (p : FFmpegVideoProcessor) : Prop :=
  loadingPromise p = Some (Settled false) /\ isLoaded p = false /\ loads p = 1%nat.

End Calls.

Module Invariants.
Local Open Scope string_scope.

(** FallbackVideoProcessor: a stop timer, an inactive recorder or a
    resolved promise all come after a report of 1. *)
Definition completion_reported (cb : Callback) (j : Fallback.Job) : Prop :=
  Fallback.onProgress j = Some cb /\
  (Fallback.stopTimers j <> O \/ Fallback.recorder j = Fallback.inactive \/
   (exists b, Fallback.settled j = Some (Ok b)) ->
   In (cb, 1%Q) (Fallback.reported j)).

(** The fields of a VideoFrameProcessor job the release of the processor
    depends on, and the ones the count of final reports depends on. *)
Definition release_view (j : FrameProcessor.Job) :=
  (FrameProcessor.mimeType j, FrameProcessor.isProcessing (FrameProcessor.this j),
   FrameProcessor.settled j).

Definition final_view (j : FrameProcessor.Job) :=
  (FrameProcessor.duration j, FrameProcessor.reported j,
   FrameProcessor.loadedListener j, FrameProcessor.framePending j).

(** The calls of a callback with a value equal to 1. *)
Definition finals (reports : list Report) : list Report :=
  filter (fun r => Qeq_bool (snd r) 1) reports.

(** VideoFrameProcessor.processVideo: a settled promise means a cleared
    busy flag, and a resolved one a blob of the job's MIME type. *)
Definition released (mime : string) (j : FrameProcessor.Job) : Prop :=
  FrameProcessor.mimeType j = mime /\
  (FrameProcessor.settled j <> None ->
   FrameProcessor.isProcessing (FrameProcessor.this j) = false) /\
  forall b, FrameProcessor.settled j = Some (Ok b) -> blob_type b = mime.

(** VideoFrameProcessor.processVideo: a report of 1 is the last thing the
    frame loop does. *)
Definition final_ok (d : Q) (view : Q * list Report * bool * bool) : Prop :=
  let '(duration, reports, loadedListener, framePending) := view in
  duration = d /\
  finals (removelast reports) = [] /\
  (loadedListener = true \/ framePending = true -> finals reports = []) /\
  (loadedListener = true -> framePending = false).

Definition final_once (d : Q) (j : FrameProcessor.Job) : Prop :=
  final_ok d (final_view j).

(** processVideoSimple: the fields the reports of a job depend on. *)
Definition once_view (j : Simple.Job) :=
  (Simple.duration j, Simple.playPending j, Simple.animationId j,
   Simple.framePending j, Simple.reported j).

(** processVideoSimple: nothing is reported while [play()] is pending, a
    requested frame has an id, and a report of 1 is the last thing the
    frame loop does. *)
Definition once_ok (d : Q) (view : Q * bool * bool * bool * list Report) : Prop :=
  let '(duration, playPending, animationId, framePending, reports) := view in
  duration = d /\
  (playPending = true -> reports = [] /\ framePending = false) /\
  (framePending = true -> animationId = true /\ finals reports = []) /\
  finals (removelast reports) = [].

Definition once (d : Q) (j : Simple.Job) : Prop := once_ok d (once_view j).

(** processVideoSimple: the fields that stay as they are once the loop
    has come to rest. *)
Definition rest_view (j : Simple.Job) :=
  (Simple.playPending j, Simple.framePending j, Simple.reported j).

(** EnhancedVideoProcessor: two progress values more than 0.05 apart, and
    what holds of the listener's state [progressReported] and of the values
    passed on so far. *)
Definition apart (a b : Q) : Prop := (a + 0.05 < b)%Q.

Definition throttled (st : Q * list Report) : Prop :=
  let '(progressReported, reports) := st in
  let vs := map snd reports in
  StronglySorted apart vs /\
  Forall (fun v => 0.05 < v /\ v <= progressReported)%Q vs /\
  (0 <= progressReported <= 0.95)%Q /\
  (inject_Z (Z.of_nat (List.length vs)) * 0.05 <= progressReported)%Q /\
  (vs <> [] -> inject_Z (Z.of_nat (List.length vs)) * 0.05 < progressReported)%Q.

End Invariants.

(** ** Calls on a FallbackVideoProcessor *)

Module FallbackCalls.
Import Fallback.

(** What happens to one FallbackVideoProcessor, in order.  [processVideo]
    is an async function: an invocation runs to its first await, the load
    of the hidden video, and hands its promise back with
    [this.isProcessing] set; when the awaited load settles the body runs
    on, through its [finally], and the browser delivers its events to the
    recording that was started.  Other invocations can arrive at any
    point. *)
Inductive Step : Type :=
| Invoke (onProgress : option Callback) (outputFormat : string)
| LoadSettles (env : Browser)
| LoadFrame (frameUrl : string) (loads : bool).

(** The processor, the invocation suspended at the await of the load, and
    the promises that have been decided so far with the progress calls of
    their jobs: a refused invocation at once, an admitted one when its load
    has settled (as its job stands after the events delivered to it). *)
Record Session : Type := mkSession {
  this : FallbackVideoProcessor;
  awaiting : option (option Callback * string);
  results : list (Outcome * list Report)
}.

Definition step (s : Session) (x : Step) : Session :=
  match x with
  | Invoke onProgress outputFormat =>
      match processVideo_enter (this s) with
      | (Throw m, p) => mkSession p (awaiting s) (results s ++ [(Rejected m, [])])
      | (Ok _, p) => mkSession p (Some (onProgress, outputFormat)) (results s)
      end
  | LoadSettles env =>
      match awaiting s with
      | None => s
      | Some (onProgress, outputFormat) =>
          let '(out, p, reports) :=
            processVideo_run (this s) onProgress outputFormat env in
          mkSession p None (results s ++ [(out, reports)])
      end
  | LoadFrame frameUrl loads =>
      mkSession (snd (loadFrame frameUrl loads (this s))) (awaiting s) (results s)
  end.

Definition steps (xs : list Step) (s : Session) : Session := fold_left step xs s.

(** A processor nobody has called yet. *)
Definition fresh (p : FallbackVideoProcessor) : Session := mkSession p None [].

(** The flag is set exactly while an invocation awaits its load. *)
Definition flag_follows_load (s : Session) : Prop :=
  isProcessing (this s) = truthy (awaiting s).

(** What holds of the recorded chunks throughout a job, for a property
    [P] of chunks. *)
Definition chunks_satisfy (P : Chunk -> Prop) (j : Job) : Prop :=
  Forall P (chunks j) /\
  forall b, settled j = Some (Ok b) -> Forall P (blob_parts b).

End FallbackCalls.

(** ** Calls on the VideoProcessor selector *)

Module SelectorCalls.
Import Selector.

Inductive Call : Type :=
| CallInitialize (load_ok : bool)
| CallLoadFrame (frameUrl : string) (fetched : Result Blob) (image_loads : bool)
| CallProcessVideo (onProgress : option Callback) (outputFormat : string)
                   (env : World).

Definition apply_call (vp : VideoProcessor) (c : Call) : VideoProcessor :=
  match c with
  | CallInitialize load_ok => snd (initialize load_ok vp)
  | CallLoadFrame frameUrl fetched image_loads =>
      snd (SelectorMore.loadFrame frameUrl fetched image_loads vp)
  | CallProcessVideo cb format env =>
      snd (fst (fst (processVideo vp cb format env)))
  end.

Definition apply_calls (calls : list Call) (vp : VideoProcessor) : VideoProcessor :=
  fold_left apply_call calls vp.

End SelectorCalls.

(** Further sample inputs. *)

Module MoreSamples.
Local Open Scope string_scope.

(** An engine on which every step succeeds; its progress events are not
    in order. *)
Definition working_engine : Encoder.Engine :=
  Encoder.mkEngine (Ok (mkBlob "video/quicktime" [1000%N])) (Ok tt) (Ok tt)
           (fun _ => ([1 # 4; 3 # 4; 1 # 2; 1], Ok tt)) (Ok 2000%N).

(** A browser in which the hidden video loads and the recording is under
    way: playback has started, one frame has been drawn at 2.5 s and one
    chunk has arrived. *)
Definition recording_browser : Fallback.Browser :=
  Fallback.mkBrowser (Ok tt) (fun _ => true) 5
    [ Fallback.PlayFulfilled (Samples.playing 0);
      Fallback.AnimationFrame (Samples.playing (5 # 2));
      Fallback.DataAvailable 4096%N ].

(** A processor whose module has loaded. *)
Definition loaded_processor : Encoder.FFmpegVideoProcessor :=
  Encoder.load_settles true (snd (Encoder.initialize Encoder.new)).

(** A capture that runs to the end of a five-second source: frames at
    2.5 s and at 5 s, and a frame callback that arrives after the loop has
    ended. *)
Definition finished_capture : list FrameProcessor.Event :=
  [ FrameProcessor.LoadedData 0;
    FrameProcessor.AnimationFrame 2500 1920 1080;
    FrameProcessor.DataAvailable 4096%N;
    FrameProcessor.AnimationFrame 5000 1920 1080;
    FrameProcessor.AnimationFrame 5016 1920 1080 ].

(** [processVideoSimple] over a five-second source: [play()] is
    fulfilled, one frame is drawn at 2.5 s. *)
Definition simple_playing (t : Q) : Simple.Video := Simple.mkVideo t false 1920 1080.

Definition simple_frames : list Simple.Event :=
  [ Simple.PlayFulfilled 1000 (simple_playing 0);
    Simple.DataAvailable 4096%N;
    Simple.AnimationFrame 3500 (simple_playing (5 # 2)) ].

(** The frame loop notices the end of the source itself, and a frame
    callback arrives late. *)
Definition simple_loop_end : list Simple.Event :=
  [ Simple.AnimationFrame 6000 (Simple.mkVideo 5 true 1920 1080);
    Simple.AnimationFrame 6016 (Simple.mkVideo 5 true 1920 1080);
    Simple.TimerFires ].

(** An export without frame overlay in which every awaited call succeeds
    except the removal of frame.png, which was never written. *)
Definition export_without_overlay : Editor.Stages :=
  Editor.mkStages (Ok tt) (Ok tt) None (Ok tt) (Ok 2000%N)
                  (Ok tt) (Throw "ErrnoError: FS error") (Ok tt) 1700000000000.

(** Only the second source serves the encoder module. *)
Definition unpkg_only (s : Editor.Source) : bool :=
  String.eqb (Editor.source_name s) "unpkg ESM".

End MoreSamples.

(** * Properties *)

(** ** Numbers *)

Lemma Qgtb_true (a b : Q) : Qgtb a b = true <-> b < a.
Proof.
  unfold Qgtb. rewrite negb_true_iff.
  split; intro H.
  - apply Qnot_le_lt. intro Hle. apply Qle_bool_iff in Hle. congruence.
  - destruct (Qle_bool a b) eqn:E; [|reflexivity].
    apply Qle_bool_iff in E. exfalso. apply (Qlt_not_le _ _ H E).
Qed.

Lemma Qgtb_false (a b : Q) : Qgtb a b = false <-> a <= b.
Proof.
  unfold Qgtb. rewrite negb_false_iff. apply Qle_bool_iff.
Qed.

Lemma inject_Z_pos (n : Z) : (0 < n)%Z -> 0 < inject_Z n.
Proof.
  intro H. change 0 with (inject_Z 0). rewrite <- Zlt_Qlt. exact H.
Qed.

Lemma aspect_pos (w h : Z) :
  (0 < w)%Z -> (0 < h)%Z -> 0 < inject_Z w / inject_Z h.
Proof.
  intros Hw Hh. apply Qlt_shift_div_l.
  - now apply inject_Z_pos.
  - rewrite Qmult_0_l. now apply inject_Z_pos.
Qed.

Lemma Qhalf (x : Q) : x / 2 == x * (1 # 2).
Proof. reflexivity. Qed.

Lemma target_aspect : 1080 / 1920 == 9 # 16.
Proof. reflexivity. Qed.

Lemma or_default_pos (n d : Z) : (0 < n)%Z -> or_default n d = n.
Proof.
  intro H. unfold or_default. destruct (Z.eqb_spec n 0); [lia | reflexivity].
Qed.

(** ** Compositor geometry *)

Module CompositorFacts.
Import Compositor.

Lemma fallback_rect_fill (w h : Z) :
  (0 < w)%Z -> (0 < h)%Z -> fallback_rect w h = spec_crop_to_fill w h.
Proof.
  intros Hw Hh. unfold fallback_rect, spec_crop_to_fill.
  rewrite !or_default_pos by assumption.
  cbv zeta. destruct (Qgtb _ _); reflexivity.
Qed.

Lemma processFrame_rect_fill (w h : Z) :
  processFrame_rect w h = spec_crop_to_fill w h.
Proof.
  unfold processFrame_rect, spec_crop_to_fill, targetWidth, targetHeight.
  cbv zeta. destruct (Qgtb _ _); reflexivity.
Qed.

Lemma drawFrame_rect_fit (w h : Z) :
  drawFrame_rect w h = spec_fit_inside w h.
Proof.
  unfold drawFrame_rect, spec_fit_inside.
  cbv zeta. destruct (Qgtb _ _); reflexivity.
Qed.

(** The crop-to-fill rectangle covers the target and keeps the aspect. *)
Lemma fill_covers (w h : Z) :
  (0 < w)%Z -> (0 < h)%Z -> covers_target (spec_crop_to_fill w h).
Proof.
  intros Hw Hh. pose proof (aspect_pos w h Hw Hh) as Ha.
  unfold spec_crop_to_fill. cbv zeta.
  set (a := inject_Z w / inject_Z h) in *.
  destruct (Qgtb a (1080 / 1920)) eqn:E.
  - apply Qgtb_true in E. rewrite target_aspect in E.
    unfold covers_target, spec_fit_height; simpl.
    rewrite !Qhalf. repeat split; lra.
  - apply Qgtb_false in E. rewrite target_aspect in E.
    assert (E' : 1920 <= 1080 / a).
    { apply Qle_shift_div_l; [exact Ha|]. lra. }
    unfold covers_target, spec_fit_width; simpl.
    set (d := 1080 / a) in *. rewrite !Qhalf. repeat split; lra.
Qed.

Lemma fill_keeps_aspect (w h : Z) :
  (0 < w)%Z -> (0 < h)%Z -> keeps_aspect (spec_crop_to_fill w h) w h.
Proof.
  intros Hw Hh. pose proof (inject_Z_pos w Hw) as Hw'.
  pose proof (inject_Z_pos h Hh) as Hh'.
  unfold keeps_aspect, spec_crop_to_fill. cbv zeta.
  destruct (Qgtb _ _); unfold spec_fit_height, spec_fit_width; simpl;
    field; repeat split; lra.
Qed.

Lemma fit_keeps_aspect (w h : Z) :
  (0 < w)%Z -> (0 < h)%Z -> keeps_aspect (spec_fit_inside w h) w h.
Proof.
  intros Hw Hh. pose proof (inject_Z_pos w Hw) as Hw'.
  pose proof (inject_Z_pos h Hh) as Hh'.
  unfold keeps_aspect, spec_fit_inside. cbv zeta.
  destruct (Qgtb _ _); unfold spec_fit_height, spec_fit_width; simpl;
    field; repeat split; lra.
Qed.

Lemma fit_inside (w h : Z) :
  (0 < w)%Z -> (0 < h)%Z -> inside_target (spec_fit_inside w h).
Proof.
  intros Hw Hh. pose proof (aspect_pos w h Hw Hh) as Ha.
  unfold spec_fit_inside. cbv zeta.
  set (a := inject_Z w / inject_Z h) in *.
  destruct (Qgtb a (1080 / 1920)) eqn:E.
  - apply Qgtb_true in E. rewrite target_aspect in E.
    assert (E' : 1080 / a <= 1920).
    { apply Qle_shift_div_r; [exact Ha|]. lra. }
    assert (E0 : 0 <= 1080 / a).
    { apply Qle_shift_div_l; [exact Ha|]. lra. }
    unfold inside_target, spec_fit_width; simpl.
    set (d := 1080 / a) in *. rewrite !Qhalf. repeat split; lra.
  - apply Qgtb_false in E. rewrite target_aspect in E.
    unfold inside_target, spec_fit_height; simpl.
    rewrite !Qhalf. repeat split; lra.
Qed.

(** C1 (counterexample).  On a 1920x960 source, wider than the canvas,
    VideoEditor.drawFrame draws 1080x540 at (0, 690), where the crop-to-fill
    transform of the specification is 3840x1920 at (-1380, 0). *)
Lemma drawFrame_is_not_crop_to_fill :
  rect_eq (drawFrame_rect 1920 960) (mkRect 0 690 1080 540) /\
  rect_eq (spec_crop_to_fill 1920 960) (mkRect (-1380) 0 3840 1920) /\
  ~ rect_eq (drawFrame_rect 1920 960) (spec_crop_to_fill 1920 960).
Proof.
  split; [|split].
  - repeat split.
  - repeat split.
  - intros (_ & _ & H & _). vm_compute in H. discriminate H.
Qed.

(** C1 (amended).  For every source with positive width and height, the
    frame loop of FallbackVideoProcessor and VideoFrameProcessor.processFrame
    compute the crop-to-fill transform exactly as specified for the
    1080x1920 target; VideoEditor.drawFrame applies the same two formula
    sets with the branches exchanged, fitting the source inside the canvas. *)
Theorem compositor_transform (w h : Z) :
  (0 < w)%Z -> (0 < h)%Z ->
  fallback_rect w h = spec_crop_to_fill w h /\
  processFrame_rect w h = spec_crop_to_fill w h /\
  drawFrame_rect w h = spec_fit_inside w h.
Proof.
  intros Hw Hh. split; [|split].
  - now apply fallback_rect_fill.
  - apply processFrame_rect_fill.
  - apply drawFrame_rect_fit.
Qed.

Lemma compositor_transform_witness :
  fallback_rect 1920 1080 = spec_crop_to_fill 1920 1080 /\
  processFrame_rect 1920 1080 = spec_crop_to_fill 1920 1080 /\
  drawFrame_rect 1920 1080 = spec_fit_inside 1920 1080.
Proof. apply (compositor_transform 1920 1080); reflexivity. Defined.

(** C2 (counterexample).  The rectangle VideoEditor.drawFrame computes for a
    1920x960 source starts 690 pixels below the top edge: the target is not
    covered. *)
Lemma drawFrame_leaves_target_uncovered :
  ~ covers_target (drawFrame_rect 1920 960).
Proof.
  intros (_ & H & _). vm_compute in H. apply H. reflexivity.
Qed.

(** C2 (amended).  For every source with positive width and height, the
    rectangles computed by the frame loop of FallbackVideoProcessor and by
    VideoFrameProcessor.processFrame cover the 1080x1920 target and keep the
    source aspect ratio; the rectangle of VideoEditor.drawFrame keeps the
    source aspect ratio as well, but lies inside the target instead of
    covering it. *)
Theorem compositor_cover_and_aspect (w h : Z) :
  (0 < w)%Z -> (0 < h)%Z ->
  (covers_target (fallback_rect w h) /\ keeps_aspect (fallback_rect w h) w h) /\
  (covers_target (processFrame_rect w h) /\ keeps_aspect (processFrame_rect w h) w h) /\
  (inside_target (drawFrame_rect w h) /\ keeps_aspect (drawFrame_rect w h) w h).
Proof.
  intros Hw Hh.
  rewrite (fallback_rect_fill w h Hw Hh), (processFrame_rect_fill w h),
    (drawFrame_rect_fit w h).
  repeat split;
    first [ now apply fill_covers | now apply fill_keeps_aspect
          | now apply fit_inside | now apply fit_keeps_aspect ].
Qed.

Lemma compositor_cover_and_aspect_witness :
  (covers_target (fallback_rect 1920 1080) /\
   keeps_aspect (fallback_rect 1920 1080) 1920 1080) /\
  (covers_target (processFrame_rect 1920 1080) /\
   keeps_aspect (processFrame_rect 1920 1080) 1920 1080) /\
  (inside_target (drawFrame_rect 1920 1080) /\
   keeps_aspect (drawFrame_rect 1920 1080) 1920 1080).
Proof. apply (compositor_cover_and_aspect 1920 1080); reflexivity. Defined.

End CompositorFacts.

(** ** Encoder command graphs *)

Lemma div_le_iff (a b c : Q) : 0 < c -> (a / c <= b <-> a <= b * c).
Proof.
  intro Hc. split; intro H.
  - apply (Qmult_le_compat_r _ _ c) in H; [|lra].
    rewrite (Qmult_comm (a / c)), Qmult_div_r in H by lra. exact H.
  - apply Qle_shift_div_r; assumption.
Qed.

Lemma le_div_iff (a b c : Q) : 0 < c -> (a <= b / c <-> a * c <= b).
Proof.
  intro Hc. split; intro H.
  - apply (Qmult_le_compat_r _ _ c) in H; [|lra].
    rewrite (Qmult_comm (b / c)), Qmult_div_r in H by lra. exact H.
  - apply Qle_shift_div_l; assumption.
Qed.

(** A source no wider than 9:16 is the one whose height factor is the
    smaller of the two scale factors. *)
Lemma narrow_iff (w h : Q) : 0 < w -> 0 < h ->
  (w / h <= 9 # 16 <-> 1920 / h <= 1080 / w).
Proof.
  intros Hw Hh. rewrite !div_le_iff by assumption.
  assert (E : 1080 / w * h == 1080 * h / w) by (field; lra).
  rewrite E, le_div_iff by assumption. split; intro; lra.
Qed.

Module CommandFacts.
Import Compositor Command.

Lemma Qmax_increase (w h : Q) : 0 < w -> 0 < h ->
  Qmax (1080 / w) (1920 / h) ==
  if Qgtb (w / h) (1080 / 1920) then 1920 / h else 1080 / w.
Proof.
  intros Hw Hh. unfold Qmax.
  destruct (Qgtb _ _) eqn:E; destruct (Qle_bool _ _) eqn:F; try reflexivity.
  - apply Qgtb_true in E. rewrite target_aspect in E.
    assert (N : ~ 1080 / w <= 1920 / h).
    { intro N. apply Qle_bool_iff in N. congruence. }
    exfalso. apply N, Qlt_le_weak, Qnot_le_lt. intro G.
    apply narrow_iff in G; try assumption. lra.
  - apply Qgtb_false in E. rewrite target_aspect in E.
    apply Qle_bool_iff in F. apply narrow_iff in E; try assumption.
    now apply Qle_antisym.
Qed.

Lemma Qmin_decrease (w h : Q) : 0 < w -> 0 < h ->
  Math_min (1080 / w) (1920 / h) ==
  if Qgtb (w / h) (1080 / 1920) then 1080 / w else 1920 / h.
Proof.
  intros Hw Hh. unfold Math_min.
  destruct (Qgtb _ _) eqn:E; destruct (Qle_bool _ _) eqn:F; try reflexivity.
  - apply Qgtb_true in E. rewrite target_aspect in E.
    assert (N : ~ 1080 / w <= 1920 / h).
    { intro N. apply Qle_bool_iff in N. congruence. }
    exfalso. apply N, Qlt_le_weak, Qnot_le_lt. intro G.
    apply narrow_iff in G; try assumption. lra.
  - apply Qgtb_false in E. rewrite target_aspect in E.
    apply Qle_bool_iff in F. apply narrow_iff in E; try assumption.
    now apply Qle_antisym.
Qed.

Ltac unfold_placement :=
  unfold chain_placement, adapter_source_chain, adapter_plain_chain,
    editor_source_chain, source_placement, spec_crop_to_fill, spec_fit_inside;
  cbn [chain_filters fold_left apply_filter zoom shift position_offset picture
       frame_w frame_h offsetX offsetY drawWidth drawHeight];
  change (inject_Z 1080) with 1080; change (inject_Z 1920) with 1920.

(** Scale-to-cover followed by the centred crop places the source exactly
    where the compositor's crop-to-fill rectangle is. *)
Lemma scale_crop_is_fill (c : Chain) (w h : Z) :
  chain_filters c = [scale 1080 1920 (Some increase); crop 1080 1920] ->
  (0 < w)%Z -> (0 < h)%Z ->
  rect_eq (picture (chain_placement c w h)) (spec_crop_to_fill w h) /\
  frame_w (chain_placement c w h) == 1080 /\
  frame_h (chain_placement c w h) == 1920.
Proof.
  intros Hc Hw Hh.
  pose proof (inject_Z_pos w Hw) as Hw'. pose proof (inject_Z_pos h Hh) as Hh'.
  unfold chain_placement. rewrite Hc. unfold_placement.
  set (W := inject_Z w) in *. set (H := inject_Z h) in *.
  pose proof (Qmax_increase W H Hw' Hh') as K.
  split; [|split; reflexivity]. unfold rect_eq.
  destruct (Qgtb (W / H) (1080 / 1920));
    cbn [spec_fit_height spec_fit_width offsetX offsetY drawWidth drawHeight];
    rewrite !K; repeat split; field; lra.
Qed.

(** Scale-to-fit followed by centred padding places the source inside the
    canvas. *)
Lemma scale_pad_is_fit (w h : Z) :
  (0 < w)%Z -> (0 < h)%Z ->
  rect_eq (picture (chain_placement editor_source_chain w h)) (spec_fit_inside w h).
Proof.
  intros Hw Hh.
  pose proof (inject_Z_pos w Hw) as Hw'. pose proof (inject_Z_pos h Hh) as Hh'.
  unfold_placement.
  set (W := inject_Z w) in *. set (H := inject_Z h) in *.
  pose proof (Qmin_decrease W H Hw' Hh') as K.
  unfold rect_eq.
  destruct (Qgtb (W / H) (1080 / 1920));
    cbn [spec_fit_height spec_fit_width offsetX offsetY drawWidth drawHeight];
    rewrite !K; repeat split; field; lra.
Qed.

(** C6 (counterexample).  The command of VideoEditor.processVideoWithFFmpeg
    carries a graph that scales to fit and pads: its filter string has a
    [pad=] and no [crop=], and a 1920x960 source lands as 1080x540 at
    (0, 690), not on the crop-to-fill rectangle. *)
Lemma editor_command_pads :
  option_value "-filter_complex" ffmpegCommand = Some (print_graph ";" editor_graph) /\
  uses_pad editor_graph = true /\
  Str.includes editor_filter "pad=" = true /\
  Str.includes editor_filter "crop=" = false /\
  rect_eq (picture (chain_placement editor_source_chain 1920 960))
          (mkRect 0 690 1080 540) /\
  ~ rect_eq (picture (chain_placement editor_source_chain 1920 960))
            (spec_crop_to_fill 1920 960).
Proof.
  repeat split; try reflexivity.
  intros (_ & H & _). vm_compute in H. discriminate H.
Qed.

(** C6 (amended).  The command built by
    FFmpegVideoProcessor._buildFFmpegCommand carries the compositor's
    geometry: its graph scales the source to cover 1080x1920 and crops it at
    the centre, without padding, so that the source lands on the
    crop-to-fill rectangle; with a frame image loaded the frame is scaled to
    1080x1920 and overlaid at (0,0) and the original audio is mapped when
    present ([-map 0:a?]); without one the same scale-and-crop chain is
    passed as [-vf] and nothing is overlaid.  The VideoEditor command
    instead scales to fit and pads with white, placing the source on the
    fit-inside rectangle, before it overlays the frame at (0,0) and maps the
    audio. *)
Theorem adapter_graph_matches_compositor (format : string) (w h : Z) :
  (0 < w)%Z -> (0 < h)%Z ->
  let withFrame :=
    _buildFFmpegCommand true "input.mp4" "frame.png" ("output." ++ format) format in
  let withoutFrame :=
    _buildFFmpegCommand false "input.mp4" "frame.png" ("output." ++ format) format in
  (option_value "-filter_complex" withFrame = Some (print_graph "," adapter_graph) /\
   uses_pad adapter_graph = false /\
   rect_eq (picture (chain_placement adapter_source_chain w h)) (spec_crop_to_fill w h) /\
   chain_filters adapter_frame_chain = [scale 1080 1920 None] /\
   chain_filters adapter_overlay_chain = [overlay 0 0 (Some "auto"%string)] /\
   has_option "-map" "0:a?" withFrame = true) /\
  (option_value "-vf" withoutFrame = Some (print_chain adapter_plain_chain) /\
   option_value "-filter_complex" withoutFrame = None /\
   existsb is_pad (chain_filters adapter_plain_chain) = false /\
   rect_eq (picture (chain_placement adapter_plain_chain w h)) (spec_crop_to_fill w h)) /\
  (option_value "-filter_complex" ffmpegCommand = Some (print_graph ";" editor_graph) /\
   uses_pad editor_graph = true /\
   rect_eq (picture (chain_placement editor_source_chain w h)) (spec_fit_inside w h) /\
   chain_filters editor_overlay_chain = [overlay 0 0 None] /\
   has_option "-map" "0:a?" ffmpegCommand = true).
Proof.
  intros Hw Hh withFrame withoutFrame.
  subst withFrame withoutFrame. unfold _buildFFmpegCommand.
  pose proof (scale_crop_is_fill adapter_source_chain w h eq_refl Hw Hh) as (F1 & _).
  pose proof (scale_crop_is_fill adapter_plain_chain w h eq_refl Hw Hh) as (F2 & _).
  pose proof (scale_pad_is_fit w h Hw Hh) as F3.
  destruct (String.eqb format "mp4");
    (split; [|split]);
    repeat match goal with
           | |- _ /\ _ => split
           | |- rect_eq _ _ => assumption
           | |- _ = _ => reflexivity
           end.
Qed.

Lemma adapter_graph_matches_compositor_witness :
  option_value "-filter_complex"
    (_buildFFmpegCommand true "input.mp4" "frame.png" "output.mp4" "mp4")
  = Some (print_graph "," adapter_graph) /\
  rect_eq (picture (chain_placement adapter_source_chain 1920 1080))
          (spec_crop_to_fill 1920 1080).
Proof.
  pose proof (adapter_graph_matches_compositor "mp4" 1920 1080) as H.
  destruct H as ((H1 & _ & H3 & _) & _); [reflexivity | reflexivity |].
  split; [exact H1 | exact H3].
Defined.

End CommandFacts.

(** ** The encoder adapter's flags *)

Module EncoderFacts.
Import Encoder Samples.
Local Open Scope string_scope.

Lemma initialize_cases (p : FFmpegVideoProcessor) :
  (isLoaded p = true /\ initialize p = (Now true, p)) \/
  (isLoaded p = false /\ (exists pr, loadingPromise p = Some pr) /\
     initialize p = (AwaitLoading, p)) \/
  (isLoaded p = false /\ loadingPromise p = None /\
     initialize p = (AwaitLoading, start_load p)).
Proof.
  unfold initialize. destruct (isLoaded p); [left; auto | right].
  destruct (loadingPromise p) as [pr|]; [left | right]; eauto.
Qed.

Lemma invariant_initialize (p : FFmpegVideoProcessor) :
  invariant p -> invariant (snd (initialize p)).
Proof.
  intros (H1 & H2 & H3).
  destruct (initialize_cases p) as [(_ & E) | [(_ & _ & E) | (L & N & E)]];
    rewrite E; simpl; [repeat split; assumption .. |].
  unfold invariant; simpl. rewrite N in *.
  repeat split.
  - intro A. rewrite A in L. discriminate.
  - intro A. apply H2 in A. discriminate.
  - rewrite H3. reflexivity.
Qed.

(** An [initialize] that yields [true] was answered by a promise settled
    with [true]. *)
Lemma awaited_true (p : FFmpegVideoProcessor) :
  invariant p ->
  awaited_value (fst (initialize p)) (snd (initialize p)) = Some true ->
  loadingPromise (snd (initialize p)) = Some (Settled true).
Proof.
  intros (H1 & _ & _).
  destruct (initialize_cases p) as [(L & E) | [(_ & _ & E) | (_ & _ & E)]];
    rewrite E; simpl.
  - intros _. now apply H1.
  - destruct (loadingPromise p) as [[|b]|]; congruence.
  - discriminate.
Qed.

Lemma invariant_enter (cb : option Callback) (p : FFmpegVideoProcessor) :
  invariant p -> invariant (snd (processVideo_enter p cb)).
Proof.
  intro I. pose proof (awaited_true p I) as T.
  apply invariant_initialize in I.
  unfold processVideo_enter. destruct (initialize p) as [a q]. simpl in I, T.
  destruct (awaited_value a q) as [[|]|] eqn:V; simpl; try assumption.
  destruct (isProcessing q) eqn:B; simpl; [assumption|].
  destruct I as (H1 & H2 & H3). unfold invariant; simpl.
  repeat split; auto.
Qed.

Lemma reachable_invariant (p : FFmpegVideoProcessor) :
  reachable p -> invariant p.
Proof.
  induction 1 as [ | p _ IH | ok p _ IH P | fetched p _ IH | p _ IH
                 | cb p _ IH | p _ IH B ].
  - repeat split; simpl; discriminate.
  - now apply invariant_initialize.
  - destruct IH as (H1 & H2 & H3). unfold invariant; simpl.
    rewrite P in *. repeat split.
    + now intros ->.
    + intro A. apply H2 in A. discriminate.
    + exact H3.
  - destruct fetched; simpl; [|assumption].
    destruct IH as (H1 & H2 & H3). repeat split; assumption.
  - unfold terminate. destruct (isLoaded p) eqn:L; [|assumption].
    destruct IH as (H1 & H2 & H3). unfold invariant; simpl.
    repeat split; auto; discriminate.
  - now apply invariant_enter.
  - destruct IH as (H1 & H2 & H3). unfold invariant; simpl.
    repeat split; auto; discriminate.
Qed.

(** With the busy flag set, [initialize] answers [true] and changes
    nothing. *)
Lemma busy_initialize (p : FFmpegVideoProcessor) :
  invariant p -> isProcessing p = true ->
  snd (initialize p) = p /\
  awaited_value (fst (initialize p)) p = Some true.
Proof.
  intros (H1 & H2 & _) B. specialize (H2 B).
  unfold initialize. destruct (isLoaded p); simpl; [auto|].
  rewrite H2. simpl. rewrite H2. auto.
Qed.

(** C8.  Encoder initialisation is memoised.  In every reachable state the
    module load has been entered at most once; and once a loading promise
    exists, a call of [initialize] leaves the processor as it is (no second
    load), and what it yields is the value of that one promise: at once if
    the promise has settled, and otherwise by awaiting it, whatever the
    load turns out to be. *)
Theorem initialize_memoized (p : FFmpegVideoProcessor) (pr : Promise) :
  reachable p ->
  loadingPromise p = Some pr ->
  snd (initialize p) = p /\
  loads (snd (initialize p)) = 1%nat /\
  match pr with
  | Settled b => awaited_value (fst (initialize p)) p = Some b
  | Pending =>
      fst (initialize p) = AwaitLoading /\
      forall b, awaited_value AwaitLoading (load_settles b p) = Some b
  end.
Proof.
  intros R P. apply reachable_invariant in R. destruct R as (H1 & H2 & H3).
  rewrite P in H3.
  assert (E : snd (initialize p) = p).
  { unfold initialize. destruct (isLoaded p); [reflexivity|]. now rewrite P. }
  rewrite E. split; [reflexivity|]. split; [exact H3|].
  unfold initialize. destruct (isLoaded p) eqn:L.
  - specialize (H1 eq_refl). rewrite P in H1. injection H1 as ->. reflexivity.
  - rewrite P. simpl. destruct pr as [|b].
    + split; [reflexivity|]. reflexivity.
    + now rewrite P.
Qed.

Lemma initialize_memoized_witness :
  let p := snd (initialize new) in
  snd (initialize p) = p /\
  loads (snd (initialize p)) = 1%nat /\
  fst (initialize p) = AwaitLoading /\
  forall b, awaited_value AwaitLoading (load_settles b p) = Some b.
Proof.
  apply (initialize_memoized (snd (initialize new)) Pending).
  - apply reach_initialize, reach_new.
  - reflexivity.
Defined.

(** The module load is entered at most once over the life of a processor. *)
Lemma loads_at_most_once (p : FFmpegVideoProcessor) :
  reachable p -> (loads p <= 1)%nat.
Proof.
  intro R. apply reachable_invariant in R. destruct R as (_ & _ & H3).
  rewrite H3. destruct (loadingPromise p); lia.
Qed.

(** The busy check.  A call of [processVideo] made while the processor's
    busy flag is set is refused with the busy error, for the encoder
    adapter and for the MediaRecorder fallback alike; the processor is
    exactly as it was (nothing is queued, and the running job keeps its
    progress callback), and the refused call reports no progress.  The
    encoder adapter holds its flag for the whole job; the fallback holds
    it only while the hidden video loads. *)
Theorem busy_call_is_refused
    (p : FFmpegVideoProcessor) (fb : Fallback.FallbackVideoProcessor)
    (onProgress : option Callback) (outputFormat : string)
    (engine : Engine) (browser : Fallback.Browser) :
  reachable p -> isProcessing p = true -> Fallback.isProcessing fb = true ->
  processVideo p onProgress outputFormat engine = (Rejected busy_message, p, []) /\
  Fallback.processVideo fb onProgress outputFormat browser
    = (Fallback.Rejected Fallback.busy_message, fb, []).
Proof.
  intros R B F. split.
  - apply reachable_invariant in R.
    destruct (busy_initialize p R B) as (E & V).
    unfold processVideo, processVideo_enter.
    destruct (initialize p) as [a q]. simpl in E, V. subst q.
    rewrite V, B. reflexivity.
  - unfold Fallback.processVideo, Fallback.processVideo_enter.
    rewrite F. reflexivity.
Qed.

Lemma busy_call_is_refused_witness :
  processVideo busy_processor (Some 8%nat) "mp4" failing_engine
    = (Rejected busy_message, busy_processor, []) /\
  Fallback.processVideo (Fallback.mkProcessor None true) (Some 8%nat) "mp4" stalled_browser
    = (Fallback.Rejected Fallback.busy_message, Fallback.mkProcessor None true, []).
Proof.
  apply (busy_call_is_refused busy_processor (Fallback.mkProcessor None true)).
  - apply (reach_enter (Some 7%nat)).
    apply (reach_load_settles true); [|reflexivity].
    apply reach_initialize, reach_new.
  - reflexivity.
  - reflexivity.
Defined.

(** C10.  When [processVideo] has passed the busy check and then throws, at
    whatever stage, the processor is left with [isProcessing] false and
    [currentProgressCallback] cleared, and the next call is not refused as
    busy. *)
Theorem failed_job_releases_processor
    (p p' : FFmpegVideoProcessor) (onProgress : option Callback)
    (outputFormat m : string) (engine : Engine) (reports : list Report) :
  fst (processVideo_enter p onProgress) = Entered ->
  processVideo p onProgress outputFormat engine = (Rejected m, p', reports) ->
  isProcessing p' = false /\
  currentProgressCallback p' = None /\
  forall cb, fst (processVideo_enter p' cb) <> Refused busy_message.
Proof.
  unfold processVideo. destruct (processVideo_enter p onProgress) as [e q].
  simpl. intros -> H.
  destruct (processVideo_try q onProgress outputFormat engine) as [w r].
  injection H as _ <- _.
  repeat split.
  intros cb. unfold processVideo_enter.
  destruct (initialize (processVideo_finally q)) as [a q'] eqn:E.
  assert (B : isProcessing q' = false).
  { destruct (initialize_cases (processVideo_finally q))
      as [(_ & E') | [(_ & _ & E') | (_ & _ & E')]];
      rewrite E' in E; injection E as <- <-; reflexivity. }
  destruct (awaited_value a q') as [[|]|]; simpl; try discriminate.
  rewrite B. discriminate.
Qed.

Lemma failed_job_releases_processor_witness :
  let idle := load_settles true (snd (initialize new)) in
  let p' := snd (fst (processVideo idle (Some 7%nat) "mp4" failing_engine)) in
  isProcessing p' = false /\
  currentProgressCallback p' = None /\
  forall cb, fst (processVideo_enter p' cb) <> Refused busy_message.
Proof.
  apply (failed_job_releases_processor
           (load_settles true (snd (initialize new))) _ (Some 7%nat)
           "mp4" "Conversion failed" failing_engine
           [(7%nat, 1 # 4); (7%nat, 1 # 2)]).
  - reflexivity.
  - reflexivity.
Defined.

(** A job that runs to its end forwards the engine's progress values as they
    come and then reports 1. *)
Lemma fulfilled_job_reports (p : FFmpegVideoProcessor) (cb : Callback)
    (outputFormat : string) (engine : Engine) (blob : Blob)
    (p' : FFmpegVideoProcessor) (reports : list Report) :
  fst (processVideo_enter p (Some cb)) = Entered ->
  processVideo p (Some cb) outputFormat engine = (Fulfilled blob, p', reports) ->
  values reports =
    (fst (exec engine
            (Command._buildFFmpegCommand (truthy (frameImage p)) "input.mp4"
               "frame.png" ("output." ++ outputFormat) outputFormat)) ++ [1])%list.
Proof.
  unfold processVideo, processVideo_enter.
  destruct (initialize p) as [a q] eqn:I.
  assert (F : frameImage q = frameImage p).
  { destruct (initialize_cases p) as [(_ & E') | [(_ & _ & E') | (_ & _ & E')]];
      rewrite E' in I; injection I as <- <-; reflexivity. }
  destruct (awaited_value a q) as [[|]|]; simpl; try discriminate.
  destruct (isProcessing q); simpl; try discriminate.
  intros _. unfold processVideo_try, Async.bind, Async.await, Async.ret,
    Async.tell, run_exec. simpl. rewrite F.
  destruct (extractVideoBlob engine); [|discriminate].
  destruct (writeInput engine); [|discriminate].
  destruct (truthy (frameImage p)); simpl.
  - destruct (writeFrame engine); [|discriminate]. simpl.
    destruct (exec engine _) as [evs [u|e]]; simpl; [|discriminate].
    destruct (readFile engine); simpl; [|discriminate].
    intro H. injection H as _ _ <-. unfold values.
    rewrite map_app. simpl. f_equal.
    clear. induction evs as [|v evs IH]; simpl; [reflexivity | now rewrite IH].
  - destruct (exec engine _) as [evs [u|e]]; simpl; [|discriminate].
    destruct (readFile engine); simpl; [|discriminate].
    intro H. injection H as _ _ <-. unfold values.
    rewrite map_app. simpl. f_equal.
    clear. induction evs as [|v evs IH]; simpl; [reflexivity | now rewrite IH].
Qed.

End EncoderFacts.

(** ** Frames and progress of the MediaRecorder fallback *)

Module FallbackFacts.
Import Compositor Canvas Samples.
Local Open Scope string_scope.

(** C3 (the code at the failing input).  A normal run of the fallback over a
    five-second video at 60 frames per second, up to the moment before any
    stop timer fires: the promise is still pending and the recorder still
    recording.  The callback has been called 33 times; the last two calls
    both carry 1 -- one from the [ended] listener, one from the frame loop's
    end check -- and each of the two has scheduled its own
    [recorder.stop()]. *)
Theorem normal_run_reports_completion_twice :
  let j := Fallback.run (Fallback.mkProcessor (Some decoded_frame) false) normal_run
             (Fallback.start 5 (Some 1%nat) "video/webm;codecs=vp9,opus") in
  List.length (Fallback.reported j) = 33%nat /\
  Forall2 Qeq (Fallback.progress j) (firstn 31 (Fallback.progress j) ++ [1; 1]) /\
  times_reported 1 (Fallback.reported j) = 2%nat /\
  Fallback.settled j = None /\
  Fallback.recorder j = Fallback.recording /\
  Fallback.stopTimers j = 2%nat /\
  Fallback.plays (Fallback.mkPlayhead 0 false false) normal_run.
Proof.
  vm_compute. repeat split; repeat constructor; discriminate.
Qed.

(** The same on the short run: the callback receives 0, 0, 1, 1. *)
Lemma short_run_reports_completion_twice :
  let j := Fallback.run (Fallback.mkProcessor (Some decoded_frame) false) short_run
             (Fallback.start 5 (Some 1%nat) "video/webm;codecs=vp9,opus") in
  Forall2 Qeq (Fallback.progress j) [0; 0; 1; 1] /\
  Fallback.settled j = None.
Proof.
  vm_compute. repeat split; repeat constructor.
Qed.

(** C7 (counterexample).  With the video and the canvas present but the
    frame image not loaded, VideoEditor.drawFrame issues no draw call at
    all: neither background nor source is drawn. *)
Lemma editor_draws_nothing_without_overlay :
  drawFrame (Some (1920%Z, 1080%Z)) true None = [] /\
  drawFrame (Some (1920%Z, 1080%Z)) true (Some decoded_frame) =
    [ fillRect "#ffffff" 0 0 1080 1920;
      drawVideo (drawFrame_rect 1920 1080);
      drawOverlay decoded_frame 0 0 1080 1920 ].
Proof. split; reflexivity. Qed.

(** C7 (amended).  In the frame loop of FallbackVideoProcessor and in
    VideoFrameProcessor.processFrame, when the processor holds no frame
    image only the overlay draw is skipped: the black background fill and
    the source frame are still drawn, in that order, and the job is not
    settled by the frame; a failed [loadFrame] leaves the fallback
    processor without a frame image.  VideoEditor.drawFrame instead returns
    before drawing anything while its frame image is missing. *)
Theorem overlay_skipped_when_absent
    (p : Fallback.FallbackVideoProcessor) (v : Fallback.Video) (j : Fallback.Job)
    (q : FrameProcessor.VideoFrameProcessor) (w h : Z)
    (video : option (Z * Z)) (canvas : bool) (url : string) :
  Fallback.frameImage p = None ->
  FrameProcessor.frameImage q = None ->
  Fallback.ended v || Qle_bool (Fallback.duration j) (Fallback.currentTime v) = false ->
  (Fallback.canvas (Fallback.processFrames p v j) =
     [ fillRect "#000000" 0 0 1080 1920;
       drawVideo (fallback_rect (Fallback.videoWidth v) (Fallback.videoHeight v)) ] /\
   Fallback.settled (Fallback.processFrames p v j) = Fallback.settled j) /\
  FrameProcessor.processFrame q w h =
     [ fillRect "#000000" 0 0 1080 1920; drawVideo (processFrame_rect w h) ] /\
  Fallback.loadFrame url false p = (Throw "error", p) /\
  drawFrame video canvas None = [].
Proof.
  intros Hp Hq Hv. repeat split.
  - unfold Fallback.processFrames. rewrite Hv. simpl.
    unfold Fallback.frame_calls. rewrite Hp. reflexivity.
  - unfold Fallback.processFrames. rewrite Hv. reflexivity.
  - unfold FrameProcessor.processFrame. rewrite Hq. reflexivity.
  - destruct video as [[a b]|]; destruct canvas; reflexivity.
Qed.

Lemma overlay_skipped_when_absent_witness :
  let j := Fallback.start 5 (Some 1%nat) "video/webm" in
  (Fallback.canvas (Fallback.processFrames Fallback.new (playing 1) j) =
     [ fillRect "#000000" 0 0 1080 1920; drawVideo (fallback_rect 1920 1080) ] /\
   Fallback.settled (Fallback.processFrames Fallback.new (playing 1) j) = None) /\
  FrameProcessor.processFrame FrameProcessor.new 1920 1080 =
     [ fillRect "#000000" 0 0 1080 1920; drawVideo (processFrame_rect 1920 1080) ] /\
  Fallback.loadFrame "bingkai.png" false Fallback.new = (Throw "error", Fallback.new) /\
  drawFrame (Some (1920%Z, 1080%Z)) true None = [].
Proof.
  apply (overlay_skipped_when_absent Fallback.new (playing 1)
           (Fallback.start 5 (Some 1%nat) "video/webm")
           FrameProcessor.new 1920 1080 (Some (1920%Z, 1080%Z)) true "bingkai.png");
    reflexivity.
Defined.

(** With a frame image held, the same frame draws it last, over the whole
    canvas. *)
Lemma overlay_drawn_when_present
    (img : Image) (busy : bool) (v : Fallback.Video) (j : Fallback.Job) :
  Fallback.ended v || Qle_bool (Fallback.duration j) (Fallback.currentTime v) = false ->
  Fallback.canvas (Fallback.processFrames (Fallback.mkProcessor (Some img) busy) v j) =
    [ fillRect "#000000" 0 0 1080 1920;
      drawVideo (fallback_rect (Fallback.videoWidth v) (Fallback.videoHeight v));
      drawOverlay img 0 0 1080 1920 ].
Proof.
  intro Hv. unfold Fallback.processFrames. rewrite Hv. reflexivity.
Qed.

(** VideoFrameProcessor.loadFrame assigns the image before its load
    settles: after a failed load the processor holds the broken image, and
    [processFrame] still issues the overlay draw with it. *)
Lemma broken_frame_is_still_passed_to_drawImage (path : string) (w h : Z) :
  let p := snd (FrameProcessor.loadFrame path false FrameProcessor.new) in
  fst (FrameProcessor.loadFrame path false FrameProcessor.new) = Throw "Gagal load bingkai" /\
  FrameProcessor.processFrame p w h =
    [ fillRect "#000000" 0 0 1080 1920;
      drawVideo (processFrame_rect w h);
      drawOverlay (mkImage path false) 0 0 1080 1920 ].
Proof. split; reflexivity. Qed.

(** The busy flag of the fallback is cleared when [processVideo] returns
    its promise, whether or not the recording has come to an end. *)
Lemma fallback_flag_cleared_on_return
    (p : Fallback.FallbackVideoProcessor) (cb : option Callback)
    (format : string) (env : Fallback.Browser) :
  Fallback.isProcessing (snd (fst (Fallback.processVideo_run p cb format env))) = false.
Proof.
  unfold Fallback.processVideo_run. destruct (Fallback.loadeddata env); reflexivity.
Qed.


(** C4.  The MediaRecorder fallback admits a second call while its first
    job is recording.  On a fresh processor a first [processVideo] is
    invoked, its hidden video loads and the recording is under way: one
    frame drawn, one chunk recorded, the promise pending.  By then the
    [finally] has cleared the flag, so a second [processVideo] invoked now
    is not refused: it is admitted, and once its video has loaded a second
    recording runs beside the first.  A second call is refused only in the
    window in which the first still awaits its load. *)
Theorem fallback_admits_call_during_recording :
  let first :=
    FallbackCalls.steps
      [ FallbackCalls.Invoke (Some 1%nat) "webm";
        FallbackCalls.LoadSettles MoreSamples.recording_browser ]
      (FallbackCalls.fresh Fallback.new) in
  let job :=
    Fallback.run Fallback.new (Fallback.events MoreSamples.recording_browser)
      (Fallback.start 5 (Some 1%nat) "video/webm;codecs=vp9,opus") in
  let second := FallbackCalls.step first (FallbackCalls.Invoke (Some 2%nat) "webm") in
  let both :=
    FallbackCalls.step second (FallbackCalls.LoadSettles MoreSamples.recording_browser) in
  map fst (FallbackCalls.results first) = [Fallback.StillPending] /\
  Fallback.recorder job = Fallback.recording /\
  Fallback.chunks job = [4096%N] /\
  Fallback.settled job = None /\
  Fallback.isProcessing (FallbackCalls.this first) = false /\
  FallbackCalls.awaiting second = Some (Some 2%nat, "webm") /\
  FallbackCalls.results second = FallbackCalls.results first /\
  map fst (FallbackCalls.results both) = [Fallback.StillPending; Fallback.StillPending] /\
  FallbackCalls.results
    (FallbackCalls.steps
       [ FallbackCalls.Invoke (Some 1%nat) "webm";
         FallbackCalls.Invoke (Some 2%nat) "webm" ]
       (FallbackCalls.fresh Fallback.new))
  = [(Fallback.Rejected Fallback.busy_message, [])].
Proof. vm_compute. repeat split. Qed.

End FallbackFacts.

(** ** The timeout guard of VideoFrameProcessor.processVideo *)

Module FrameProcessorFacts.
Import FrameProcessor Samples.
Local Open Scope string_scope.





























End FrameProcessorFacts.

(** ** The fallback selector *)

Module SelectorFacts.
Import Selector Samples.
Local Open Scope string_scope.

Lemma typed_view (mime : string) (j j' : Fallback.Job) :
  Fallback.type_view j' = Fallback.type_view j ->
  Fallback.typed mime j -> Fallback.typed mime j'.
Proof.
  unfold Fallback.type_view, Fallback.typed. intros E T.
  injection E as -> ->. exact T.
Qed.

Lemma view_processFrames p v j :
  Fallback.type_view (Fallback.processFrames p v j) = Fallback.type_view j.
Proof.
  unfold Fallback.processFrames. destruct (_ || _); reflexivity.
Qed.

Lemma typed_settle_throw (mime e : string) (j : Fallback.Job) :
  Fallback.typed mime j -> Fallback.typed mime (Fallback.settle (Throw e) j).
Proof.
  intros T. pose proof T as (M & _). unfold Fallback.settle.
  destruct (Fallback.settled j) eqn:S; [exact T|].
  split; [exact M|]. cbn [Fallback.settled]. discriminate.
Qed.

Lemma typed_recorder_stop (mime : string) (j : Fallback.Job) :
  Fallback.typed mime j -> Fallback.typed mime (Fallback.recorder_stop j).
Proof.
  intros T0. pose proof T0 as (M & T). unfold Fallback.recorder_stop.
  destruct (Fallback.recorder j); [|exact T0].
  unfold Fallback.settle. cbn [Fallback.settled].
  destruct (Fallback.settled j) eqn:S.
  - split; [exact M|]. cbn [Fallback.settled]. exact T.
  - split; [exact M|]. cbn [Fallback.settled Fallback.mimeType].
    intros b E. injection E as <-. cbn [blob_type]. now rewrite M.
Qed.

Lemma handle_typed (mime : string) (p : Fallback.FallbackVideoProcessor)
    (e : Fallback.Event) (j : Fallback.Job) :
  Fallback.typed mime j -> Fallback.typed mime (Fallback.handle p e j).
Proof.
  intro T. destruct e as [v | e | v | | | c | e]; unfold Fallback.handle.
  - apply (typed_view mime j); [|exact T]. now rewrite view_processFrames.
  - now apply typed_settle_throw.
  - destruct (Fallback.frameRequested j); [|exact T].
    apply (typed_view mime j); [|exact T]. now rewrite view_processFrames.
  - apply (typed_view mime j); [reflexivity | exact T].
  - destruct (Fallback.stopTimers j); [exact T|].
    apply typed_recorder_stop. apply (typed_view mime j); [reflexivity | exact T].
  - destruct (Fallback.recorder j); [|exact T].
    apply (typed_view mime j); [|exact T].
    unfold Fallback.ondataavailable. destruct (0 <? c)%N; reflexivity.
  - now apply typed_settle_throw.
Qed.

Lemma run_typed (mime : string) (p : Fallback.FallbackVideoProcessor)
    (events : list Fallback.Event) (j : Fallback.Job) :
  Fallback.typed mime j -> Fallback.typed mime (Fallback.run p events j).
Proof.
  revert j. induction events as [|e events IH]; intros j T; simpl.
  - exact T.
  - apply IH. now apply handle_typed.
Qed.

(** Every type the fallback records is a WebM type and names no MP4. *)
Lemma select_mimeType_webm (isTypeSupported : string -> bool) :
  let t := Fallback.or_string (Fallback.select_mimeType isTypeSupported) "video/webm" in
  Str.startsWith "video/webm" t = true /\ Str.includes t "mp4" = false.
Proof.
  unfold Fallback.select_mimeType.
  destruct (isTypeSupported "video/webm;codecs=vp9,opus");
    [split; reflexivity|].
  destruct (isTypeSupported "video/webm;codecs=vp8,opus");
    [split; reflexivity|].
  destruct (isTypeSupported "video/webm;codecs=h264,opus");
    split; reflexivity.
Qed.

(** A blob the fallback resolves with is WebM-typed. *)
Lemma fallback_blob_is_webm (fb fb' : Fallback.FallbackVideoProcessor)
    (cb : option Callback) (format : string) (env : Fallback.Browser)
    (b : Blob) (reports : list Report) :
  Fallback.processVideo fb cb format env = (Fallback.Fulfilled b, fb', reports) ->
  Str.startsWith "video/webm" (blob_type b) = true /\
  Str.includes (blob_type b) "mp4" = false.
Proof.
  unfold Fallback.processVideo, Fallback.processVideo_enter, Fallback.processVideo_run.
  destruct (Fallback.isProcessing fb); [discriminate|].
  destruct (Fallback.loadeddata env); [|discriminate].
  set (mime := Fallback.select_mimeType (Fallback.isTypeSupported env)).
  set (j := Fallback.run _ _ _).
  assert (T : Fallback.typed mime j).
  { apply run_typed. split; [reflexivity | discriminate]. }
  intro E. injection E as E _ _. unfold Fallback.outcome_of in E.
  destruct (Fallback.settled j) as [[b'|]|] eqn:S; try discriminate.
  injection E as ->. destruct T as (_ & T). rewrite (T b S).
  apply select_mimeType_webm.
Qed.


(** The tail of [processVideo] when the fallback resolves and MP4 was asked
    for. *)
Lemma use_fallback_mp4 (vp : VideoProcessor) (cb : option Callback) (env : World)
    (b : Blob) (fb' : Fallback.FallbackVideoProcessor) (reports : list Report) :
  Fallback.processVideo (fallbackProcessor vp) cb "mp4" (browser env)
    = (Fallback.Fulfilled b, fb', reports) ->
  use_fallback vp cb "mp4" env =
    (Fallback.Fulfilled b, with_fallback fb' vp, reports,
     [log ["Fallback processor result type:"; blob_type b]; mismatch_note b]).
Proof.
  intro F. unfold use_fallback. rewrite F.
  destruct (fallback_blob_is_webm _ _ _ _ _ _ _ F) as (_ & N).
  rewrite N. reflexivity.
Qed.




(** The sample engine throws during [exec], whatever the processor. *)
Lemma failing_engine_throws (cb : option Callback) :
  transcode_throws with_encoder_loaded cb "mp4" encoder_throws_world.
Proof.
  intros engine fp format [-> | ->] _ _;
    unfold Encoder.processVideo_try, Async.bind, Async.await, Async.ret,
      Encoder.run_exec; cbn [encoder_throws_world first_attempt second_attempt
      failing_engine Encoder.extractVideoBlob Encoder.writeInput
      Encoder.writeFrame Encoder.exec fst snd];
    destruct (truthy (Encoder.frameImage fp)); eexists _, _; reflexivity.
Qed.


(** With the encoder loaded and throwing at both attempts, the same call
    reaches the fallback after two caught errors; over the whole call the
    callback sees the engine's values of each attempt and then the
    fallback's. *)
Lemma retried_then_fallback :
  let '(out, _, reports, _) :=
    processVideo with_encoder_loaded (Some 1%nat) "mp4" encoder_throws_world in
  out = Fallback.Fulfilled (mkBlob "video/webm;codecs=vp9,opus" [4096%N; 2048%N]) /\
  Forall2 Qeq (Encoder.values reports) [1 # 4; 1 # 2; 1 # 4; 1 # 2; 0; 0; 1; 1].
Proof. vm_compute. split; [reflexivity | repeat constructor]. Qed.

End SelectorFacts.

(** ** Progress values of the fallback during uninterrupted playback *)

Module ProgressFacts.
Import Fallback.
Local Open Scope Q_scope.

Lemma sorted_snoc (l : list Q) (x : Q) :
  StronglySorted Qle l -> Forall (fun y => y <= x) l ->
  StronglySorted Qle (l ++ [x]).
Proof.
  induction 1 as [|a l S IH F]; intro B; simpl.
  - repeat constructor.
  - inversion B as [|? ? Ba Bl]; subst. constructor.
    + now apply IH.
    + apply Forall_app. split; [exact F | repeat constructor; exact Ba].
Qed.

Lemma Forall_snoc {A} (P : A -> Prop) (l : list A) (x : A) :
  Forall P l -> P x -> Forall P (l ++ [x]).
Proof. intros F H. apply Forall_app. split; [exact F | repeat constructor; exact H]. Qed.

Lemma Forall_weaken (l : list Q) (a b : Q) :
  a <= b -> Forall (fun x => x <= a) l -> Forall (fun x => x <= b) l.
Proof.
  intros L F. eapply Forall_impl; [|exact F]. intros x H. simpl in H. lra.
Qed.

Lemma Forall_le_one (l : list Q) :
  Forall (fun x => 0 <= x /\ x <= 1) l -> Forall (fun x => x <= 1) l.
Proof. intro F. eapply Forall_impl; [|exact F]. intros x [_ H]. exact H. Qed.

Lemma Math_min_le_r (a b : Q) : Math_min a b <= b.
Proof.
  unfold Math_min. destruct (Qle_bool a b) eqn:E; [|lra].
  now apply Qle_bool_iff.
Qed.

Lemma Math_min_glb (a b c : Q) : c <= a -> c <= b -> c <= Math_min a b.
Proof. intros. unfold Math_min. destruct (Qle_bool a b); assumption. Qed.

Lemma Math_min_le_l (a b : Q) : Math_min a b <= a.
Proof.
  unfold Math_min. destruct (Qle_bool a b) eqn:E; [lra|].
  apply Qlt_le_weak, Qnot_le_lt. intro H. apply Qle_bool_iff in H. congruence.
Qed.

Lemma div_mono (a b d : Q) : 0 < d -> a <= b -> a / d <= b / d.
Proof.
  intros Hd H. apply Qle_shift_div_l; [exact Hd|].
  rewrite (Qmult_comm (a / d)), Qmult_div_r by lra. exact H.
Qed.

Lemma cap_mono (a b d : Q) : 0 < d -> a <= b ->
  Math_min (a / d) 0.99 <= Math_min (b / d) 0.99.
Proof.
  intros Hd H. apply Math_min_glb.
  - eapply Qle_trans; [apply Math_min_le_l | now apply div_mono].
  - apply Math_min_le_r.
Qed.

Lemma cap_range (a d : Q) : 0 < d -> 0 <= a ->
  0 <= Math_min (a / d) 0.99 /\ Math_min (a / d) 0.99 <= 1.
Proof.
  intros Hd Ha. split.
  - apply Math_min_glb; [|discriminate].
    apply Qle_shift_div_l; [exact Hd | lra].
  - eapply Qle_trans; [apply Math_min_le_r | discriminate].
Qed.

(** Appending one more value that is at least every earlier one. *)
Lemma progress_call (cb : option Callback) (v : Q) :
  map snd (call_if_set cb v) = if truthy cb then [v] else [].
Proof. destruct cb; reflexivity. Qed.

Lemma extend (l : list Q) (cb : option Callback) (v : Q) :
  StronglySorted Qle l -> Forall (fun x => 0 <= x /\ x <= 1) l ->
  Forall (fun x => x <= v) l -> 0 <= v /\ v <= 1 ->
  StronglySorted Qle (l ++ map snd (call_if_set cb v)) /\
  Forall (fun x => 0 <= x /\ x <= 1) (l ++ map snd (call_if_set cb v)).
Proof.
  intros S R B V. rewrite progress_call. destruct (truthy cb).
  - split; [now apply sorted_snoc | now apply Forall_snoc].
  - rewrite app_nil_r. now split.
Qed.

Lemma extend_bound (l : list Q) (cb : option Callback) (v c : Q) :
  Forall (fun x => x <= c) l -> v <= c ->
  Forall (fun x => x <= c) (l ++ map snd (call_if_set cb v)).
Proof.
  intros B V. rewrite progress_call. destruct (truthy cb).
  - now apply Forall_snoc.
  - now rewrite app_nil_r.
Qed.

Lemma progress_report v j :
  progress (report v j) = progress j ++ map snd (call_if_set (onProgress j) v).
Proof. unfold progress, report. cbn [reported]. apply map_app. Qed.

(** The end branch of the frame loop. *)
Lemma processFrames_end p v j :
  ended v || Qle_bool (duration j) (currentTime v) = true ->
  progress (processFrames p v j)
    = progress j ++ map snd (call_if_set (onProgress j) 1) /\
  frameRequested (processFrames p v j) = false /\
  duration (processFrames p v j) = duration j.
Proof.
  intro E. unfold processFrames. rewrite E.
  split; [|split; reflexivity].
  unfold schedule_stop, progress. cbn [reported].
  change (reported (report 1 (set_frameRequested false j)))
    with (reported j ++ call_if_set (onProgress j) 1)%list.
  apply map_app.
Qed.

(** A drawing turn of the frame loop. *)
Lemma processFrames_draw p v j :
  ended v || Qle_bool (duration j) (currentTime v) = false ->
  (progress (processFrames p v j) = progress j \/
   progress (processFrames p v j)
     = progress j ++ map snd (call_if_set (onProgress j)
                                (Math_min (currentTime v / duration j) 0.99))) /\
  frameRequested (processFrames p v j) = true /\
  duration (processFrames p v j) = duration j.
Proof.
  intro E. unfold processFrames. rewrite E.
  split; [|split; reflexivity].
  unfold progress. cbn [reported].
  destruct (truthy (onProgress j) && (frameCount j mod 10 =? 0)%nat).
  - right. apply map_app.
  - left. now rewrite app_nil_r.
Qed.

Lemma monotone_same (d : Q) (h : Playhead) (j j' : Job) :
  duration j' = duration j -> frameRequested j' = frameRequested j ->
  reported j' = reported j ->
  monotone d h j -> monotone d h j'.
Proof.
  unfold monotone, progress. intros -> -> ->. exact (fun M => M).
Qed.

Lemma same_settle r j :
  duration (settle r j) = duration j /\
  frameRequested (settle r j) = frameRequested j /\
  reported (settle r j) = reported j.
Proof. unfold settle. destruct (settled j); repeat split. Qed.

Lemma same_recorder_stop j :
  duration (recorder_stop j) = duration j /\
  frameRequested (recorder_stop j) = frameRequested j /\
  reported (recorder_stop j) = reported j.
Proof.
  unfold recorder_stop. destruct (recorder j); [|repeat split].
  destruct (same_settle (Ok (mkBlob (or_string (mimeType j) "video/webm") (chunks j)))
    (mkJob (duration j) (onProgress j) (mimeType j) (frameCount j)
       (frameRequested j) (stopTimers j) inactive (chunks j) (settled j)
       (reported j) (canvas j))) as (A & B & C).
  rewrite A, B, C. repeat split.
Qed.

Lemma same_ondataavailable c j :
  duration (ondataavailable c j) = duration j /\
  frameRequested (ondataavailable c j) = frameRequested j /\
  reported (ondataavailable c j) = reported j.
Proof. unfold ondataavailable. destruct (0 <? c)%N; repeat split. Qed.

Ltac six_parts :=
  unfold monotone; cbn [last_time saw_ended started];
  split; [|split; [|split; [|split; [|split]]]].

(** One event of uninterrupted playback keeps the progress values in
    order. *)
Lemma handle_monotone (d : Q) (p : FallbackVideoProcessor) (h : Playhead)
    (e : Event) (rest : list Event) (j : Job) :
  0 < d -> monotone d h j -> plays h (e :: rest) ->
  monotone d (advance h e) (handle p e j) /\ plays (advance h e) rest.
Proof.
  intros Hd M P. pose proof M as (D & L & S & R & N & C).
  destruct e as [v | e | v | | | c | e]; cbn [plays advance handle] in *.
  - (* play() fulfilled *)
    destruct P as (St & Se & Lv & P). split; [|exact P].
    destruct (N St) as (F & E). specialize (E Se).
    assert (Lv' : 0 <= currentTime v) by lra.
    set (j0 := report 0 j).
    assert (P0 : progress j0 = map snd (call_if_set (onProgress j) 0)).
    { unfold j0. now rewrite progress_report, E. }
    assert (S0 : StronglySorted Qle (progress j0) /\
                 Forall (fun x => 0 <= x /\ x <= 1) (progress j0)).
    { rewrite P0. apply (extend [] (onProgress j) 0); repeat constructor;
        discriminate. }
    assert (B0 : forall c, 0 <= c -> Forall (fun x => x <= c) (progress j0)).
    { intros c Hc. rewrite P0. now apply (extend_bound [] (onProgress j) 0 c). }
    destruct S0 as (S0 & R0).
    destruct (ended v || Qle_bool (duration j0) (currentTime v)) eqn:X.
    + destruct (processFrames_end p v j0 X) as (Pr & Fr & Du).
      destruct (extend (progress j0) (onProgress j0) 1 S0 R0) as (S1 & R1).
      { apply B0. discriminate. }
      { split; discriminate. }
      six_parts; rewrite ?Pr, ?Fr, ?Du; try assumption; discriminate.
    + destruct (processFrames_draw p v j0 X) as (Pr & Fr & Du).
      change (duration j0) with (duration j) in *. rewrite D in *.
      destruct (cap_range (currentTime v) d Hd Lv') as (C0 & C1).
      destruct Pr as [Pr | Pr].
      * six_parts; rewrite ?Pr, ?Fr, ?Du; try assumption; try reflexivity; try discriminate.
        intros _ _. apply B0. exact C0.
      * destruct (extend (progress j0) (onProgress j0)
                    (Math_min (currentTime v / d) 0.99) S0 R0) as (S1 & R1).
        { apply B0. exact C0. }
        { now split. }
        six_parts; rewrite ?Pr, ?Fr, ?Du; try assumption; try reflexivity; try discriminate.
        intros _ _. apply extend_bound; [apply B0; exact C0 | apply Qle_refl].
  - (* play() rejected *)
    split; [|exact P]. destruct (same_settle (Throw e) j) as (A & B & E).
    apply (monotone_same d h j); assumption.
  - (* animation frame *)
    destruct P as (Lv & En & P). split; [|exact P].
    assert (Lv' : 0 <= currentTime v) by lra.
    destruct (frameRequested j) eqn:F.
    + set (j0 := set_frameRequested false j).
      assert (St : started h = true).
      { destruct (started h); [reflexivity|]. destruct (N eq_refl). discriminate. }
      destruct (ended v || Qle_bool (duration j0) (currentTime v)) eqn:X.
      * destruct (processFrames_end p v j0 X) as (Pr & Fr & Du).
        change (progress j0) with (progress j) in Pr.
        destruct (extend (progress j) (onProgress j0) 1 S R) as (S1 & R1).
        { now apply Forall_le_one. }
        { split; discriminate. }
        six_parts; rewrite ?Pr, ?Fr, ?Du, ?St; try assumption; discriminate.
      * destruct (processFrames_draw p v j0 X) as (Pr & Fr & Du).
        apply orb_false_iff in X. destruct X as (X & _).
        assert (Se : saw_ended h = false).
        { destruct (saw_ended h); [|reflexivity]. rewrite (En eq_refl) in X.
          discriminate. }
        specialize (C eq_refl Se).
        assert (B : Forall (fun x => x <= Math_min (currentTime v / d) 0.99) (progress j)).
        { eapply Forall_weaken; [|exact C]. now apply cap_mono. }
        change (duration j0) with (duration j) in *.
        rewrite D in *. change (progress j0) with (progress j) in *.
        destruct (cap_range (currentTime v) d Hd Lv') as (C0 & C1).
        destruct Pr as [Pr | Pr].
        -- six_parts; rewrite ?Pr, ?Fr, ?Du, ?St; try assumption; try reflexivity; try discriminate.
           intros _ _. exact B.
        -- destruct (extend (progress j) (onProgress j0)
                       (Math_min (currentTime v / d) 0.99) S R B) as (S1 & R1).
           { now split. }
           six_parts; rewrite ?Pr, ?Fr, ?Du, ?St; try assumption; try reflexivity; try discriminate.
           intros _ _. apply extend_bound; [exact B | apply Qle_refl].
    + six_parts; rewrite ?F; try assumption; discriminate.
  - (* ended *)
    split; [|exact P].
    destruct (extend (progress j) (onProgress j) 1 S R) as (S1 & R1).
    { now apply Forall_le_one. }
    { split; discriminate. }
    six_parts;
      change (duration (schedule_stop (report 1 j))) with (duration j);
      change (frameRequested (schedule_stop (report 1 j))) with (frameRequested j);
      change (progress (schedule_stop (report 1 j))) with (progress (report 1 j));
      rewrite ?progress_report; try assumption; try discriminate.
    intro St. destruct (N St) as (F & _). split; [exact F | discriminate].
  - (* a stop timer *)
    split; [|exact P]. destruct (stopTimers j) as [|n].
    + exact M.
    + set (j0 := mkJob _ _ _ _ _ _ _ _ _ _ _).
      destruct (same_recorder_stop j0) as (A & B & E).
      apply (monotone_same d h j); assumption.
  - (* recorded data *)
    split; [|exact P]. destruct (recorder j).
    + destruct (same_ondataavailable c j) as (A & B & E).
      apply (monotone_same d h j); assumption.
    + exact M.
  - (* recorder error *)
    split; [|exact P]. destruct (same_settle (Throw e) j) as (A & B & E).
    apply (monotone_same d h j); assumption.
Qed.

Lemma run_monotone (d : Q) (p : FallbackVideoProcessor) (events : list Event)
    (h : Playhead) (j : Job) :
  0 < d -> monotone d h j -> plays h events ->
  exists h', monotone d h' (run p events j).
Proof.
  intro Hd. revert h j. induction events as [|e rest IH]; intros h j M P.
  - exists h. exact M.
  - destruct (handle_monotone d p h e rest j Hd M P) as (M' & P').
    exact (IH _ _ M' P').
Qed.

(** During uninterrupted playback the values passed to the progress
    callback never decrease and stay between 0 and 1. *)
Lemma fallback_progress_nondecreasing (d : Q) (p : FallbackVideoProcessor)
    (cb : option Callback) (mime : string) (events : list Event) :
  0 < d -> plays (mkPlayhead 0 false false) events ->
  StronglySorted Qle (progress (run p events (start d cb mime))) /\
  Forall (fun x => 0 <= x /\ x <= 1) (progress (run p events (start d cb mime))).
Proof.
  intros Hd P.
  destruct (run_monotone d p events (mkPlayhead 0 false false) (start d cb mime) Hd)
    as (h' & _ & _ & S & R & _); [|exact P|now split].
  repeat split; try constructor; try discriminate.
Qed.

End ProgressFacts.

(** * Further properties of the code *)

(** ** The encoder adapter over its life *)

Module EncoderLifeFacts.
Import Encoder Calls Samples.
Local Open Scope string_scope.

Lemma load_failed_call (p : FFmpegVideoProcessor) (c : Call) :
  load_failed p -> load_failed (apply_call p c).
Proof.
  intros (P & L & N). destruct c as [ | | fetched | cb format engine];
    unfold apply_call.
  - unfold initialize. rewrite L, P. repeat split; assumption.
  - unfold terminate. rewrite L. repeat split; assumption.
  - destruct fetched; simpl; repeat split; assumption.
  - unfold processVideo, processVideo_enter, initialize. rewrite L, P.
    cbn [awaited_value]. rewrite P. simpl. repeat split; assumption.
Qed.

Lemma load_failed_calls (calls : list Call) (p : FFmpegVideoProcessor) :
  load_failed p -> load_failed (apply_calls calls p).
Proof.
  revert p. induction calls as [|c calls IH]; intros p F; simpl.
  - exact F.
  - apply IH. now apply load_failed_call.
Qed.

(** X1.  A failed module load is never retried.  Once the loading promise
    of a processor has settled with [false], then after any further
    sequence of [initialize], [terminate], [loadFrame] and [processVideo]
    calls the load has still been entered exactly once, the processor is
    not loaded, and [processVideo] is rejected with the initialisation
    error, leaving the processor untouched and reporting nothing. *)
Theorem failed_load_is_never_retried
    (p : FFmpegVideoProcessor) (calls : list Call)
    (cb : option Callback) (format : string) (engine : Engine) :
  reachable p -> loadingPromise p = Some (Settled false) ->
  let q := apply_calls calls p in
  processVideo q cb format engine = (Rejected init_message, q, []) /\
  loads q = 1%nat /\ isLoaded q = false /\
  awaited_value (fst (initialize q)) (snd (initialize q)) = Some false.
Proof.
  intros R P q.
  assert (F : load_failed p).
  { apply EncoderFacts.reachable_invariant in R. destruct R as (H1 & _ & H3).
    rewrite P in H3. split; [exact P|]. split; [|exact H3].
    destruct (isLoaded p) eqn:L; [|reflexivity].
    specialize (H1 eq_refl). congruence. }
  destruct (load_failed_calls calls p F) as (Pq & Lq & Nq). fold q in Pq, Lq, Nq.
  repeat split; try assumption.
  - unfold processVideo, processVideo_enter, initialize. rewrite Lq, Pq.
    cbn [awaited_value]. rewrite Pq. reflexivity.
  - unfold initialize. rewrite Lq, Pq. cbn [fst snd awaited_value]. now rewrite Pq.
Qed.

Lemma failed_load_is_never_retried_witness :
  let p := load_settles false (snd (initialize new)) in
  let q := apply_calls [CallInitialize; CallProcessVideo (Some 1%nat) "mp4" failing_engine;
                        CallTerminate; CallInitialize] p in
  processVideo q (Some 2%nat) "webm" failing_engine = (Rejected init_message, q, []) /\
  loads q = 1%nat /\ isLoaded q = false /\
  awaited_value (fst (initialize q)) (snd (initialize q)) = Some false.
Proof.
  apply (failed_load_is_never_retried (load_settles false (snd (initialize new)))).
  - apply (reach_load_settles false); [|reflexivity].
    apply reach_initialize, reach_new.
  - reflexivity.
Defined.

(** X2.  [terminate] is invisible to [initialize].  After [terminate] on a
    loaded processor [isReady()] is false, yet [initialize] still answers
    [true] from the settled promise without loading the module again, so
    an idle processor accepts the next [processVideo] as if the engine
    were still there. *)
Theorem terminate_is_invisible_to_initialize
    (p : FFmpegVideoProcessor) (cb : option Callback) :
  reachable p -> isLoaded p = true ->
  let q := terminate p in
  SelectorMore.isReady q = false /\
  initialize q = (AwaitLoading, q) /\
  awaited_value AwaitLoading q = Some true /\
  loads q = loads p /\
  (isProcessing p = false -> fst (processVideo_enter q cb) = Entered).
Proof.
  intros R L q. apply EncoderFacts.reachable_invariant in R.
  destruct R as (H1 & _ & _). specialize (H1 L).
  assert (Q : q = set_isLoaded false p).
  { unfold q, terminate. now rewrite L. }
  rewrite Q. unfold SelectorMore.isReady, initialize, processVideo_enter, initialize.
  cbn [set_isLoaded isLoaded loadingPromise loads isProcessing]. rewrite H1.
  cbn [awaited_value loadingPromise set_isLoaded isProcessing].
  rewrite H1. repeat split. intros ->. reflexivity.
Qed.

Lemma terminate_is_invisible_to_initialize_witness :
  let q := terminate (load_settles true (snd (initialize new))) in
  SelectorMore.isReady q = false /\
  initialize q = (AwaitLoading, q) /\
  awaited_value AwaitLoading q = Some true /\
  loads q = 1%nat /\
  fst (processVideo_enter q (Some 1%nat)) = Entered.
Proof.
  destruct (terminate_is_invisible_to_initialize
              (load_settles true (snd (initialize new))) (Some 1%nat))
    as (A & B & C & D & E).
  - apply (reach_load_settles true); [|reflexivity].
    apply reach_initialize, reach_new.
  - reflexivity.
  - split; [exact A|]. split; [exact B|]. split; [exact C|]. split; [exact D|].
    apply E. reflexivity.
Defined.

End EncoderLifeFacts.

(** ** Jobs of the encoder adapter that run to their end *)

Module EncoderJobFacts.
Import Encoder Samples.
Local Open Scope string_scope.

(** A fulfilled [processVideo] has entered, run its [try] block to the end
    and gone through the [finally]. *)
Lemma fulfilled_inversion (p p' : FFmpegVideoProcessor) (cb : option Callback)
    (format : string) (engine : Engine) (b : Blob) (reports : list Report) :
  processVideo p cb format engine = (Fulfilled b, p', reports) ->
  exists q,
    processVideo_enter p cb = (Entered, q) /\
    processVideo_try q cb format engine = (reports, Ok b) /\
    p' = processVideo_finally q /\
    frameImage q = frameImage p /\
    currentProgressCallback q = cb.
Proof.
  unfold processVideo. destruct (processVideo_enter p cb) as [e q] eqn:E.
  destruct e; try discriminate.
  destruct (processVideo_try q cb format engine) as [w [b0|m]] eqn:T; try discriminate.
  intro H. injection H as <- <- <-. exists q.
  split; [reflexivity|]. split; [exact T|]. split; [reflexivity|].
  unfold processVideo_enter in E. destruct (initialize p) as [a q0] eqn:I.
  assert (F : frameImage q0 = frameImage p).
  { destruct (EncoderFacts.initialize_cases p)
      as [(_ & E') | [(_ & _ & E') | (_ & _ & E')]];
      rewrite E' in I; injection I as <- <-; reflexivity. }
  destruct (awaited_value a q0) as [[|]|]; try discriminate.
  destruct (isProcessing q0); try discriminate.
  injection E as <-. split; [exact F | reflexivity].
Qed.

(** The blob a [try] block ends with. *)
Lemma try_blob (q : FFmpegVideoProcessor) (cb : option Callback)
    (format : string) (engine : Engine) (b : Blob) (reports : list Report) :
  processVideo_try q cb format engine = (reports, Ok b) ->
  exists data,
    readFile engine = Ok data /\
    b = mkBlob (if String.eqb format "mp4" then "video/mp4" else "video/webm") [data].
Proof.
  unfold processVideo_try, Async.bind, Async.await, Async.ret, Async.tell, run_exec.
  destruct (extractVideoBlob engine); [|discriminate].
  destruct (writeInput engine); [|discriminate].
  destruct (truthy (frameImage q)); simpl.
  - destruct (writeFrame engine); [|discriminate]. simpl.
    destruct (exec engine _) as [evs [u|e]]; simpl; [|discriminate].
    destruct (readFile engine) as [data|]; simpl; [|discriminate].
    intro H. injection H as _ <-. now exists data.
  - destruct (exec engine _) as [evs [u|e]]; simpl; [|discriminate].
    destruct (readFile engine) as [data|]; simpl; [|discriminate].
    intro H. injection H as _ <-. now exists data.
Qed.

(** X3.  The container of the command and the type of the blob agree.  For
    a job that runs to its end, whatever the requested format: the
    command's [-f] is [mp4] for "mp4" and [webm] for every other format,
    the codecs are chosen with it, the blob is typed [video/] followed by
    that container, and the encoder writes to [output.] followed by the
    format as requested. *)
Theorem container_matches_blob_type
    (p p' : FFmpegVideoProcessor) (cb : option Callback) (format : string)
    (engine : Engine) (b : Blob) (reports : list Report) :
  processVideo p cb format engine = (Fulfilled b, p', reports) ->
  let args :=
    Command._buildFFmpegCommand (truthy (frameImage p)) "input.mp4" "frame.png"
      ("output." ++ format) format in
  let mp4 := String.eqb format "mp4" in
  Command.option_value "-f" args = Some (if mp4 then "mp4" else "webm") /\
  blob_type b = "video/" ++ (if mp4 then "mp4" else "webm") /\
  Command.option_value "-c:v" args = Some (if mp4 then "libx264" else "libvpx-vp9") /\
  Command.option_value "-c:a" args = Some (if mp4 then "aac" else "libopus") /\
  last args "" = "output." ++ format.
Proof.
  intros H args mp4.
  destruct (fulfilled_inversion _ _ _ _ _ _ _ H) as (q & _ & T & _ & _ & _).
  destruct (try_blob _ _ _ _ _ _ T) as (data & _ & ->).
  subst args mp4. unfold Command._buildFFmpegCommand.
  destruct (truthy (frameImage p)); destruct (String.eqb format "mp4");
    repeat split.
Qed.

Lemma container_matches_blob_type_witness :
  exists b p' reports,
    processVideo MoreSamples.loaded_processor (Some 7%nat) "avi"
                 MoreSamples.working_engine = (Fulfilled b, p', reports) /\
    blob_type b = "video/webm" /\
    last (Command._buildFFmpegCommand false "input.mp4" "frame.png"
            "output.avi" "avi") "" = "output.avi".
Proof.
  eexists _, _, _. split; [vm_compute; reflexivity|].
  pose proof (container_matches_blob_type MoreSamples.loaded_processor _
                (Some 7%nat) "avi" MoreSamples.working_engine _ _ eq_refl)
    as (_ & B & _ & _ & L).
  split; [exact B | exact L].
Defined.

(** The reports of a [try] block that runs to its end. *)
Lemma try_reports (q : FFmpegVideoProcessor) (cb : option Callback)
    (format : string) (engine : Engine) (b : Blob) (reports : list Report) :
  processVideo_try q cb format engine = (reports, Ok b) ->
  reports =
    (flat_map (on_progress q)
       (fst (exec engine
               (Command._buildFFmpegCommand (truthy (frameImage q)) "input.mp4"
                  "frame.png" ("output." ++ format) format)))
     ++ call_if_set cb 1)%list.
Proof.
  unfold processVideo_try, Async.bind, Async.await, Async.ret, Async.tell, run_exec.
  destruct (extractVideoBlob engine); [|discriminate].
  destruct (writeInput engine); [|discriminate].
  destruct (truthy (frameImage q)); simpl.
  - destruct (writeFrame engine); [|discriminate]. simpl.
    destruct (exec engine _) as [evs [u|e]]; simpl; [|discriminate].
    destruct (readFile engine) as [data|]; simpl; [|discriminate].
    intro H. injection H as <- _. now rewrite app_nil_r.
  - destruct (exec engine _) as [evs [u|e]]; simpl; [|discriminate].
    destruct (readFile engine) as [data|]; simpl; [|discriminate].
    intro H. injection H as <- _. now rewrite app_nil_r.
Qed.

(** X4.  The encoder adapter forwards the engine's progress events as
    they are.  For a job that runs to its end with a callback, the calls of
    the callback are the engine's values, in the engine's order and
    unchanged, followed by one call with 1; without a callback nothing is
    called.  Afterwards the callback is forgotten: an event that arrives
    late reaches nobody, and the processor is free again. *)
Theorem encoder_progress_is_forwarded_unfiltered
    (p p' : FFmpegVideoProcessor) (cb : option Callback) (format : string)
    (engine : Engine) (b : Blob) (reports : list Report) :
  processVideo p cb format engine = (Fulfilled b, p', reports) ->
  let events :=
    fst (exec engine
           (Command._buildFFmpegCommand (truthy (frameImage p)) "input.mp4"
              "frame.png" ("output." ++ format) format)) in
  reports = match cb with
            | Some f => (map (pair f) events ++ [(f, 1)])%list
            | None => []
            end /\
  (forall late, on_progress p' late = []) /\
  isProcessing p' = false.
Proof.
  intros H events.
  destruct (fulfilled_inversion _ _ _ _ _ _ _ H) as (q & _ & T & -> & F & C).
  split; [|split; reflexivity].
  rewrite (try_reports _ _ _ _ _ _ T). subst events. rewrite F.
  generalize (fst (exec engine
    (Command._buildFFmpegCommand (truthy (frameImage p)) "input.mp4"
       "frame.png" ("output." ++ format) format))).
  intro evs. unfold on_progress. rewrite C. destruct cb as [f|]; simpl.
  - induction evs as [|v evs IH]; simpl; [reflexivity | now rewrite IH].
  - rewrite app_nil_r. induction evs as [|v evs IH]; simpl; [reflexivity | exact IH].
Qed.

Lemma encoder_progress_is_forwarded_unfiltered_witness :
  exists b p',
    processVideo MoreSamples.loaded_processor (Some 7%nat) "mp4"
                 MoreSamples.working_engine
    = (Fulfilled b, p',
       [(7%nat, 1 # 4); (7%nat, 3 # 4); (7%nat, 1 # 2); (7%nat, 1); (7%nat, 1)]) /\
    isProcessing p' = false.
Proof.
  eexists _, _. split; [vm_compute; reflexivity|].
  exact (proj2 (proj2 (encoder_progress_is_forwarded_unfiltered
    MoreSamples.loaded_processor _ (Some 7%nat) "mp4"
    MoreSamples.working_engine _ _ eq_refl))).
Defined.

End EncoderJobFacts.

(** ** Jobs of the MediaRecorder fallback *)

Module FallbackJobFacts.
Import Fallback FallbackCalls Invariants Samples.
Local Open Scope string_scope.

(** A blob comes from a resolved promise of the job. *)
Lemma fulfilled_settled (fb fb' : FallbackVideoProcessor) (cb : option Callback)
    (format : string) (env : Browser) (b : Blob) (reports : list Report) :
  processVideo fb cb format env = (Fulfilled b, fb', reports) ->
  let j := run (mkProcessor (frameImage fb) false) (events env)
               (start (video_duration env) cb (select_mimeType (isTypeSupported env))) in
  settled j = Some (Ok b) /\ reports = reported j.
Proof.
  unfold processVideo, processVideo_enter, processVideo_run.
  destruct (isProcessing fb); [discriminate|].
  destruct (loadeddata env); [|discriminate].
  cbn [frameImage]. set (j := run _ _ _). intro E. injection E as E _ <-.
  unfold outcome_of in E. destruct (settled j) as [[b'|]|]; try discriminate.
  injection E as ->. split; reflexivity.
Qed.

Lemma reported_processFrames (cb : Callback) p v j :
  completion_reported cb j -> completion_reported cb (processFrames p v j).
Proof.
  intros (C & H). unfold processFrames. destruct (ended v || _).
  - split; [exact C|]. intros _.
    cbn [reported schedule_stop report set_frameRequested onProgress].
    rewrite C. apply in_or_app. right. now left.
  - split; [exact C|]. cbn [stopTimers recorder settled reported].
    intro K. apply in_or_app. left. exact (H K).
Qed.

Lemma reported_settle_throw (cb : Callback) e j :
  completion_reported cb j -> completion_reported cb (settle (Throw e) j).
Proof.
  intros I. pose proof I as (C & H). unfold settle.
  destruct (settled j) eqn:S; [exact I|].
  split; [exact C|]. cbn [stopTimers recorder settled reported].
  intros [K | [K | (b & K)]]; [apply H; now left | apply H; right; now left |].
  discriminate.
Qed.

Lemma handle_reported (cb : Callback) (p : FallbackVideoProcessor) (e : Event)
    (j : Job) :
  completion_reported cb j -> completion_reported cb (handle p e j).
Proof.
  intros I. pose proof I as (C & H).
  destruct e as [v | e | v | | | c | e]; unfold handle.
  - apply reported_processFrames. split; [exact C|].
    cbn [stopTimers recorder settled reported report].
    intro K. apply in_or_app. left. exact (H K).
  - now apply reported_settle_throw.
  - destruct (frameRequested j); [|exact I].
    apply reported_processFrames. split; [exact C | exact H].
  - split; [exact C|]. intros _.
    cbn [reported schedule_stop report onProgress]. rewrite C.
    apply in_or_app. right. now left.
  - destruct (stopTimers j) as [|n] eqn:T; [exact I|].
    assert (R : In (cb, 1%Q) (reported j)) by (apply H; left; discriminate).
    unfold recorder_stop. cbn [recorder]. destruct (recorder j); unfold settle;
      cbn [settled]; [destruct (settled j)|]; (split; [exact C | intros _; exact R]).
  - destruct (recorder j) eqn:R; [|exact I].
    unfold ondataavailable. destruct (0 <? c)%N; [|exact I].
    split; [exact C|]. cbn [stopTimers recorder settled reported]. exact (proj2 I).
  - now apply reported_settle_throw.
Qed.

Lemma run_reported (cb : Callback) (p : FallbackVideoProcessor)
    (events : list Event) (j : Job) :
  completion_reported cb j -> completion_reported cb (run p events j).
Proof.
  revert j. induction events as [|e events IH]; intros j I; simpl.
  - exact I.
  - apply IH. now apply handle_reported.
Qed.

(** X5.  The fallback never resolves without having reported completion.
    Whatever the browser delivers, in whatever order, a blob handed to the
    caller has been preceded by a call of the progress callback with 1. *)
Theorem fallback_resolves_after_reporting_completion
    (fb fb' : FallbackVideoProcessor) (cb : Callback) (format : string)
    (env : Browser) (b : Blob) (reports : list Report) :
  processVideo fb (Some cb) format env = (Fulfilled b, fb', reports) ->
  In (cb, 1%Q) reports.
Proof.
  intro E. destruct (fulfilled_settled _ _ _ _ _ _ _ E) as (S & ->).
  refine (proj2 (run_reported cb _ (events env) _ _) _).
  - split; [reflexivity|]. intros [K | [K | (b' & K)]];
      [now elim K | discriminate | discriminate].
  - right. right. now exists b.
Qed.

Lemma fallback_resolves_after_reporting_completion_witness :
  let reports := [(3%nat, 0%Q); (3%nat, 0 # 5); (3%nat, 1%Q); (3%nat, 1%Q)] in
  let blob := mkBlob "video/webm;codecs=vp9,opus" [4096%N; 2048%N] in
  processVideo new (Some 3%nat) "mp4" (Selector.browser encoder_throws_world)
    = (Fulfilled blob, new, reports) /\
  In (3%nat, 1%Q) reports.
Proof.
  intros reports blob.
  assert (E : processVideo new (Some 3%nat) "mp4" (Selector.browser encoder_throws_world)
              = (Fulfilled blob, new, reports)) by (vm_compute; reflexivity).
  split; [exact E|].
  exact (fallback_resolves_after_reporting_completion new new 3%nat "mp4"
           (Selector.browser encoder_throws_world) blob reports E).
Defined.

Lemma handle_chunks (P : Chunk -> Prop) (p : FallbackVideoProcessor) (e : Event)
    (j : Job) :
  (forall size, e = DataAvailable size -> (0 < size)%N -> P size) ->
  chunks_satisfy P j -> chunks_satisfy P (handle p e j).
Proof.
  intros D I. pose proof I as (C & H).
  assert (F : forall v j0, chunks_satisfy P j0 -> chunks_satisfy P (processFrames p v j0)).
  { intros v j0 I0. unfold processFrames. destruct (ended v || _); exact I0. }
  assert (T : forall m j0, chunks_satisfy P j0 -> chunks_satisfy P (settle (Throw m) j0)).
  { intros m j0 I0. pose proof I0 as (C0 & _). unfold settle.
    destruct (settled j0) eqn:S; [exact I0|].
    split; [exact C0|]. cbn [settled]. discriminate. }
  destruct e as [v | e | v | | | c | e]; unfold handle.
  - apply F. exact I.
  - now apply T.
  - destruct (frameRequested j); [|exact I]. apply F. exact I.
  - exact I.
  - destruct (stopTimers j) as [|n]; [exact I|].
    unfold recorder_stop. cbn [recorder chunks mimeType settled].
    destruct (recorder j); [|exact I]. unfold settle. cbn [settled].
    destruct (settled j) eqn:S.
    + split; [exact C|]. cbn [settled]. exact H.
    + split; [exact C|]. cbn [settled chunks]. intros b E. injection E as <-. exact C.
  - destruct (recorder j); [|exact I].
    unfold ondataavailable. destruct (0 <? c)%N eqn:Z; [|exact I].
    split; [|exact (proj2 I)]. cbn [chunks]. apply Forall_app. split; [exact C|].
    constructor; [|constructor]. apply D; [reflexivity|]. now apply N.ltb_lt.
  - now apply T.
Qed.

Lemma run_chunks (P : Chunk -> Prop) (p : FallbackVideoProcessor)
    (events : list Event) (j : Job) :
  (forall size, In (DataAvailable size) events -> (0 < size)%N -> P size) ->
  chunks_satisfy P j -> chunks_satisfy P (run p events j).
Proof.
  revert j. induction events as [|e events IH]; intros j D I; simpl.
  - exact I.
  - apply IH.
    + intros size K. apply D. now right.
    + apply handle_chunks; [|exact I]. intros size ->. apply D. now left.
Qed.

(** X6.  The blob of the fallback is made of recorded data only.  Every
    part of a blob the fallback resolves with is a chunk the recorder
    delivered during this job, and none of them is empty: chunks of size 0
    are dropped. *)
Theorem fallback_blob_holds_delivered_chunks
    (fb fb' : FallbackVideoProcessor) (cb : option Callback) (format : string)
    (env : Browser) (b : Blob) (reports : list Report) :
  processVideo fb cb format env = (Fulfilled b, fb', reports) ->
  Forall (fun c => (0 < c)%N /\ In (DataAvailable c) (events env)) (blob_parts b).
Proof.
  intro E. destruct (fulfilled_settled _ _ _ _ _ _ _ E) as (S & _).
  refine (proj2 (run_chunks _ _ (events env) _ _ _) b S).
  - intros size K Z. split; [exact Z | exact K].
  - split; [constructor | discriminate].
Qed.

Lemma fallback_blob_holds_delivered_chunks_witness :
  let env :=
    mkBrowser (Ok tt) (fun _ => false) 5
      (DataAvailable 0%N :: DataAvailable 4096%N :: short_run ++
       [DataAvailable 0%N; TimerFires; DataAvailable 2048%N]) in
  let blob := mkBlob "video/webm" [4096%N] in
  processVideo new None "webm" env = (Fulfilled blob, new, []) /\
  Forall (fun c => (0 < c)%N /\ In (DataAvailable c) (events env)) (blob_parts blob).
Proof.
  intros env blob.
  assert (E : processVideo new None "webm" env = (Fulfilled blob, new, []))
    by (vm_compute; reflexivity).
  split; [exact E|].
  exact (fallback_blob_holds_delivered_chunks new new None "webm" env blob [] E).
Defined.

Lemma step_flag (s : Session) (x : Step) :
  flag_follows_load s -> flag_follows_load (step s x).
Proof.
  unfold flag_follows_load. intro I.
  destruct x as [cb format | env | url loads]; cbn [step].
  - unfold processVideo_enter. destruct (isProcessing (this s)) eqn:B.
    + cbn [this awaiting]. now rewrite B.
    + reflexivity.
  - destruct (awaiting s) as [[cb format]|] eqn:A; [|now rewrite A].
    unfold processVideo_run. destruct (loadeddata env); reflexivity.
  - unfold loadFrame. destruct loads; exact I.
Qed.

Lemma steps_flag (xs : list Step) (s : Session) :
  flag_follows_load s -> flag_follows_load (steps xs s).
Proof.
  revert s. induction xs as [|x xs IH]; intros s I; simpl; [exact I|].
  apply IH. now apply step_flag.
Qed.

(** A call that nothing interrupts: invoked on an idle processor and
    followed by its load, it is [processVideo] as a whole. *)
Lemma uninterrupted_call (p : FallbackVideoProcessor) (cb : option Callback)
    (format : string) (env : Browser) :
  isProcessing p = false ->
  let s := steps [Invoke cb format; LoadSettles env] (fresh p) in
  results s = [(fst (fst (processVideo p cb format env)),
                snd (processVideo p cb format env))] /\
  this s = snd (fst (processVideo p cb format env)) /\
  awaiting s = None.
Proof.
  intros I s. subst s. unfold steps, fresh, processVideo. cbn [fold_left step this].
  unfold processVideo_enter. rewrite I. cbn [this awaiting results].
  destruct (processVideo_run _ cb format env) as [[out q] reports].
  repeat split.
Qed.

(** X7.  The busy flag of the fallback covers the load of the hidden
    video and nothing more.  Over any sequence of [processVideo] and
    [loadFrame] invocations and settled loads on a processor that was
    idle, [isProcessing] is set exactly while an invocation awaits its
    load.  A [processVideo] invoked in that window is refused with the
    busy error and changes nothing else; one invoked at any other moment
    is admitted, whatever recordings of earlier calls are still running,
    and no promise decided before is touched. *)
Theorem fallback_flag_covers_load_only
    (p : FallbackVideoProcessor) (xs : list Step) (cb : option Callback)
    (format : string) :
  isProcessing p = false ->
  let s := steps xs (fresh p) in
  isProcessing (this s) = truthy (awaiting s) /\
  (awaiting s <> None ->
   step s (Invoke cb format)
   = mkSession (this s) (awaiting s) (results s ++ [(Rejected busy_message, [])])) /\
  (awaiting s = None ->
   awaiting (step s (Invoke cb format)) = Some (cb, format) /\
   results (step s (Invoke cb format)) = results s /\
   isProcessing (this (step s (Invoke cb format))) = true).
Proof.
  intros I s. pose proof (steps_flag xs (fresh p) I) as F. fold s in F.
  unfold flag_follows_load in F. split; [exact F|].
  cbn [step]. unfold processVideo_enter. rewrite F. split.
  - intro A. destruct (awaiting s); [reflexivity | now elim A].
  - intros ->. cbn [truthy this awaiting results isProcessing]. repeat split.
Qed.

Lemma fallback_flag_covers_load_only_witness :
  let s := steps [Invoke (Some 1%nat) "webm"; LoadSettles MoreSamples.recording_browser]
                 (fresh new) in
  map fst (results s) = [StillPending] /\
  isProcessing (this s) = false /\
  awaiting (step s (Invoke (Some 2%nat) "webm")) = Some (Some 2%nat, "webm").
Proof.
  intro s.
  destruct (fallback_flag_covers_load_only new
              [Invoke (Some 1%nat) "webm"; LoadSettles MoreSamples.recording_browser]
              (Some 2%nat) "webm" eq_refl) as (A & _ & B).
  fold s in A, B.
  assert (N : awaiting s = None) by (vm_compute; reflexivity).
  split; [vm_compute; reflexivity|]. split; [now rewrite A, N|].
  exact (proj1 (B N)).
Defined.

(** X8.  Over one call of the fallback's [processVideo] the progress
    callback sees values that never decrease and lie between 0 and 1,
    provided the source has a positive duration and plays through without
    being sought. *)
Theorem fallback_call_progress_is_monotone
    (fb fb' : FallbackVideoProcessor) (cb : option Callback) (format : string)
    (env : Browser) (out : Outcome) (reports : list Report) :
  (0 < video_duration env)%Q ->
  plays (mkPlayhead 0 false false) (events env) ->
  processVideo fb cb format env = (out, fb', reports) ->
  StronglySorted Qle (Encoder.values reports) /\
  Forall (fun x => 0 <= x /\ x <= 1)%Q (Encoder.values reports).
Proof.
  intros D P. unfold processVideo, processVideo_enter, processVideo_run.
  destruct (isProcessing fb).
  - intro E. injection E as _ _ <-. split; constructor.
  - destruct (loadeddata env).
    + intro E. injection E as _ _ <-.
      exact (ProgressFacts.fallback_progress_nondecreasing _ _ cb _ _ D P).
    + intro E. injection E as _ _ <-. split; constructor.
Qed.

Lemma fallback_call_progress_is_monotone_witness :
  let env := mkBrowser (Ok tt) (fun _ => true) 5 short_run in
  let reports := [(1%nat, 0%Q); (1%nat, 0 # 5); (1%nat, 1%Q); (1%nat, 1%Q)] in
  processVideo new (Some 1%nat) "webm" env = (StillPending, new, reports) /\
  StronglySorted Qle (Encoder.values reports).
Proof.
  intros env reports.
  assert (E : processVideo new (Some 1%nat) "webm" env = (StillPending, new, reports))
    by (vm_compute; reflexivity).
  split; [exact E|].
  refine (proj1 (fallback_call_progress_is_monotone new new (Some 1%nat) "webm" env
                   StillPending reports _ _ E)).
  - reflexivity.
  - vm_compute. repeat split; discriminate.
Defined.

End FallbackJobFacts.

(** ** Jobs of VideoFrameProcessor.processVideo *)

Module FrameJobFacts.
Import FrameProcessor Invariants Samples.
Local Open Scope string_scope.

Lemma released_same (mime : string) (j j' : Job) :
  release_view j' = release_view j -> released mime j -> released mime j'.
Proof.
  unfold release_view, released. intros E R. injection E as -> -> ->. exact R.
Qed.

Lemma released_idle (mime : string) (j : Job) :
  released mime j -> released mime (set_busy false j).
Proof.
  intros (M & _ & T). split; [exact M|]. split; [reflexivity | exact T].
Qed.

Lemma released_settle_throw (mime e : string) (j : Job) :
  released mime j -> isProcessing (this j) = false ->
  released mime (settle (Throw e) j).
Proof.
  intros R I. pose proof R as (M & _ & _). unfold settle.
  destruct (settled j) eqn:S; [exact R|].
  split; [exact M|]. split; [intros _; exact I|]. cbn [settled]. discriminate.
Qed.

Lemma released_recorder_stop (mime : string) (j : Job) :
  released mime j -> released mime (recorder_stop j).
Proof.
  intros R. pose proof R as (M & _ & T). unfold recorder_stop.
  destruct (recorder j); [|exact R].
  unfold settle. cbn [settled set_busy].
  destruct (settled j) eqn:S.
  - split; [exact M|]. split; [reflexivity|]. cbn [settled]. exact T.
  - split; [exact M|]. split; [reflexivity|]. cbn [settled mimeType].
    intros b E. injection E as <-. exact M.
Qed.

Lemma release_cancel_frame j : release_view (cancel_frame j) = release_view j.
Proof. reflexivity. Qed.
Lemma release_clear_timeout j : release_view (clear_timeout j) = release_view j.
Proof. reflexivity. Qed.
Lemma release_request_frame j : release_view (request_frame j) = release_view j.
Proof. reflexivity. Qed.
Lemma release_frame_taken j : release_view (frame_taken j) = release_view j.
Proof. reflexivity. Qed.
Lemma release_report v j : release_view (report v j) = release_view j.
Proof. reflexivity. Qed.
Lemma release_draw_step t w h j : release_view (draw_step t w h j) = release_view j.
Proof. unfold draw_step. destruct (Qle_bool _ _); reflexivity. Qed.
Lemma release_ondataavailable c j : release_view (ondataavailable c j) = release_view j.
Proof. unfold ondataavailable. destruct (0 <? c)%N; reflexivity. Qed.

Lemma released_frame_loop (mime : string) (now : Q) (w h : Z) (j : Job) :
  released mime j -> released mime (frame_loop now w h j).
Proof.
  intro R. unfold frame_loop. destruct (negb (isProcessing (this j))).
  - apply released_recorder_stop. apply (released_same mime j); [reflexivity | exact R].
  - set (t := Math_min ((now - startTime j) / 1000) (duration j)).
    set (j1 := report _ (draw_step t w h j)).
    assert (R1 : released mime j1).
    { apply (released_same mime j); [|exact R].
      unfold j1. now rewrite release_report, release_draw_step. }
    destruct (Qle_bool (duration j1) t).
    + apply released_recorder_stop.
      apply (released_same mime j1); [reflexivity | exact R1].
    + apply (released_same mime j1); [reflexivity | exact R1].
Qed.

Lemma handle_released (mime : string) (e : Event) (j : Job) :
  released mime j -> released mime (handle e j).
Proof.
  intro R. destruct e as [now | now w h | | c | e |]; unfold handle.
  - destruct (loadedListener j); [|exact R].
    apply (released_same mime j); [reflexivity | exact R].
  - destruct (framePending j); [|exact R].
    apply released_frame_loop. apply (released_same mime j); [reflexivity | exact R].
  - destruct (processingTimeout j); [|exact R].
    unfold on_timeout. apply released_recorder_stop. apply released_idle.
    apply (released_same mime j); [reflexivity | exact R].
  - destruct (recorder j); [|exact R].
    apply (released_same mime j); [apply release_ondataavailable | exact R].
  - apply released_settle_throw; [|reflexivity]. apply released_idle.
    apply (released_same mime j); [reflexivity | exact R].
  - now apply released_idle.
Qed.

Lemma run_released (mime : string) (events : list Event) (j : Job) :
  released mime j -> released mime (run events j).
Proof.
  revert j. induction events as [|e events IH]; intros j R; simpl.
  - exact R.
  - apply IH. now apply handle_released.
Qed.

Lemma start_released (p : VideoFrameProcessor) (d : Q) (cb : option Callback)
    (mime : string) :
  released mime (start p d cb mime).
Proof. split; [reflexivity|]. split; [intro K; now elim K | discriminate]. Qed.

(** X9.  A settled promise of [VideoFrameProcessor.processVideo] means a
    released processor.  Whatever happens during the job, once the
    promise has resolved or rejected [isProcessing] is false, so the next
    call is not refused as busy. *)
Theorem settled_capture_releases_processor
    (p : VideoFrameProcessor) (d : Q) (cb : option Callback) (mime : string)
    (events : list Event) :
  let j := run events (start p d cb mime) in
  settled j <> None -> isProcessing (this j) = false.
Proof.
  intros j S.
  destruct (run_released mime events _ (start_released p d cb mime)) as (_ & R & _).
  exact (R S).
Qed.

Lemma settled_capture_releases_processor_witness :
  let j := run (stalled_capture ++ [RecorderError "encoder"])
               (start new 5 (Some 1%nat) "video/webm") in
  isProcessing (this (run stalled_capture (start new 5 (Some 1%nat) "video/webm")))
    = true /\
  settled j = Some (Throw "encoder") /\
  isProcessing (this j) = false.
Proof.
  intro j. split; [vm_compute; reflexivity|].
  assert (S : settled j = Some (Throw "encoder")) by (vm_compute; reflexivity).
  split; [exact S|].
  apply (settled_capture_releases_processor new 5 (Some 1%nat) "video/webm"
           (stalled_capture ++ [RecorderError "encoder"])).
  fold j. rewrite S. discriminate.
Defined.

Lemma capture_mimeType_webm (format : string) (isTypeSupported : string -> bool) :
  Str.startsWith "video/webm" (select_mimeType format isTypeSupported) = true /\
  Str.includes (select_mimeType format isTypeSupported) "mp4" = false.
Proof.
  unfold select_mimeType.
  destruct (String.eqb format "mp4");
    destruct (isTypeSupported "video/webm;codecs=vp9,opus");
    try (vm_compute; split; reflexivity);
    destruct (isTypeSupported "video/webm;codecs=h264,opus");
    vm_compute; split; reflexivity.
Qed.

(** X10.  [VideoFrameProcessor.processVideo] never delivers MP4.  For
    every requested format, "mp4" included, and whatever the browser
    supports, a blob the promise resolves with has the type chosen at the
    start, which begins with video/webm and names no MP4; for "mp4" on a
    browser without VP9 and H.264 it is VP8 in WebM. *)
Theorem capture_blob_is_always_webm
    (p : VideoFrameProcessor) (d : Q) (cb : option Callback) (format : string)
    (isTypeSupported : string -> bool) (events : list Event) (b : Blob) :
  let mime := select_mimeType format isTypeSupported in
  settled (run events (start p d cb mime)) = Some (Ok b) ->
  blob_type b = mime /\
  Str.startsWith "video/webm" (blob_type b) = true /\
  Str.includes (blob_type b) "mp4" = false /\
  (format = "mp4" ->
   isTypeSupported "video/webm;codecs=vp9,opus" = false ->
   isTypeSupported "video/webm;codecs=h264,opus" = false ->
   blob_type b = "video/webm;codecs=vp8,opus").
Proof.
  intros mime S.
  destruct (run_released mime events _ (start_released p d cb mime)) as (_ & _ & T).
  rewrite (T b S). split; [reflexivity|].
  destruct (capture_mimeType_webm format isTypeSupported) as (A & B).
  split; [exact A|]. split; [exact B|].
  intros -> V H. unfold mime, select_mimeType. cbn [String.eqb Ascii.eqb Bool.eqb].
  now rewrite V, H.
Qed.

Lemma capture_blob_is_always_webm_witness :
  let j := run (stalled_capture ++ [TimeoutFires])
               (start new 5 (Some 1%nat) (select_mimeType "mp4" (fun _ => false))) in
  let blob := mkBlob "video/webm;codecs=vp8,opus" [4096%N; 2048%N] in
  settled j = Some (Ok blob) /\
  Str.includes (blob_type blob) "mp4" = false.
Proof.
  intros j blob.
  assert (S : settled j = Some (Ok blob)) by (vm_compute; reflexivity).
  split; [exact S|].
  exact (proj1 (proj2 (proj2 (capture_blob_is_always_webm new 5 (Some 1%nat) "mp4"
           (fun _ => false) (stalled_capture ++ [TimeoutFires]) blob S)))).
Defined.

Lemma final_cancel_frame j :
  final_view (cancel_frame j)
  = (duration j, reported j, loadedListener j,
     if animationId j then false else framePending j).
Proof. reflexivity. Qed.
Lemma final_clear_timeout j : final_view (clear_timeout j) = final_view j.
Proof. reflexivity. Qed.
Lemma final_set_busy b j : final_view (set_busy b j) = final_view j.
Proof. reflexivity. Qed.
Lemma final_settle r j : final_view (settle r j) = final_view j.
Proof. unfold settle. destruct (settled j); reflexivity. Qed.
Lemma final_recorder_stop j : final_view (recorder_stop j) = final_view j.
Proof.
  unfold recorder_stop. destruct (recorder j); [|reflexivity].
  now rewrite final_settle, final_set_busy.
Qed.
Lemma final_ondataavailable c j : final_view (ondataavailable c j) = final_view j.
Proof. unfold ondataavailable. destruct (0 <? c)%N; reflexivity. Qed.
Lemma final_draw_step t w h j : final_view (draw_step t w h j) = final_view j.
Proof. unfold draw_step. destruct (Qle_bool _ _); reflexivity. Qed.

(** Cancelling the requested frame keeps what holds of the final report. *)
Lemma final_weaken (d dur : Q) (r : list Report) (l f a : bool) :
  final_ok d (dur, r, l, f) -> final_ok d (dur, r, l, if a then false else f).
Proof.
  intros I. pose proof I as (D & A & B & C). destruct a; [|exact I].
  split; [exact D|]. split; [exact A|]. split.
  - intros [K | K]; [apply B; now left | discriminate].
  - reflexivity.
Qed.

(** Before the end of the source the progress value stays below 1. *)
Lemma progress_below_one (d t : Q) :
  (0 < d)%Q -> Qle_bool d t = false -> Qeq_bool (Math_min (t / d) 1) 1 = false.
Proof.
  intros D L.
  assert (T : (t < d)%Q).
  { apply Qnot_le_lt. intro K. apply Qle_bool_iff in K. congruence. }
  assert (B : (t / d < 1)%Q) by (apply Qlt_shift_div_r; [exact D | lra]).
  pose proof (ProgressFacts.Math_min_le_l (t / d) 1) as M.
  destruct (Qeq_bool _ 1) eqn:E; [|reflexivity].
  apply Qeq_bool_iff in E. lra.
Qed.

Lemma finals_app (r r' : list Report) : finals (r ++ r') = (finals r ++ finals r')%list.
Proof. apply filter_app. Qed.

Lemma finals_removelast (r : list Report) :
  finals r = [] -> finals (removelast r) = [].
Proof.
  destruct r as [|x r] using rev_ind; [reflexivity|].
  rewrite removelast_last, finals_app. intro F. now apply app_eq_nil in F.
Qed.

Lemma finals_before_call (r : list Report) (cb : option Callback) (v : Q) :
  finals r = [] -> finals (removelast (r ++ call_if_set cb v)) = [].
Proof.
  intro F. destruct cb as [f|]; cbn [call_if_set].
  - now rewrite removelast_last.
  - rewrite app_nil_r. now apply finals_removelast.
Qed.

Lemma frame_loop_final (d now : Q) (w h : Z) (j : Job) :
  (0 < d)%Q -> duration j = d -> finals (reported j) = [] ->
  loadedListener j = false -> framePending j = false ->
  final_once d (frame_loop now w h j).
Proof.
  intros D E F L P. unfold final_once, frame_loop.
  destruct (negb (isProcessing (this j))).
  - rewrite final_recorder_stop, final_clear_timeout, final_cancel_frame, L, P.
    split; [exact E|]. split; [now apply finals_removelast|].
    split; [intros _; exact F | destruct (animationId j); reflexivity].
  - set (t := Math_min ((now - startTime j) / 1000) (duration j)).
    pose proof (final_draw_step t w h j) as S. unfold final_view in S.
    injection S as S1 S2 S3 S4.
    assert (O : onProgress (draw_step t w h j) = onProgress j).
    { unfold draw_step. destruct (Qle_bool _ _); reflexivity. }
    set (j1 := report _ (draw_step t w h j)).
    assert (D1 : duration j1 = d) by (unfold j1; cbn [duration report]; congruence).
    assert (L1 : loadedListener j1 = false)
      by (unfold j1; cbn [loadedListener report]; congruence).
    assert (P1 : framePending j1 = false)
      by (unfold j1; cbn [framePending report]; congruence).
    assert (R1 : reported j1
                 = (reported j ++ call_if_set (onProgress j) (Math_min (t / d) 1))%list).
    { unfold j1. cbn [reported report]. now rewrite S1, S2, O, E. }
    rewrite D1. destruct (Qle_bool d t) eqn:Q.
    + rewrite final_recorder_stop, final_clear_timeout, final_cancel_frame.
      rewrite D1, R1, L1, P1.
      split; [reflexivity|]. split; [now apply finals_before_call|].
      split; [|discriminate].
      intros [K | K]; [discriminate | destruct (animationId j1); discriminate].
    + change (final_view (request_frame j1))
        with (duration j1, reported j1, loadedListener j1, true).
      rewrite D1, R1, L1.
      assert (N : finals (reported j ++ call_if_set (onProgress j) (Math_min (t / d) 1))
                  = []).
      { rewrite finals_app, F. destruct (onProgress j) as [cb|]; [|reflexivity].
        cbn [call_if_set finals filter snd app].
        now rewrite (progress_below_one d t D Q). }
      split; [reflexivity|]. split; [now apply finals_before_call|].
      split; [intros _; exact N | discriminate].
Qed.

Lemma handle_final (d : Q) (e : Event) (j : Job) :
  (0 < d)%Q -> final_once d j -> final_once d (handle e j).
Proof.
  intros D I. pose proof I as (E & A & B & C).
  destruct e as [now | now w h | | c | e |]; unfold handle.
  - destruct (loadedListener j) eqn:L; [|exact I].
    split; [exact E|]. split; [exact A|].
    split; [intros _; apply B; now left | discriminate].
  - destruct (framePending j) eqn:P; [|exact I].
    apply frame_loop_final; try assumption; try reflexivity.
    + apply B. now right.
    + cbn [loadedListener frame_taken]. destruct (loadedListener j); [|reflexivity].
      discriminate (C eq_refl).
  - destruct (processingTimeout j); [|exact I].
    unfold final_once, on_timeout.
    rewrite final_recorder_stop, final_set_busy, final_cancel_frame.
    apply (final_weaken d _ _ _ _ (animationId (clear_timeout j))). exact I.
  - destruct (recorder j); [|exact I].
    unfold final_once. rewrite final_ondataavailable. exact I.
  - unfold final_once.
    rewrite final_settle, final_set_busy, final_clear_timeout, final_cancel_frame.
    apply (final_weaken d _ _ _ _ (animationId j)). exact I.
  - exact I.
Qed.

Lemma run_final (d : Q) (events : list Event) (j : Job) :
  (0 < d)%Q -> final_once d j -> final_once d (run events j).
Proof.
  intro D. revert j. induction events as [|e events IH]; intros j I; simpl.
  - exact I.
  - apply IH. now apply handle_final.
Qed.

(** X11.  [VideoFrameProcessor.processVideo] reports completion at most
    once and last.  Over a source of positive duration, whatever the order
    and timing of the events, no call of the progress callback before the
    latest one carries the value 1: a call with 1 ends the frame loop. *)
Theorem capture_reports_completion_last
    (p : VideoFrameProcessor) (d : Q) (cb : option Callback) (mime : string)
    (events : list Event) :
  (0 < d)%Q ->
  let reports := reported (run events (start p d cb mime)) in
  finals (removelast reports) = [] /\ (List.length (finals reports) <= 1)%nat.
Proof.
  intros D reports.
  destruct (run_final d events (start p d cb mime) D) as (_ & A & _).
  { split; [reflexivity|]. split; [reflexivity|].
    split; [reflexivity | reflexivity]. }
  fold reports in A. split; [exact A|].
  destruct reports as [|x r] using rev_ind; [apply Nat.le_0_l|].
  rewrite removelast_last in A. rewrite finals_app, A. cbn [app finals filter].
  destruct (Qeq_bool (snd x) 1); cbn [List.length]; [apply Nat.le_refl | apply Nat.le_0_l].
Qed.

Lemma capture_reports_completion_last_witness :
  let reports :=
    reported (run MoreSamples.finished_capture (start new 5 (Some 1%nat) "video/webm")) in
  List.length reports = 2%nat /\
  List.length (finals reports) = 1%nat /\
  finals (removelast reports) = [].
Proof.
  intro reports. split; [vm_compute; reflexivity|].
  split; [vm_compute; reflexivity|].
  exact (proj1 (capture_reports_completion_last new 5 (Some 1%nat) "video/webm"
                  MoreSamples.finished_capture eq_refl)).
Defined.

(** X12.  [stopProcessing] takes effect at the next frame.  It only
    clears the busy flag; when the frame that was requested comes, the
    loop draws and reports nothing more, clears the guard timer and stops
    the recorder, and the promise resolves with the chunks recorded so
    far. *)
Theorem stop_request_resolves_at_next_frame
    (j : Job) (now : Q) (videoWidth videoHeight : Z) :
  framePending j = true -> recorder j = recording -> settled j = None ->
  let stopped := handle StopProcessing j in
  let j' := handle (AnimationFrame now videoWidth videoHeight) stopped in
  settled stopped = None /\ recorder stopped = recording /\
  settled j' = Some (Ok (mkBlob (mimeType j) (chunks j))) /\
  processingTimeout j' = None /\
  framePending j' = false /\
  reported j' = reported j /\
  canvas j' = canvas j /\
  frameCount j' = frameCount j.
Proof.
  intros P R S stopped j'.
  split; [exact S|]. split; [exact R|].
  unfold j', stopped. clear j' stopped.
  destruct j as [th d cb mime listener aid pending timer t0 tl n rec ch st rep cv].
  cbn [framePending recorder settled] in P, R, S. subst pending rec st.
  destruct aid; cbv; repeat split.
Qed.

Lemma stop_request_resolves_at_next_frame_witness :
  let j := run stalled_capture (start new 5 (Some 1%nat) "video/webm") in
  let j' := handle (AnimationFrame 50 1920 1080) (handle StopProcessing j) in
  settled j = None /\
  settled j' = Some (Ok (mkBlob "video/webm" [4096%N; 2048%N])) /\
  processingTimeout j' = None /\
  reported j' = reported j.
Proof.
  intros j j'.
  assert (P : framePending j = true) by (vm_compute; reflexivity).
  assert (R : recorder j = recording) by (vm_compute; reflexivity).
  assert (S : settled j = None) by (vm_compute; reflexivity).
  destruct (stop_request_resolves_at_next_frame j 50 1920 1080 P R S)
    as (_ & _ & A & B & _ & C & _).
  split; [exact S|]. split; [|split; [exact B | exact C]].
  fold j' in A. rewrite A. vm_compute. reflexivity.
Defined.

End FrameJobFacts.

(** ** Jobs of VideoFrameProcessor.processVideoSimple *)

Module SimpleJobFacts.
Import Simple Invariants.
Local Open Scope string_scope.

Lemma once_set_busy b j : once_view (set_busy b j) = once_view j.
Proof. reflexivity. Qed.
Lemma once_settle r j : once_view (settle r j) = once_view j.
Proof. unfold settle. destruct (settled j); reflexivity. Qed.
Lemma once_recorder_stop j : once_view (recorder_stop j) = once_view j.
Proof.
  unfold recorder_stop. destruct (recorder j); [|reflexivity].
  now rewrite once_settle, once_set_busy.
Qed.
Lemma once_ondataavailable c j : once_view (ondataavailable c j) = once_view j.
Proof. unfold ondataavailable. destruct (0 <? c)%N; reflexivity. Qed.

Lemma once_cancel (d dur : Q) (play aid pending : bool) (r : list Report) :
  once_ok d (dur, play, aid, pending, r) ->
  once_ok d (dur, play, aid, if aid then false else pending, r).
Proof.
  intros I. pose proof I as (D & A & B & C). destruct aid; [|exact I].
  split; [exact D|]. split; [|split; [discriminate | exact C]].
  intro K. split; [apply A, K | reflexivity].
Qed.

Lemma updateFrame_once (d now : Q) (v : Video) (j : Job) :
  (0 < d)%Q -> duration j = d -> playPending j = false -> framePending j = false ->
  finals (reported j) = [] ->
  once d (updateFrame now v j).
Proof.
  intros D E P F N. unfold once, updateFrame.
  destruct (negb (FrameProcessor.isProcessing (this j)) || ended v) eqn:B;
    cbn [orb].
  - change (once_view (schedule_stop (report 1 (cancel_frame j))))
      with (duration j, playPending j, animationId j,
            (if animationId j then false else framePending j),
            (reported j ++ call_if_set (onProgress j) 1)%list).
    rewrite E, P, F.
    split; [reflexivity|]. split; [discriminate|].
    split; [destruct (animationId j); discriminate|].
    now apply FrameJobFacts.finals_before_call.
  - destruct (Qle_bool (duration j) (currentTime v)) eqn:Q.
    + change (once_view (schedule_stop (report 1 (cancel_frame j))))
        with (duration j, playPending j, animationId j,
              (if animationId j then false else framePending j),
              (reported j ++ call_if_set (onProgress j) 1)%list).
      rewrite E, P, F.
      split; [reflexivity|]. split; [discriminate|].
      split; [destruct (animationId j); discriminate|].
      now apply FrameJobFacts.finals_before_call.
    + unfold draw_turn, once_view.
      cbn [duration playPending animationId framePending reported].
      rewrite E, P. rewrite E in Q.
      set (due := truthy (onProgress j) && _).
      assert (R : finals (if due
                          then (reported j ++ call_if_set (onProgress j)
                                  (Math_min (currentTime v / d) 1))%list
                          else reported j) = []).
      { destruct due; [|exact N]. rewrite FrameJobFacts.finals_app, N.
        destruct (onProgress j) as [cb|]; [|reflexivity].
        cbn [call_if_set finals filter snd app].
        now rewrite (FrameJobFacts.progress_below_one d _ D Q). }
      split; [reflexivity|]. split; [discriminate|].
      split; [intros _; split; [reflexivity | exact R]|].
      now apply FrameJobFacts.finals_removelast.
Qed.

Lemma handle_once (d : Q) (e : Event) (j : Job) :
  (0 < d)%Q -> once d j -> once d (handle e j).
Proof.
  intros D I. pose proof I as (E & A & B & C).
  destruct e as [now v | e | now v | | | c | e |]; unfold handle.
  - destruct (playPending j) eqn:P; [|exact I].
    destruct (A eq_refl) as (R & F).
    apply updateFrame_once; try assumption; try reflexivity.
    cbn [reported report play_settled onProgress]. rewrite R.
    destruct (onProgress j); reflexivity.
  - destruct (playPending j) eqn:P; [|exact I].
    unfold once. rewrite once_settle, once_set_busy.
    destruct (A eq_refl) as (R & F).
    change (once_view (play_settled j))
      with (duration j, false, animationId j, framePending j, reported j).
    rewrite F, R. split; [exact E|]. split; [discriminate|].
    split; [discriminate | reflexivity].
  - destruct (framePending j) eqn:F; [|exact I].
    destruct (B eq_refl) as (_ & N).
    apply updateFrame_once; try assumption; try reflexivity.
    cbn [playPending frame_taken]. destruct (playPending j); [|reflexivity].
    destruct (A eq_refl) as (_ & K). discriminate K.
  - apply (once_cancel d _ _ _ _ _ I).
  - destruct (stopTimers j); [exact I|].
    unfold once. rewrite once_recorder_stop. exact I.
  - destruct (recorder j); [|exact I].
    unfold once. rewrite once_ondataavailable. exact I.
  - unfold once. rewrite once_settle, once_set_busy. exact I.
  - exact I.
Qed.

Lemma run_once (d : Q) (events : list Event) (j : Job) :
  (0 < d)%Q -> once d j -> once d (run events j).
Proof.
  intro D. revert j. induction events as [|e events IH]; intros j I; simpl.
  - exact I.
  - apply IH. now apply handle_once.
Qed.

Lemma start_once (p : FrameProcessor.VideoFrameProcessor) (d : Q)
    (cb : option Callback) (mime : string) :
  once d (start p d cb mime).
Proof.
  split; [reflexivity|]. split; [intros _; split; reflexivity|].
  split; [discriminate | reflexivity].
Qed.

(** X13.  [processVideoSimple] reports completion at most once and
    last.  Over a source of positive duration, whatever the order and
    timing of the events, no call of the progress callback before the
    latest one carries the value 1. *)
Theorem simple_reports_completion_last
    (p : FrameProcessor.VideoFrameProcessor) (d : Q) (cb : option Callback)
    (mime : string) (events : list Event) :
  (0 < d)%Q ->
  let reports := reported (run events (start p d cb mime)) in
  finals (removelast reports) = [] /\ (List.length (finals reports) <= 1)%nat.
Proof.
  intros D reports.
  destruct (run_once d events _ D (start_once p d cb mime)) as (_ & _ & _ & A).
  fold reports in A. split; [exact A|].
  destruct reports as [|x r] using rev_ind; [apply Nat.le_0_l|].
  rewrite removelast_last in A. rewrite FrameJobFacts.finals_app, A.
  cbn [app finals filter].
  destruct (Qeq_bool (snd x) 1); cbn [List.length]; [apply Nat.le_refl | apply Nat.le_0_l].
Qed.

Lemma simple_reports_completion_last_witness :
  let reports :=
    reported (run (MoreSamples.simple_frames ++ MoreSamples.simple_loop_end)
                  (start FrameProcessor.new 5 (Some 1%nat) "video/webm")) in
  List.length reports = 4%nat /\
  List.length (finals reports) = 1%nat /\
  finals (removelast reports) = [].
Proof.
  intro reports. split; [vm_compute; reflexivity|].
  split; [vm_compute; reflexivity|].
  exact (proj1 (simple_reports_completion_last FrameProcessor.new 5 (Some 1%nat)
                  "video/webm"
                  (MoreSamples.simple_frames ++ MoreSamples.simple_loop_end) eq_refl)).
Defined.

Lemma rest_set_busy b j : rest_view (set_busy b j) = rest_view j.
Proof. reflexivity. Qed.
Lemma rest_settle r j : rest_view (settle r j) = rest_view j.
Proof. unfold settle. destruct (settled j); reflexivity. Qed.
Lemma rest_recorder_stop j : rest_view (recorder_stop j) = rest_view j.
Proof.
  unfold recorder_stop. destruct (recorder j); [|reflexivity].
  now rewrite rest_settle, rest_set_busy.
Qed.

(** Once [play()] has settled and no frame is requested, no event
    requests a frame or reports anything. *)
Lemma handle_rest (e : Event) (j : Job) :
  playPending j = false -> framePending j = false ->
  rest_view (handle e j) = rest_view j.
Proof.
  intros P F. destruct e as [now v | e | now v | | | c | e |]; unfold handle.
  - now rewrite P.
  - now rewrite P.
  - now rewrite F.
  - unfold rest_view. cbn [playPending framePending reported schedule_stop cancel_frame].
    rewrite F. now destruct (animationId j).
  - destruct (stopTimers j); [reflexivity|]. now rewrite rest_recorder_stop.
  - destruct (recorder j); [|reflexivity].
    unfold ondataavailable. destruct (0 <? c)%N; reflexivity.
  - now rewrite rest_settle.
  - reflexivity.
Qed.

Lemma run_rest (events : list Event) (j : Job) :
  playPending j = false -> framePending j = false ->
  rest_view (run events j) = rest_view j.
Proof.
  revert j. induction events as [|e events IH]; intros j P F; simpl; [reflexivity|].
  pose proof (handle_rest e j P F) as H.
  assert (H1 : playPending (handle e j) = false).
  { pose proof (f_equal (fun v => fst (fst v)) H) as K. cbn [fst rest_view] in K.
    congruence. }
  assert (H2 : framePending (handle e j) = false).
  { pose proof (f_equal (fun v => snd (fst v)) H) as K. cbn [fst snd rest_view] in K.
    congruence. }
  rewrite (IH _ H1 H2). exact H.
Qed.

(** X14.  When the source ends while a frame of [processVideoSimple] is
    requested, completion is never reported.  The [onended] handler
    cancels the requested frame and schedules the stop without calling
    the callback: whatever follows, the callback is not called again and
    has never been called with 1, yet the promise resolves with the
    recording when the stop timer fires. *)
Theorem natural_end_skips_final_report
    (p : FrameProcessor.VideoFrameProcessor) (d : Q) (cb : option Callback)
    (mime : string) (before after : list Event) :
  (0 < d)%Q ->
  let j := run before (start p d cb mime) in
  framePending j = true ->
  let ended := handle VideoEnded j in
  reported (run after ended) = reported j /\
  finals (reported (run after ended)) = [] /\
  (recorder j = FrameProcessor.recording -> settled j = None ->
   settled (handle TimerFires ended) = Some (Ok (mkBlob (mimeType j) (chunks j)))).
Proof.
  intros D j F ended.
  destruct (run_once d before _ D (start_once p d cb mime)) as (_ & A & B & _).
  fold j in A, B. destruct (B F) as (Aid & N).
  assert (P : playPending j = false).
  { destruct (playPending j); [|reflexivity].
    destruct (A eq_refl) as (_ & K). congruence. }
  assert (V1 : playPending ended = false) by exact P.
  assert (V2 : framePending ended = false).
  { unfold ended, handle. cbn [framePending schedule_stop cancel_frame].
    now rewrite Aid. }
  assert (V3 : reported ended = reported j) by reflexivity.
  pose proof (f_equal snd (run_rest after ended V1 V2)) as R.
  unfold rest_view in R. cbn [snd] in R. rewrite R, V3.
  split; [reflexivity|]. split; [exact N|].
  intros Rec S. unfold ended. clearbody j. clear - Rec S.
  destruct j as [th dur prog mt play aid pending upd timers rec ch st rep cv].
  cbn [recorder settled] in Rec, S. subst rec st. reflexivity.
Qed.

Lemma natural_end_skips_final_report_witness :
  let j := run MoreSamples.simple_frames
               (start FrameProcessor.new 5 (Some 1%nat) "video/webm") in
  let ended := handle VideoEnded j in
  framePending j = true /\
  reported (run MoreSamples.simple_loop_end ended) = reported j /\
  finals (reported (run MoreSamples.simple_loop_end ended)) = [] /\
  settled (run MoreSamples.simple_loop_end ended)
    = Some (Ok (mkBlob "video/webm" [4096%N])).
Proof.
  intros j ended.
  assert (F : framePending j = true) by (vm_compute; reflexivity).
  destruct (natural_end_skips_final_report FrameProcessor.new 5 (Some 1%nat)
              "video/webm" MoreSamples.simple_frames MoreSamples.simple_loop_end
              eq_refl F) as (A & B & _).
  split; [exact F|]. split; [exact A|]. split; [exact B|].
  vm_compute. reflexivity.
Defined.

End SimpleJobFacts.

(** ** PhotoEditor *)

Module PhotoFacts.
Import Compositor Photo.
Local Open Scope Q_scope.

(** X15.  The PhotoEditor first shows the whole picture.  For an image
    of positive width and height, the placement computed on load and by
    the reset button draws the image fitted inside the 1080x1920 canvas:
    centred, in its own aspect ratio and crossing no edge; the reset
    button returns to it from any position. *)
Theorem photo_fit_is_fit_inside (w h : Z) (prev : ImagePosition) :
  (0 < w)%Z -> (0 < h)%Z ->
  let r := drawCanvas_rect w h (resetImage (Some (w, h)) prev) in
  resetImage (Some (w, h)) prev = fit_position w h /\
  rect_eq r (spec_fit_inside w h) /\
  inside_target r /\
  keeps_aspect r w h /\
  offsetX r + drawWidth r / 2 == 540 /\ offsetY r + drawHeight r / 2 == 960.
Proof.
  intros Hw Hh r.
  pose proof (inject_Z_pos w Hw) as Hw'. pose proof (inject_Z_pos h Hh) as Hh'.
  assert (E : rect_eq r (spec_fit_inside w h)).
  { unfold r, resetImage, drawCanvas_rect, fit_position, spec_fit_inside, rect_eq,
      CANVAS_WIDTH, CANVAS_HEIGHT.
    cbv zeta. destruct (Qgtb _ _);
      cbn [pos_x pos_y pos_scale offsetX offsetY drawWidth drawHeight
           spec_fit_width spec_fit_height];
      repeat split; field; lra. }
  split; [reflexivity|]. split; [exact E|].
  destruct E as (E1 & E2 & E3 & E4).
  pose proof (CompositorFacts.fit_inside w h Hw Hh) as (I1 & I2 & I3 & I4).
  pose proof (CompositorFacts.fit_keeps_aspect w h Hw Hh) as K.
  split; [|split; [|split]].
  - unfold inside_target. rewrite E1, E2, E3, E4. repeat split; assumption.
  - unfold keeps_aspect in *. now rewrite E3, E4.
  - unfold r, resetImage, drawCanvas_rect, fit_position, CANVAS_WIDTH.
    cbn [pos_x pos_y pos_scale offsetX offsetY drawWidth drawHeight]. field.
  - unfold r, resetImage, drawCanvas_rect, fit_position, CANVAS_HEIGHT.
    cbn [pos_x pos_y pos_scale offsetX offsetY drawWidth drawHeight]. field.
Qed.

Lemma photo_fit_is_fit_inside_witness :
  let r := drawCanvas_rect 4000 3000 (resetImage (Some (4000, 3000)%Z)
                                        (mkPosition 0 0 3)) in
  drawWidth r == 1080 /\ drawHeight r == 810 /\ offsetY r == 555 /\
  inside_target r.
Proof.
  intro r. split; [reflexivity|]. split; [reflexivity|]. split; [reflexivity|].
  exact (proj1 (proj2 (proj2 (photo_fit_is_fit_inside 4000 3000 (mkPosition 0 0 3)
                                eq_refl eq_refl)))).
Defined.

Lemma Math_max_ge_r (a b : Q) : b <= Photo.Math_max a b.
Proof.
  unfold Math_max. destruct (Qle_bool a b) eqn:E; [lra|].
  apply Qlt_le_weak, Qnot_le_lt. intro H. apply Qle_bool_iff in H. congruence.
Qed.

Lemma Math_max_ge_l (a b : Q) : a <= Photo.Math_max a b.
Proof.
  unfold Math_max. destruct (Qle_bool a b) eqn:E; [|lra]. now apply Qle_bool_iff.
Qed.

Lemma Math_max_lub (a b c : Q) : a <= c -> b <= c -> Photo.Math_max a b <= c.
Proof. intros. unfold Math_max. destruct (Qle_bool a b); assumption. Qed.

Lemma press_in_range (p : ImagePosition) (c : Control) :
  0.1 <= pos_scale p <= 3 ->
  0.1 <= pos_scale (press p c) <= 3 /\
  pos_x (press p c) = pos_x p /\ pos_y (press p c) = pos_y p.
Proof.
  intros (L & U). destruct c; cbn [press zoomIn zoomOut pos_scale pos_x pos_y].
  - split; [|split; reflexivity]. split.
    + apply ProgressFacts.Math_min_glb; lra.
    + apply ProgressFacts.Math_min_le_r.
  - split; [|split; reflexivity]. split.
    + apply Math_max_ge_r.
    + apply Math_max_lub; lra.
Qed.

Lemma zoom_stays_in_range_aux (p : ImagePosition) (presses : list Control) :
  0.1 <= pos_scale p <= 3 -> 0.1 <= pos_scale (fold_left press presses p) <= 3.
Proof.
  revert p. induction presses as [|c presses IH]; intros p R; simpl; [exact R|].
  apply IH. apply (press_in_range p c R).
Qed.

(** X16.  The zoom buttons keep the scale between 0.1 and 3 and never
    move the image.  From a scale in that range, any sequence of Zoom In
    and Zoom Out presses leaves the scale in the range and the centre of
    the image where it was. *)
Theorem zoom_stays_in_range (p : ImagePosition) (presses : list Control) :
  0.1 <= pos_scale p <= 3 ->
  let q := fold_left press presses p in
  0.1 <= pos_scale q <= 3 /\ pos_x q = pos_x p /\ pos_y q = pos_y p.
Proof.
  revert p. induction presses as [|c presses IH]; intros p R; simpl.
  - split; [exact R | split; reflexivity].
  - destruct (press_in_range p c R) as (R' & X & Y).
    destruct (IH (press p c) R') as (A & B & C).
    split; [exact A|]. split; congruence.
Qed.

Lemma zoom_stays_in_range_witness :
  let p := fit_position 4000 3000 in
  let q := fold_left press (repeat ZoomIn 40 ++ repeat ZoomOut 3) p in
  0.1 <= pos_scale p <= 3 /\ 0.1 <= pos_scale q <= 3 /\ pos_x q = 1080 / 2.
Proof.
  intros p q.
  assert (R : 0.1 <= pos_scale p <= 3) by (vm_compute; split; discriminate).
  destruct (zoom_stays_in_range p (repeat ZoomIn 40 ++ repeat ZoomOut 3) R)
    as (A & B & _).
  split; [exact R|]. split; [exact A | exact B].
Defined.

(** X17.  On a small picture Zoom In zooms out.  An image narrower than
    360 and lower than 640 pixels is first shown at a scale above 3; the
    first press of Zoom In sets the scale to 3, which is smaller, and
    Zoom Out cannot bring back the initial scale. *)
Theorem zoom_in_shrinks_small_picture (w h : Z) :
  (0 < w < 360)%Z -> (0 < h < 640)%Z ->
  let p := fit_position w h in
  3 < pos_scale p /\
  pos_scale (zoomIn p) == 3 /\
  pos_scale (zoomIn p) < pos_scale p /\
  forall presses, pos_scale (fold_left press presses (zoomIn p)) <= 3.
Proof.
  intros (Hw & Hw') (Hh & Hh') p.
  pose proof (inject_Z_pos w Hw) as W. pose proof (inject_Z_pos h Hh) as H.
  assert (W' : inject_Z w < 360).
  { change 360 with (inject_Z 360). now rewrite <- Zlt_Qlt. }
  assert (H' : inject_Z h < 640).
  { change 640 with (inject_Z 640). now rewrite <- Zlt_Qlt. }
  assert (S : 3 < pos_scale p).
  { unfold p, fit_position, CANVAS_WIDTH, CANVAS_HEIGHT. cbv zeta.
    destruct (Qgtb _ _); cbn [pos_scale]; apply Qlt_shift_div_l; lra. }
  assert (Z3 : pos_scale (zoomIn p) == 3).
  { cbn [zoomIn pos_scale]. unfold Math_min.
    destruct (Qle_bool (pos_scale p * 1.1) 3) eqn:E; [|reflexivity].
    apply Qle_bool_iff in E. lra. }
  split; [exact S|]. split; [exact Z3|]. split; [lra|].
  intro presses.
  destruct (zoom_stays_in_range_aux (zoomIn p) presses) as (_ & B); [|exact B].
  rewrite Z3. lra.
Qed.

Lemma zoom_in_shrinks_small_picture_witness :
  let p := fit_position 300 300 in
  pos_scale p == 18 # 5 /\ pos_scale (zoomIn p) == 3.
Proof.
  intro p. split; [reflexivity|].
  exact (proj1 (proj2 (zoom_in_shrinks_small_picture 300 300
                         (conj eq_refl eq_refl) (conj eq_refl eq_refl)))).
Defined.

(** X18.  Dragging moves the image with the pointer.  With the canvas
    mounted and shown at a positive size, a press at one point followed
    by a move to another shifts the centre of the image by the pointer's
    displacement converted to canvas pixels and leaves the scale alone;
    moving back to the point of the press restores the position; and a
    move without a press, or after the release, changes nothing. *)
Theorem drag_follows_pointer (rect : ClientRect) (down move : MouseEvent) (s : Editor) :
  0 < rect_width rect -> 0 < rect_height rect ->
  let pressed := handleMouseDown (Some rect) down s in
  let dragged := handleMouseMove (Some rect) move pressed in
  let p := imagePosition s in
  pos_x (imagePosition dragged)
    == pos_x p + (clientX move - clientX down) * (CANVAS_WIDTH / rect_width rect) /\
  pos_y (imagePosition dragged)
    == pos_y p + (clientY move - clientY down) * (CANVAS_HEIGHT / rect_height rect) /\
  pos_scale (imagePosition dragged) = pos_scale p /\
  (let back := imagePosition (handleMouseMove (Some rect) down dragged) in
   pos_x back == pos_x p /\ pos_y back == pos_y p) /\
  (isDragging s = false -> handleMouseMove (Some rect) move s = s) /\
  handleMouseMove (Some rect) move (handleMouseUp dragged) = handleMouseUp dragged.
Proof.
  intros Hw Hh pressed dragged p.
  unfold dragged, pressed, handleMouseMove, handleMouseDown, handleMouseUp,
    canvas_point, p.
  cbn [isDragging negb imagePosition dragStart pos_x pos_y pos_scale fst snd].
  split; [field; lra|]. split; [field; lra|]. split; [reflexivity|].
  split; [split; field; lra|]. split; [|reflexivity].
  intros ->. reflexivity.
Qed.

Lemma drag_follows_pointer_witness :
  let rect := mkClientRect 20 100 270 480 in
  let s := mkEditor (mkPosition 540 960 1) false (0, 0) in
  let dragged :=
    handleMouseMove (Some rect) (mkMouse 130 240)
      (handleMouseDown (Some rect) (mkMouse 120 200) s) in
  pos_x (imagePosition dragged) == 580 /\ pos_y (imagePosition dragged) == 1120.
Proof.
  intros rect s dragged.
  destruct (drag_follows_pointer rect (mkMouse 120 200) (mkMouse 130 240) s
              eq_refl eq_refl) as (X & Y & _).
  split.
  - fold dragged in X. rewrite X. reflexivity.
  - fold dragged in Y. rewrite Y. reflexivity.
Defined.

End PhotoFacts.

(** ** VideoEditor: time display, seeking, loading and export *)

Module EditorFacts.
Import Editor.

Lemma Qfloor_unique (x : Q) (k : Z) :
  (inject_Z k <= x)%Q -> (x < inject_Z (k + 1))%Q -> Qfloor x = k.
Proof.
  intros L U.
  pose proof (Qfloor_le x) as A. pose proof (Qlt_floor x) as B.
  assert (C : (k < Qfloor x + 1)%Z).
  { rewrite Zlt_Qlt. eapply Qle_lt_trans; eassumption. }
  assert (E : (Qfloor x < k + 1)%Z).
  { rewrite Zlt_Qlt. eapply Qle_lt_trans; eassumption. }
  lia.
Qed.

Lemma two_digits (z : Z) :
  (0 <= z < 60)%Z -> String.length (padStart 2 "0" (Str.of_Z z)) = 2%nat.
Proof.
  intro R.
  assert (F : forallb (fun n => Nat.eqb (String.length
                (padStart 2 "0" (Str.of_Z (Z.of_nat n)))) 2) (seq 0 60) = true)
    by (vm_compute; reflexivity).
  rewrite forallb_forall in F.
  specialize (F (Z.to_nat z)). rewrite Z2Nat.id in F by lia.
  apply Nat.eqb_eq, F, in_seq. lia.
Qed.

(** X19.  [formatTime] splits a time into whole minutes and seconds.
    For a time that is not negative, the seconds shown are between 0 and
    59, minutes and seconds add up to the whole seconds of the time, and
    the seconds are printed with exactly two characters after the
    colon. *)
Theorem formatTime_splits_whole_seconds (time : Q) :
  (0 <= time)%Q ->
  let minutes := formatTime_minutes time in
  let seconds := formatTime_seconds time in
  (0 <= minutes)%Z /\ (0 <= seconds < 60)%Z /\
  (minutes * 60 + seconds)%Z = Qfloor time /\
  formatTime time
    = (Str.of_Z minutes ++ ":" ++ padStart 2 "0" (Str.of_Z seconds))%string /\
  String.length (padStart 2 "0" (Str.of_Z seconds)) = 2%nat.
Proof.
  intros T minutes seconds.
  assert (P : (0 <= time / 60)%Q) by (apply Qle_shift_div_l; lra).
  pose proof (Qfloor_le (time / 60)) as A. pose proof (Qlt_floor (time / 60)) as B.
  fold (Math_floor (time / 60)) in A, B. fold (formatTime_minutes time) in A, B.
  fold minutes in A, B.
  assert (M : (0 <= minutes)%Z).
  { assert (K : (0 < minutes + 1)%Z); [|lia].
    rewrite Zlt_Qlt. eapply Qle_lt_trans; [exact P | exact B]. }
  rewrite inject_Z_plus in B.
  assert (A' : (inject_Z minutes * 60 <= time)%Q).
  { apply (Qmult_le_compat_r _ _ 60) in A; [|lra].
    assert (E : (time / 60 * 60 == time)%Q) by (field). rewrite E in A. exact A. }
  assert (B' : (time < (inject_Z minutes + 1) * 60)%Q).
  { apply (Qmult_lt_compat_r _ _ 60) in B; [|lra].
    assert (E : (time / 60 * 60 == time)%Q) by (field). rewrite E in B. exact B. }
  assert (R : (js_rem time 60 == time - 60 * inject_Z minutes)%Q).
  { unfold js_rem, truncate.
    assert (Z : Qle_bool 0 (time / 60) = true) by (now apply Qle_bool_iff).
    rewrite Z. reflexivity. }
  assert (S : seconds = (Qfloor time - 60 * minutes)%Z).
  { unfold seconds, formatTime_seconds, Math_floor. rewrite R.
    apply Qfloor_unique.
    - unfold Z.sub. rewrite inject_Z_plus, inject_Z_opp, inject_Z_mult.
      pose proof (Qfloor_le time). change (inject_Z 60) with 60%Q. lra.
    - unfold Z.sub. rewrite !inject_Z_plus, inject_Z_opp, inject_Z_mult.
      pose proof (Qlt_floor time) as F. rewrite inject_Z_plus in F.
      change (inject_Z 60) with 60%Q. change (inject_Z 1) with 1%Q in *. lra. }
  assert (S0 : (0 <= seconds < 60)%Z).
  { rewrite S.
    assert (L : (60 * minutes <= Qfloor time)%Z).
    { assert (K : (60 * minutes < Qfloor time + 1)%Z); [|lia].
      rewrite Zlt_Qlt. eapply Qle_lt_trans; [|apply Qlt_floor].
      rewrite inject_Z_mult. change (inject_Z 60) with 60%Q. lra. }
    assert (U : (Qfloor time < 60 * (minutes + 1))%Z).
    { rewrite Zlt_Qlt. eapply Qle_lt_trans; [apply Qfloor_le|].
      rewrite inject_Z_mult, inject_Z_plus. change (inject_Z 60) with 60%Q.
      change (inject_Z 1) with 1%Q. lra. }
    lia. }
  split; [exact M|]. split; [exact S0|]. split; [lia|].
  split; [reflexivity|]. now apply two_digits.
Qed.

Lemma formatTime_splits_whole_seconds_witness :
  formatTime (7531 # 100) = "1:15"%string /\
  formatTime 605 = "10:05"%string /\
  (formatTime_minutes (7531 # 100) * 60 + formatTime_seconds (7531 # 100))%Z = 75%Z.
Proof.
  split; [vm_compute; reflexivity|]. split; [vm_compute; reflexivity|].
  assert (P : (0 <= 7531 # 100)%Q) by discriminate.
  exact (proj1 (proj2 (proj2 (formatTime_splits_whole_seconds (7531 # 100) P)))).
Defined.



Lemma try_sources_spec (loads : Source -> bool) (todo : list Source) :
  let '(loaded, tried) := try_sources loads todo in
  loaded = existsb loads todo /\
  (exists rest, todo = (tried ++ rest)%list) /\
  forallb (fun s => negb (loads s)) (removelast tried) = true /\
  (loaded = true -> exists s, last tried s = s /\ In s tried /\ loads s = true
                              /\ tried <> []) /\
  (loaded = false -> tried = todo).
Proof.
  induction todo as [|source rest IH]; cbn [try_sources existsb].
  - split; [reflexivity|]. split; [now exists []|]. split; [reflexivity|].
    split; [discriminate | reflexivity].
  - destruct (loads source) eqn:L.
    + split; [reflexivity|]. split; [now exists rest|]. split; [reflexivity|].
      split; [|discriminate]. intros _. exists source.
      split; [reflexivity|]. split; [now left|]. split; [exact L | discriminate].
    + destruct (try_sources loads rest) as [loaded tried].
      destruct IH as (E & (more & P) & F & T & N).
      split; [exact E|]. split; [exists more; now rewrite P|].
      split; [|split].
      * destruct tried as [|t tried]; [reflexivity|].
        change (removelast (source :: t :: tried))
          with (source :: removelast (t :: tried)).
        cbn [forallb]. now rewrite L, F.
      * intro K. destruct (T K) as (s & A & B & C & Dn). exists s.
        destruct tried as [|t tried]; [now elim Dn|].
        split; [exact A|]. split; [now right|]. split; [exact C | discriminate].
      * intro K. now rewrite (N K).
Qed.

(** X21.  [loadFFmpeg] stops at the first source that loads.  The three
    sources are tried in their order; the encoder counts as loaded exactly
    when one of them loads; every source tried before the last one tried
    has failed; on success the last one tried has loaded and the ones
    after it are not tried; and on failure all three have been tried. *)
Theorem loadFFmpeg_first_source_wins (loads : Source -> bool) :
  let loaded := fst (loadFFmpeg loads) in
  let tried := snd (loadFFmpeg loads) in
  loaded = existsb loads sources /\
  (exists rest, sources = (tried ++ rest)%list) /\
  forallb (fun s => negb (loads s)) (removelast tried) = true /\
  (loaded = true -> exists s, last tried s = s /\ In s tried /\ loads s = true) /\
  (loaded = false -> tried = sources /\ List.length tried = 3%nat).
Proof.
  unfold loadFFmpeg. pose proof (try_sources_spec loads sources) as H.
  destruct (try_sources loads sources) as [loaded tried]. cbn [fst snd].
  destruct H as (E & P & F & T & N).
  split; [exact E|]. split; [exact P|]. split; [exact F|]. split.
  - intro K. destruct (T K) as (s & A & B & C & _). now exists s.
  - intro K. rewrite (N K). split; reflexivity.
Qed.

Ltac export_cases env :=
  destruct env as [f w o x r d1 d2 d3 n];
  cbn [fetch_video write_input frameOverlay run_exec read_output delete_input
       delete_frame delete_output now];
  destruct f as [[]|]; [|cbn];
  [destruct w as [[]|]; [|cbn];
   [destruct o as [[[]|]|]; [| |]; cbn;
    try (destruct x as [[]|]; [|cbn];
         [destruct r as [data|]; [|cbn];
          [destruct d1 as [[]|]; [|cbn];
           [destruct d2 as [[]|]; [|cbn];
            [destruct d3 as [[]|]; cbn | ] | ] | ] | ]) | ] | ].

(** X22.  The export of the VideoEditor ends in one of two ways and
    always gives the controls back.  A call that passes the guard leaves
    [isProcessing] false and the progress at 0 whatever happens; the
    download is triggered exactly when fetching, writing, encoding and
    reading all succeed, at most once; an error at any stage raises one
    alert, also a cleanup error after the download; and no file of the
    encoder is deleted unless the download has happened.  A call that
    does not pass the guard only raises an alert. *)
Theorem export_ends_with_download_or_alert
    (ffmpegLoaded : bool) (videoSrc : string) (env : Stages) (s : Export) :
  let effects := fst (processVideoWithFFmpeg ffmpegLoaded videoSrc env s) in
  let after := snd (processVideoWithFFmpeg ffmpegLoaded videoSrc env s) in
  (ffmpegLoaded = false \/ videoSrc = ""%string ->
   effects = [alert "FFmpeg belum siap atau video tidak tersedia"] /\ after = s) /\
  (ffmpegLoaded = true -> videoSrc <> ""%string ->
   after = mkExport false 0 /\
   (existsb is_download effects = true <->
    fetch_video env = Ok tt /\ write_input env = Ok tt /\
    (forall e, frameOverlay env <> Some (Throw e)) /\
    run_exec env = Ok tt /\ exists data, read_output env = Ok data) /\
   (List.length (filter is_download effects) <= 1)%nat /\
   (List.length (filter is_alert effects) <= 1)%nat /\
   (existsb is_alert effects = true <-> snd (export_try env) <> None) /\
   (existsb is_delete effects = true -> existsb is_download effects = true)).
Proof.
  intros effects after. subst effects after. split.
  - intros [-> | ->]; [split; reflexivity|].
    unfold processVideoWithFFmpeg. cbn [String.eqb]. rewrite orb_true_r.
    split; reflexivity.
  - intros -> V. unfold processVideoWithFFmpeg.
    assert (E : (videoSrc =? "")%string = false) by (now apply String.eqb_neq).
    rewrite E. cbn [negb orb]. unfold export_try.
    export_cases env;
      (split; [reflexivity|]);
      (split; [split; [intro K; try discriminate K;
                       repeat split; try discriminate; eauto
                      |intros (K1 & K2 & K3 & K4 & (dt & K5));
                       try discriminate; try reflexivity;
                       try (exfalso; eapply K3; reflexivity)]|]);
      (split; [auto|]); (split; [auto|]);
      (split; [split; [discriminate | intro K; try reflexivity; now elim K]|]);
      try (intro K; try discriminate K; reflexivity).
Qed.

Lemma loadFFmpeg_first_source_wins_witness :
  fst (loadFFmpeg MoreSamples.unpkg_only) = true /\
  map source_name (snd (loadFFmpeg MoreSamples.unpkg_only))
    = ["Local files"; "unpkg ESM"]%string /\
  forallb (fun s => negb (MoreSamples.unpkg_only s))
          (removelast (snd (loadFFmpeg MoreSamples.unpkg_only))) = true.
Proof.
  split; [reflexivity|]. split; [reflexivity|].
  exact (proj1 (proj2 (proj2 (loadFFmpeg_first_source_wins MoreSamples.unpkg_only)))).
Defined.

Lemma export_ends_with_download_or_alert_witness :
  let effects :=
    fst (processVideoWithFFmpeg true "blob:video" MoreSamples.export_without_overlay
           (mkExport false 0)) in
  existsb is_download effects = true /\
  existsb is_alert effects = true /\
  existsb is_delete effects = true.
Proof.
  intro effects.
  assert (V : "blob:video"%string <> ""%string) by discriminate.
  destruct (proj2 (export_ends_with_download_or_alert true "blob:video"
                     MoreSamples.export_without_overlay (mkExport false 0))
                  eq_refl V) as (_ & D & _ & _ & A & _).
  split; [|split; [|reflexivity]].
  - apply D. repeat split; try discriminate. now exists 2000%N.
  - apply A. discriminate.
Defined.

(** X23.  The export command reads frame.png whether or not it was
    written.  When no frame overlay is available the file frame.png is
    never written, yet the encoder is run with the same arguments as
    always, which name frame.png as second input and overlay it; if the
    run and the read succeed, the removal of frame.png is attempted as
    well. *)
Theorem export_without_overlay_still_reads_frame
    (videoSrc : string) (env : Stages) (s : Export) :
  videoSrc <> ""%string ->
  frameOverlay env = None ->
  fetch_video env = Ok tt -> write_input env = Ok tt -> run_exec env = Ok tt ->
  let effects := fst (processVideoWithFFmpeg true videoSrc env s) in
  ~ In (writeFile "frame.png") effects /\
  (forall args, In (exec args) effects <-> args = Command.ffmpegCommand) /\
  Command.has_option "-i" "frame.png" Command.ffmpegCommand = true /\
  Str.includes Command.editor_filter "[1:v]overlay" = true /\
  (forall data, read_output env = Ok data -> delete_input env = Ok tt ->
     delete_frame env = Ok tt -> In (deleteFile "frame.png") effects).
Proof.
  intros V O F W X effects. subst effects. unfold processVideoWithFFmpeg.
  assert (E : (videoSrc =? "")%string = false) by (now apply String.eqb_neq).
  rewrite E. cbn [negb orb]. unfold export_try. rewrite F, W, O, X.
  set (cmd := Command.ffmpegCommand).
  assert (C : forall args, exec args = exec cmd <-> args = cmd).
  { intro args. split; [intro K; now injection K | now intros ->]. }
  split; [|split; [|split; [vm_compute; reflexivity
                           |split; [vm_compute; reflexivity|]]]].
  - destruct (read_output env); [destruct (delete_input env) as [[]|];
      [destruct (delete_frame env) as [[]|]; [destruct (delete_output env) as [[]|]|]|]|];
      cbn [fst app In]; intro K;
      repeat (destruct K as [K | K]; [discriminate K|]); exact K.
  - intro args. rewrite <- C.
    destruct (read_output env); [destruct (delete_input env) as [[]|];
      [destruct (delete_frame env) as [[]|]; [destruct (delete_output env) as [[]|]|]|]|];
      cbn [fst app In]; split;
      try (intro K; repeat (destruct K as [K | K]; try discriminate K);
           [symmetry; exact K | now elim K]);
      intro K; right; left; now symmetry.
  - intros data R D1 D2. rewrite R, D1, D2.
    destruct (delete_output env) as [[]|]; cbn [fst app In]; tauto.
Qed.

Lemma export_without_overlay_still_reads_frame_witness :
  let effects :=
    fst (processVideoWithFFmpeg true "blob:video" MoreSamples.export_without_overlay
           (mkExport false 0)) in
  In (exec Command.ffmpegCommand) effects /\ ~ In (writeFile "frame.png") effects.
Proof.
  intro effects.
  assert (V : "blob:video"%string <> ""%string) by discriminate.
  destruct (export_without_overlay_still_reads_frame "blob:video"
              MoreSamples.export_without_overlay (mkExport false 0)
              V eq_refl eq_refl eq_refl eq_refl) as (A & B & _).
  split; [now apply B | exact A].
Defined.

End EditorFacts.

(** ** The selector beyond the fallback path *)

Module SelectorMoreFacts.
Import Selector SelectorMore SelectorCalls Samples.
Local Open Scope string_scope.

(** X24.  A job the encoder completes never reaches the fallback.  With
    the encoder ready, when the encoder's job for the requested format
    is fulfilled the selector returns that blob, typed by the encoder,
    passes on the encoder's progress calls only, writes no warning, and
    leaves the fallback processor as it was. *)
Theorem encoder_success_skips_fallback
    (vp : VideoProcessor) (cb : option Callback) (outputFormat : string)
    (env : World) (b : Blob) (fp : Encoder.FFmpegVideoProcessor)
    (reports : list Report) :
  encoder_ready vp = true ->
  Encoder.processVideo (ffmpegProcessor vp) cb outputFormat
    (if String.eqb outputFormat "mp4" then first_attempt env else second_attempt env)
  = (Encoder.Fulfilled b, fp, reports) ->
  processVideo vp cb outputFormat env
  = (Fallback.Fulfilled b, with_encoder fp vp, reports, []) /\
  blob_type b = (if String.eqb outputFormat "mp4" then "video/mp4" else "video/webm") /\
  fallbackProcessor (with_encoder fp vp) = fallbackProcessor vp.
Proof.
  intros R E. split; [|split; [|reflexivity]].
  - unfold processVideo. rewrite R.
    destruct (String.eqb outputFormat "mp4") eqn:F; cbn [andb].
    + apply String.eqb_eq in F. subst outputFormat.
      unfold attempt. now rewrite E.
    + rewrite R. unfold attempt. now rewrite E.
  - destruct (EncoderJobFacts.fulfilled_inversion _ _ _ _ _ _ _ E)
      as (q & _ & T & _).
    destruct (EncoderJobFacts.try_blob _ _ _ _ _ _ T) as (data & _ & ->).
    cbn [blob_type]. now destruct (String.eqb outputFormat "mp4").
Qed.

Lemma encoder_success_skips_fallback_witness :
  let env := mkWorld MoreSamples.working_engine failing_engine stalled_browser in
  exists fp reports,
    processVideo with_encoder_loaded (Some 1%nat) "mp4" env
    = (Fallback.Fulfilled (mkBlob "video/mp4" [2000%N]),
       with_encoder fp with_encoder_loaded, reports, []).
Proof.
  intro env. eexists _, _.
  refine (proj1 (encoder_success_skips_fallback with_encoder_loaded (Some 1%nat)
                   "mp4" env _ _ _ eq_refl _)).
  vm_compute. reflexivity.
Defined.

Lemma call_keeps_encoder_off (vp : VideoProcessor) (c : Call) :
  useFFmpeg vp = false -> useFFmpeg (apply_call vp c) = false.
Proof.
  intro U. destruct c as [ok | url fetched loads | cb format env]; cbn [apply_call].
  - unfold initialize. destruct (Encoder.initialize _) as [a fp].
    cbn [snd useFFmpeg]. rewrite U. now destruct (match _ with Some b => b | None => false end).
  - unfold loadFrame. destruct (Encoder.loadFrame _ _) as [r1 fp].
    destruct (Fallback.loadFrame _ _ _) as [r2 fb]. exact U.
  - unfold processVideo, encoder_ready. rewrite U. cbn [andb].
    rewrite andb_false_r. rewrite U. cbn [andb].
    unfold use_fallback.
    destruct (Fallback.processVideo _ _ _ _) as [[[ | m | blob] fb] reports];
      exact U.
Qed.

Lemma calls_keep_encoder_off (calls : list Call) (vp : VideoProcessor) :
  useFFmpeg vp = false -> useFFmpeg (apply_calls calls vp) = false.
Proof.
  revert vp. induction calls as [|c calls IH]; intros vp U; simpl; [exact U|].
  apply IH. now apply call_keeps_encoder_off.
Qed.

(** X25.  A selector that has given up the encoder never takes it up
    again.  Once [useFFmpeg] is false, as after an [initialize] that
    found the module load failed, it stays false over any later calls of
    [initialize], [loadFrame] and [processVideo]: MP4 is reported as
    unsupported, the recommended format is webm, and every [processVideo]
    is the fallback's job alone, with the encoder processor untouched. *)
Theorem encoder_once_dropped_stays_dropped
    (vp : VideoProcessor) (calls : list Call) (cb : option Callback)
    (outputFormat : string) (env : World) :
  useFFmpeg vp = false ->
  let vp' := apply_calls calls vp in
  supportsMP4 vp' = false /\
  getRecommendedFormat vp' = "webm" /\
  processVideo vp' cb outputFormat env = use_fallback vp' cb outputFormat env /\
  ffmpegProcessor (snd (fst (fst (processVideo vp' cb outputFormat env))))
  = ffmpegProcessor vp'.
Proof.
  intros U vp'. pose proof (calls_keep_encoder_off calls vp U) as U'. fold vp' in U'.
  assert (S : supportsMP4 vp' = false) by (unfold supportsMP4; now rewrite U').
  assert (P : processVideo vp' cb outputFormat env = use_fallback vp' cb outputFormat env).
  { unfold processVideo, encoder_ready. rewrite U'. cbn [andb].
    rewrite andb_false_r. rewrite U'. cbn [andb].
    destruct (use_fallback vp' cb outputFormat env) as [[[out v] reports] console].
    reflexivity. }
  split; [exact S|]. split; [unfold getRecommendedFormat; now rewrite S|].
  split; [exact P|]. rewrite P. unfold use_fallback.
  destruct (Fallback.processVideo _ _ _ _) as [[[ | m | blob] fb] reports]; reflexivity.
Qed.

Lemma encoder_once_dropped_stays_dropped_witness :
  let vp := snd (initialize false new) in
  let vp' := apply_calls [CallInitialize true;
                          CallProcessVideo None "mp4" encoder_throws_world;
                          CallInitialize true] vp in
  useFFmpeg vp = false /\ supportsMP4 vp' = false /\ getRecommendedFormat vp' = "webm".
Proof.
  intros vp vp'.
  assert (U : useFFmpeg vp = false) by reflexivity.
  destruct (encoder_once_dropped_stays_dropped vp
              [CallInitialize true; CallProcessVideo None "mp4" encoder_throws_world;
               CallInitialize true] None "mp4" encoder_throws_world U) as (A & B & _).
  split; [exact U|]. split; [exact A | exact B].
Defined.

(** X26.  [VideoProcessor.loadFrame] can fail halfway.  The call
    resolves exactly when both processors load the frame; each processor
    keeps a frame it has loaded although the call rejects, and a
    processor whose load fails keeps the frame it had, so after a
    rejected call the two can hold different frames. *)
Theorem loadFrame_can_fail_halfway
    (frameUrl : string) (fetched : Result Blob) (image_loads : bool)
    (vp : VideoProcessor) :
  let r := fst (loadFrame frameUrl fetched image_loads vp) in
  let vp' := snd (loadFrame frameUrl fetched image_loads vp) in
  (r = Ok tt <-> (exists b, fetched = Ok b) /\ image_loads = true) /\
  (forall b, fetched = Ok b -> Encoder.frameImage (ffmpegProcessor vp') = Some b) /\
  (forall e, fetched = Throw e ->
     ffmpegProcessor vp' = ffmpegProcessor vp) /\
  (image_loads = true ->
     Fallback.frameImage (fallbackProcessor vp') = Some (Canvas.mkImage frameUrl true)) /\
  (image_loads = false -> fallbackProcessor vp' = fallbackProcessor vp) /\
  useFFmpeg vp' = useFFmpeg vp.
Proof.
  intros r vp'. subst r vp'. unfold loadFrame, Encoder.loadFrame, Fallback.loadFrame.
  destruct fetched as [b|e]; destruct image_loads; cbn [fst snd].
  - split; [split; [intros _; split; [now exists b | reflexivity] | reflexivity]|].
    split; [intros b' K; now injection K as <-|].
    split; [discriminate|]. split; [reflexivity|]. split; [discriminate | reflexivity].
  - split; [split; [discriminate | intros (_ & K); discriminate K]|].
    split; [intros b' K; now injection K as <-|].
    split; [discriminate|]. split; [discriminate|]. split; reflexivity.
  - split; [split; [discriminate | intros ((b' & K) & _); discriminate K]|].
    split; [discriminate|]. split; [reflexivity|].
    split; [reflexivity|]. split; [discriminate | reflexivity].
  - split; [split; [discriminate | intros ((b' & K) & _); discriminate K]|].
    split; [discriminate|]. split; [reflexivity|].
    split; [discriminate|]. split; reflexivity.
Qed.

Lemma loadFrame_can_fail_halfway_witness :
  let out := loadFrame "bingkai.png" (Throw "Failed to fetch frame image") true new in
  fst out = Throw "Failed to fetch frame image" /\
  Encoder.frameImage (ffmpegProcessor (snd out)) = None /\
  Fallback.frameImage (fallbackProcessor (snd out))
    = Some (Canvas.mkImage "bingkai.png" true).
Proof.
  intro out.
  destruct (loadFrame_can_fail_halfway "bingkai.png"
              (Throw "Failed to fetch frame image") true new)
    as (_ & _ & A & B & _).
  split; [reflexivity|]. split; [|exact (B eq_refl)].
  unfold out. now rewrite (A _ eq_refl).
Defined.

End SelectorMoreFacts.

(** ** EnhancedVideoProcessor: progress filter and bitrate settings *)

Module EnhancedFacts.
Import Enhanced Invariants.
Local Open Scope Q_scope.

Lemma sorted_snoc_rel {A} (R : A -> A -> Prop) (l : list A) (x : A) :
  StronglySorted R l -> Forall (fun y => R y x) l -> StronglySorted R (l ++ [x]).
Proof.
  induction 1 as [|a l S IH F]; intro B; simpl.
  - repeat constructor.
  - inversion B as [|? ? Ba Bl]; subst. constructor.
    + now apply IH.
    + apply Forall_app. split; [exact F | repeat constructor; exact Ba].
Qed.

Lemma on_progress_throttled (f : Callback) (st : Q * list Report) (progress : Q) :
  throttled st -> throttled (on_progress (Some f) st progress).
Proof.
  destruct st as [pr reports]. intros T. pose proof T as (S & F & (P0 & P1) & L & L').
  unfold on_progress.
  destruct (Qgtb (Math_min progress 0.95) (pr + 0.05)) eqn:G; [|exact T].
  apply Qgtb_true in G.
  pose proof (ProgressFacts.Math_min_le_r progress 0.95) as M.
  set (cur := Math_min progress 0.95) in *.
  unfold throttled. cbn [call_if_set]. rewrite map_app. cbn [map snd].
  split; [|split; [|split; [|split]]].
  - apply sorted_snoc_rel; [exact S|].
    eapply Forall_impl; [|exact F]. intros v (_ & V). unfold apart. lra.
  - apply Forall_app. split.
    + eapply Forall_impl; [|exact F]. intros v (V0 & V). split; lra.
    + repeat constructor; lra.
  - split; lra.
  - rewrite length_app. cbn [List.length]. rewrite Nat.add_1_r, Nat2Z.inj_succ.
    unfold Z.succ. rewrite inject_Z_plus. change (inject_Z 1) with 1.
    match goal with |- (?a + 1) * _ <= _ => set (n := a) end.
    change (n * 0.05 <= pr) in L. clearbody n. lra.
  - intros _. rewrite length_app. cbn [List.length].
    rewrite Nat.add_1_r, Nat2Z.inj_succ.
    unfold Z.succ. rewrite inject_Z_plus. change (inject_Z 1) with 1.
    match goal with |- (?a + 1) * _ < _ => set (n := a) end.
    change (n * 0.05 <= pr) in L. clearbody n. lra.
Qed.

Lemma fold_throttled (f : Callback) (engine : list Q) (st : Q * list Report) :
  throttled st -> throttled (fold_left (on_progress (Some f)) engine st).
Proof.
  revert st. induction engine as [|p engine IH]; intros st T; simpl; [exact T|].
  apply IH. now apply on_progress_throttled.
Qed.

Lemma sorted_apart_lt (l : list Q) : StronglySorted apart l -> StronglySorted Qlt l.
Proof.
  induction 1 as [|a l S IH F]; constructor; [exact IH|].
  eapply Forall_impl; [|exact F]. intros v V. unfold apart in V. lra.
Qed.

Lemma fold_callback (f : Callback) (engine : list Q) (st : Q * list Report) :
  Forall (fun r => fst r = f) (snd st) ->
  Forall (fun r => fst r = f) (snd (fold_left (on_progress (Some f)) engine st)).
Proof.
  revert st. induction engine as [|p engine IH]; intros st T; simpl; [exact T|].
  apply IH. destruct st as [pr reports]. unfold on_progress.
  destruct (Qgtb _ _); [|exact T]. cbn [snd call_if_set] in *.
  apply Forall_app. split; [exact T | repeat constructor].
Qed.

(** X27.  The enhanced encoder thins out the engine's progress.
    Whatever values the engine emits during a job and in whatever order,
    the progress listener installed by that call of
    [processVideoWithFFmpeg], together with the final update, gives the
    callback a strictly increasing sequence: values above 0.05 and at
    most 0.95, each more than 0.05 above the one before, hence at most 18
    of them, followed by exactly one final call with 1; without a
    callback nothing is called. *)
Theorem enhanced_progress_is_throttled (f : Callback) (engine : list Q) :
  let vs := Encoder.values (job_reports (Some f) engine) in
  (exists mids,
     vs = (mids ++ [1.0])%list /\
     StronglySorted apart mids /\
     Forall (fun v => 0.05 < v /\ v <= 0.95) mids /\
     (List.length mids <= 18)%nat) /\
  StronglySorted Qlt vs /\
  Forall (fun r => fst r = f) (job_reports (Some f) engine) /\
  job_reports None engine = [].
Proof.
  intro vs. subst vs. unfold job_reports, Encoder.values.
  pose proof (fold_throttled f engine (0, [])) as T.
  pose proof (fold_callback f engine (0, [])) as C.
  destruct (fold_left (on_progress (Some f)) engine (0, [])) as [pr reports].
  destruct T as (S & F & (P0 & P1) & L & L').
  { split; [constructor|]. split; [constructor|]. split; [split; discriminate|].
    split; [discriminate | intro K; now elim K]. }
  cbn [snd call_if_set] in *. rewrite map_app. cbn [map snd].
  set (mids := map snd reports) in *.
  assert (B : Forall (fun v => 0.05 < v /\ v <= 0.95) mids).
  { eapply Forall_impl; [|exact F]. intros v (V0 & V). split; lra. }
  split; [|split; [|split]].
  - exists mids. split; [reflexivity|]. split; [exact S|]. split; [exact B|].
    destruct mids as [|m mids'] eqn:E; [apply Nat.le_0_l|]. rewrite <- E in *.
    assert (N : mids <> []) by (rewrite E; discriminate).
    specialize (L' N).
    assert (K : inject_Z (Z.of_nat (List.length mids)) < 19).
    { revert L'. generalize (inject_Z (Z.of_nat (List.length mids))). intros n L'. lra. }
    change 19 with (inject_Z 19) in K. rewrite <- Zlt_Qlt in K. lia.
  - apply sorted_snoc_rel.
    + apply sorted_apart_lt. exact S.
    + eapply Forall_impl; [|exact B]. intros v (_ & V).
      assert (O : 1.0 == 1) by reflexivity. rewrite O. lra.
  - apply Forall_app. split; [apply C; constructor | repeat constructor].
  - clear. assert (E : forall st, snd st = [] ->
                     snd (fold_left (on_progress None) engine st) = []).
    { induction engine as [|p engine IH]; intros st K; simpl; [exact K|].
      apply IH. destruct st as [pr l]. unfold on_progress.
      destruct (Qgtb _ _); [|exact K]. cbn [snd call_if_set] in *.
      now rewrite K. }
    now rewrite (E (0, []) eq_refl).
Qed.

Lemma enhanced_progress_is_throttled_witness :
  let engine := [1 # 100; 6 # 100; 8 # 100; 5 # 10; 3 # 10; 52 # 100; 99 # 100; 1] in
  Encoder.values (job_reports (Some 2%nat) engine)
    = [6 # 100; 5 # 10; Math_min (99 # 100) 0.95; 1.0] /\
  StronglySorted Qlt (Encoder.values (job_reports (Some 2%nat) engine)).
Proof.
  intro engine. split; [vm_compute; reflexivity|].
  exact (proj1 (proj2 (enhanced_progress_is_throttled 2%nat engine))).
Defined.

(** X28.  [calculateOptimalSettings] keeps its minimums even when they
    break the size target.  For a positive duration the video bitrate is
    at least 1 Mbit/s, the audio bitrate lies between 128 and 320 kbit/s
    and the frame rate is 30 exactly when 80% of the target bitrate
    exceeds 8 Mbit/s, else 25; the two bitrates together are at least
    1,128,000 bit/s, so a target below that is exceeded, while a target of
    1.6 Mbit/s or more is never exceeded. *)
Theorem optimal_settings_keep_minimums (duration targetSize : Q) :
  0 < duration ->
  let targetBitrate := targetSize * 1024 * 1024 * 8 / duration in
  let s := calculateOptimalSettings duration targetSize in
  1000000 <= videoBitrate s /\
  128000 <= audioBitrate s <= 320000 /\
  (settings_fps s = 30%Z /\ 8000000 < targetBitrate * 0.8 /\
     videoBitrate s == targetBitrate * 0.8
   \/ settings_fps s = 25%Z /\ targetBitrate * 0.8 <= 8000000) /\
  1128000 <= videoBitrate s + audioBitrate s /\
  (targetBitrate < 1128000 -> targetBitrate < videoBitrate s + audioBitrate s) /\
  (1600000 <= targetBitrate -> videoBitrate s + audioBitrate s <= targetBitrate).
Proof.
  intros D targetBitrate s. subst s. unfold calculateOptimalSettings.
  cbn [videoBitrate audioBitrate settings_fps].
  change (targetSize * 1024 * 1024 * 8 / duration) with targetBitrate.
  set (T := targetBitrate). clearbody T. clear.
  pose proof (PhotoFacts.Math_max_ge_r (T * 0.8) 1000000) as V1.
  pose proof (PhotoFacts.Math_max_ge_l (T * 0.8) 1000000) as V2.
  pose proof (ProgressFacts.Math_min_le_r (T * 0.2) 320000) as A0.
  pose proof (PhotoFacts.Math_max_ge_r (Math_min (T * 0.2) 320000) 128000) as A1.
  pose proof (PhotoFacts.Math_max_ge_l (Math_min (T * 0.2) 320000) 128000) as A2.
  assert (A3 : Photo.Math_max (Math_min (T * 0.2) 320000) 128000 <= 320000).
  { apply PhotoFacts.Math_max_lub; [exact A0 | lra]. }
  split; [exact V1|]. split; [split; [exact A1 | exact A3]|].
  split; [|split; [lra|split]].
  - destruct (Qgtb (T * 0.8) 8000000) eqn:G.
    + apply Qgtb_true in G. left. split; [reflexivity|]. split; [exact G|].
      unfold Photo.Math_max. destruct (Qle_bool (T * 0.8) 1000000) eqn:E; [|reflexivity].
      apply Qle_bool_iff in E. lra.
    + apply Qgtb_false in G. right. split; [reflexivity | exact G].
  - lra.
  - intro K.
    assert (V : Photo.Math_max (T * 0.8) 1000000 == T * 0.8).
    { unfold Photo.Math_max. destruct (Qle_bool (T * 0.8) 1000000) eqn:E; [|reflexivity].
      apply Qle_bool_iff in E. lra. }
    assert (A : Photo.Math_max (Math_min (T * 0.2) 320000) 128000 == 320000).
    { assert (M : Math_min (T * 0.2) 320000 == 320000).
      { unfold Math_min. destruct (Qle_bool (T * 0.2) 320000) eqn:E; [|reflexivity].
        apply Qle_bool_iff in E. lra. }
      unfold Photo.Math_max.
      destruct (Qle_bool (Math_min (T * 0.2) 320000) 128000) eqn:E; [|exact M].
      apply Qle_bool_iff in E. lra. }
    rewrite V, A. lra.
Qed.

Lemma optimal_settings_keep_minimums_witness :
  let s := calculateOptimalSettings 60 5 in
  videoBitrate s == 1000000 /\ audioBitrate s == 139810 + (2 # 15) /\
  5 * 1024 * 1024 * 8 / 60 < videoBitrate s + audioBitrate s.
Proof.
  intro s. split; [reflexivity|]. split; [reflexivity|].
  assert (D : 0 < 60) by reflexivity.
  destruct (optimal_settings_keep_minimums 60 5 D) as (_ & _ & _ & _ & A & _).
  apply A. reflexivity.
Defined.

End EnhancedFacts.
